(** * GasGuard: the sensor-to-actuator control loop

    A shallow embedding of the parts of the GasGuard detector that carry
    its algorithmic content, and the properties of its specification
    settled against them:

    - [HardwareManager]  src/hardware/hardwareManager.js  (fusion, alert level, poll tick)
    - [GasSensor]        src/hardware/gasSensor.js        (resistance to ppm conversion)
    - [GPIOQueue]        src/hardware/gpioQueue.js        (per-pin serialized writes)
    - [AlertManager]     src/services/alertManager.js     (persistence timer, cooldown)
    - [GPSAsync]         src/hardware/gpsAsync.js         (fix gate, reconnect, persistence)

    Numbers.  JavaScript numbers are IEEE doubles.  Concentrations that are
    only compared, added, multiplied and divided are modelled as exact
    rationals [Q]; the calibration curve uses [Math.pow] with a fractional
    exponent and is modelled over the reals [R].  Clock readings
    ([Date.now()]) are integers [Z] in milliseconds. *)

From Stdlib Require Import ZArith QArith Qminmax Qround Qabs Lia Lra Lqa Bool List.
From Stdlib Require Import Reals Ascii.
From stdpp Require Import base option list gmap strings.

Close Scope R_scope.
Close Scope Q_scope.

(* ===================================================================== *)
(** ** Rational helpers shared by the numeric models *)
(* ===================================================================== *)

(** [x > y] and [x >= y] and [x < y] on rationals, as booleans. *)
Definition Qgtb (x y : Q) : bool := negb (Qle_bool x y).
Definition Qgeb (x y : Q) : bool := Qle_bool y x.
Definition Qltb (x y : Q) : bool := negb (Qle_bool y x).

(* ===================================================================== *)
(** ** HardwareManager: sensor fusion and the alert level *)
(* ===================================================================== *)

Module HardwareManager.

Local Open Scope Q_scope.

Inductive AlertLevel := normal | low | critical.
Inductive GasType := LPG_Butane | Smoke_Fire | LPG_Propane | Other_Gases | Clean_Air.
Inductive RiskLevel := HIGH | MEDIUM | LOW | MINIMAL.
Inductive Agreement := PERFECT | EXCELLENT | GOOD | FAIR | POOR | DISAGREEMENT.
Inductive Contribution := C_HIGH | C_MEDIUM | C_LOW | C_NONE.
Inductive Recommendation :=
  | IMMEDIATE_EVACUATION | INVESTIGATE_SOURCE | MONITOR_CLOSELY
  | VERIFY_READING | NORMAL_OPERATION.
Inductive SensorKind := mq6 | mq2.

Definition AlertLevel_eqb (a b : AlertLevel) : bool :=
  match a, b with
  | normal, normal | low, low | critical, critical => true
  | _, _ => false
  end.

(** What [GasSensor.read()] hands to the manager; only [raw] and [ppm] are
    read by the manager. *)
Record SensorReading := mkReading { raw : Z; ppm : Q }.

(** An entry of [this.sensorData]: [{ raw, ppm, timestamp }]. *)
Record StoredReading := mkStored { s_raw : Z; s_ppm : Q; s_timestamp : option Z }.

(** [this.alertLevels]: only the two [min] bounds are ever read. *)
Record AlertLevels := mkLevels { low_min : Q; critical_min : Q }.

Definition defaultAlertLevels : AlertLevels := mkLevels 100 300.

Record FusedAssessment := mkFused {
  timestamp : Z;
  maxPpm : Q;
  avgPpm : Q;
  minPpm : Q;
  gasType : GasType;
  confidence : Q;
  riskLevel : RiskLevel;
  agreement : Agreement;
  mq6Contribution : Contribution;
  mq2Contribution : Contribution;
  recommendation : Recommendation
}.

(** [determineAlertLevel(ppm)]: the simple threshold bands. *)
Definition determineAlertLevel (lv : AlertLevels) (p : Q) : AlertLevel :=
  if Qgeb p (critical_min lv) then critical
  else if Qgeb p (low_min lv) then low
  else normal.

Definition detectGasType (mq6Data mq2Data : SensorReading) : GasType :=
  let mq6Ratio := ppm mq6Data / Qmax (ppm mq2Data) 1 in
  let mq2Ratio := ppm mq2Data / Qmax (ppm mq6Data) 1 in
  if Qgtb mq6Ratio (15 # 10) && Qgtb (ppm mq6Data) 50 then LPG_Butane
  else if Qgtb mq2Ratio 2 && Qgtb (ppm mq2Data) 30 then Smoke_Fire
  else if Qgtb (ppm mq6Data) 20 && Qgtb (ppm mq2Data) 20 then LPG_Propane
  else if Qgtb (ppm mq2Data) 10 && Qltb (ppm mq6Data) 10 then Other_Gases
  else Clean_Air.

Definition calculateConfidence (mq6Data mq2Data : SensorReading) : Q :=
  let maxPpm := Qmax (ppm mq6Data) (ppm mq2Data) in
  let minPpm := Qmin (ppm mq6Data) (ppm mq2Data) in
  let confidence := 0 in
  let confidence :=
    if Qgtb maxPpm 100 then confidence + 40
    else if Qgtb maxPpm 50 then confidence + 30
    else if Qgtb maxPpm 20 then confidence + 20
    else if Qgtb maxPpm 5 then confidence + 10
    else confidence in
  let confidence :=
    if Qgtb minPpm 5 && Qgtb maxPpm 0
    then let agreement := minPpm / maxPpm in confidence + agreement * 30
    else confidence in
  let confidence :=
    if Qgtb maxPpm 200 then confidence + 20 else confidence in
  Qmin 100 (Qmax 0 confidence).

Definition riskMultipliers (g : GasType) : Q :=
  match g with
  | LPG_Butane => 12 # 10
  | LPG_Propane => 11 # 10
  | Smoke_Fire => 15 # 10
  | Other_Gases => 8 # 10
  | Clean_Air => 1 # 10
  end.

Definition assessRisk (mq6Data mq2Data : SensorReading) (g : GasType) : RiskLevel :=
  let maxPpm := Qmax (ppm mq6Data) (ppm mq2Data) in
  let baseRisk := maxPpm * riskMultipliers g in
  if Qgtb baseRisk 300 then HIGH
  else if Qgtb baseRisk 150 then MEDIUM
  else if Qgtb baseRisk 50 then LOW
  else MINIMAL.

Definition analyzeSensorAgreement (mq6Data mq2Data : SensorReading) : Agreement :=
  let maxPpm := Qmax (ppm mq6Data) (ppm mq2Data) in
  let minPpm := Qmin (ppm mq6Data) (ppm mq2Data) in
  if Qeq_bool maxPpm 0 then PERFECT
  else
    let agreement := minPpm / maxPpm in
    if Qgtb agreement (8 # 10) then EXCELLENT
    else if Qgtb agreement (6 # 10) then GOOD
    else if Qgtb agreement (4 # 10) then FAIR
    else if Qgtb agreement (2 # 10) then POOR
    else DISAGREEMENT.

Definition calculateSensorContribution (d : SensorReading) (k : SensorKind) : Contribution :=
  let p := ppm d in
  match k with
  | mq6 =>
      if Qgtb p 100 then C_HIGH
      else if Qgtb p 50 then C_MEDIUM
      else if Qgtb p 20 then C_LOW
      else C_NONE
  | mq2 =>
      if Qgtb p 80 then C_HIGH
      else if Qgtb p 40 then C_MEDIUM
      else if Qgtb p 15 then C_LOW
      else C_NONE
  end.

Definition RiskLevel_eqb (a b : RiskLevel) : bool :=
  match a, b with
  | HIGH, HIGH | MEDIUM, MEDIUM | LOW, LOW | MINIMAL, MINIMAL => true
  | _, _ => false
  end.

Definition Agreement_eqb (a b : Agreement) : bool :=
  match a, b with
  | PERFECT, PERFECT | EXCELLENT, EXCELLENT | GOOD, GOOD
  | FAIR, FAIR | POOR, POOR | DISAGREEMENT, DISAGREEMENT => true
  | _, _ => false
  end.

Definition generateRecommendation (g : GasType) (r : RiskLevel) (c : Q) : Recommendation :=
  if RiskLevel_eqb r HIGH && Qgtb c 70 then IMMEDIATE_EVACUATION
  else if RiskLevel_eqb r MEDIUM && Qgtb c 60 then INVESTIGATE_SOURCE
  else if RiskLevel_eqb r LOW && Qgtb c 50 then MONITOR_CLOSELY
  else if Qltb c 30 then VERIFY_READING
  else NORMAL_OPERATION.

(** [evaluateSensorData(mq6Data, mq2Data)]; [now] is the [new Date()] it
    stamps the assessment with. *)
Definition evaluateSensorData (now : Z) (mq6Data mq2Data : SensorReading) : FusedAssessment :=
  let maxPpm := Qmax (ppm mq6Data) (ppm mq2Data) in
  let avgPpm := (ppm mq6Data + ppm mq2Data) / 2 in
  let minPpm := Qmin (ppm mq6Data) (ppm mq2Data) in
  let gasType := detectGasType mq6Data mq2Data in
  let confidence := calculateConfidence mq6Data mq2Data in
  let riskLevel := assessRisk mq6Data mq2Data gasType in
  let agreement := analyzeSensorAgreement mq6Data mq2Data in
  mkFused now maxPpm avgPpm minPpm gasType confidence riskLevel agreement
    (calculateSensorContribution mq6Data mq6)
    (calculateSensorContribution mq2Data mq2)
    (generateRecommendation gasType riskLevel confidence).

(** [determineSmartAlertLevel(fusedData)]: the four rules in source order,
    then the threshold bands. *)
Definition determineSmartAlertLevel (lv : AlertLevels) (f : FusedAssessment) : AlertLevel :=
  if Qgtb (confidence f) 70 && RiskLevel_eqb (riskLevel f) HIGH then critical
  else if Qgtb (confidence f) 50 && RiskLevel_eqb (riskLevel f) MEDIUM then low
  else if Qgtb (maxPpm f) 200 && Agreement_eqb (agreement f) EXCELLENT then critical
  else if Qgtb (maxPpm f) 100 && Agreement_eqb (agreement f) GOOD then low
  else determineAlertLevel lv (maxPpm f).

(** *** The poll tick, [readSensorData()]

    The state is the part of [this] the tick reads or writes.  The inputs
    of one tick are the clock, the two preheat flags reported by
    [getCalibrationInfo()], and the outcome of each awaited hardware call
    ([None] = the call threw).  The effects are what the tick schedules
    with [setImmediate] or logs. *)

Record State := mkState {
  isInitialized : bool;
  sensorData_mq6 : option StoredReading;
  sensorData_mq2 : option StoredReading;
  sensorData_fused : option FusedAssessment;
  currentAlertLevel : AlertLevel;
  alertLevels : AlertLevels;
  lastUpdate : option Z
}.

(** The constructor's state. *)
Definition initialState : State :=
  mkState false (Some (mkStored 0 0 None)) (Some (mkStored 0 0 None)) None
    normal defaultAlertLevels None.

Record TickInput := mkTick {
  now : Z;
  mq6_preheated : bool;
  mq2_preheated : bool;
  adc_channel0 : option Z;            (* mcp3008.readChannel(0).raw *)
  adc_channel1 : option Z;            (* mcp3008.readChannel(1).raw *)
  mq6_read : option SensorReading;    (* components.mq6.read() *)
  mq2_read : option SensorReading     (* components.mq2.read() *)
}.

Inductive Effect :=
  | EmitSensorData
  | HandleAlertLevelChange (newLevel previousLevel : AlertLevel) (p : Q)
  | LogReadError (k : SensorKind)
  | LogTickError.

(** [let d = { raw: 0, ppm: 0 }; try { d = await read(); this.sensorData.x = ... }
    catch { if (!this.sensorData.x) this.sensorData.x = zeros }]:
    returns the local [d] and the new stored entry. *)
Definition readChannelGuarded (t : Z) (stored : option StoredReading)
    (r : option SensorReading) : SensorReading * option StoredReading :=
  match r with
  | Some d => (d, Some (mkStored (raw d) (ppm d) (Some t)))
  | None =>
      (mkReading 0 0,
       match stored with
       | Some old => Some old
       | None => Some (mkStored 0 0 (Some t))
       end)
  end.

Definition readSensorData (s : State) (i : TickInput) : State * list Effect :=
  if negb (isInitialized s) then (s, [])
  else if negb (mq6_preheated i) || negb (mq2_preheated i) then
    match adc_channel0 i, adc_channel1 i with
    | Some r6, Some r2 =>
        (mkState (isInitialized s)
           (Some (mkStored r6 0 (Some (now i))))
           (Some (mkStored r2 0 (Some (now i))))
           (sensorData_fused s) normal (alertLevels s) (Some (now i)),
         [EmitSensorData])
    | _, _ => (s, [LogTickError])
    end
  else
    let '(mq6Data, stored6) := readChannelGuarded (now i) (sensorData_mq6 s) (mq6_read i) in
    let '(mq2Data, stored2) := readChannelGuarded (now i) (sensorData_mq2 s) (mq2_read i) in
    let fusedData := evaluateSensorData (now i) mq6Data mq2Data in
    let newAlertLevel := determineSmartAlertLevel (alertLevels s) fusedData in
    let changed := negb (AlertLevel_eqb newAlertLevel (currentAlertLevel s)) in
    (mkState (isInitialized s) stored6 stored2 (Some fusedData)
       (if changed then newAlertLevel else currentAlertLevel s)
       (alertLevels s) (Some (now i)),
     (match mq6_read i with Some _ => [] | None => [LogReadError mq6] end) ++
     (match mq2_read i with Some _ => [] | None => [LogReadError mq2] end) ++
     (if changed
      then [HandleAlertLevelChange newAlertLevel (currentAlertLevel s) (maxPpm fusedData)]
      else []) ++
     [EmitSensorData]).

(** The reading the specification says stands in for a failed read: the
    channel's previous valid reading, or zero before one exists.  This
    definition follows the specification's words, for comparison with
    [readChannelGuarded]. *)
Definition spec_substituted_reading (stored : option StoredReading) : SensorReading :=
  match stored with
  | Some old =>
      match s_timestamp old with
      | Some _ => mkReading (s_raw old) (s_ppm old)
      | None => mkReading 0 0
      end
  | None => mkReading 0 0
  end.

End HardwareManager.

(* ===================================================================== *)
(** ** GasSensor: the calibration curve *)
(* ===================================================================== *)

Module GasSensor.

Local Open Scope R_scope.

(** [this.type]: ['MQ2'] or ['MQ6']. *)
Inductive SensorType := MQ2 | MQ6.

(** [getSensorParams(type)]: the two tables agree on every numeric field;
    [sensitivity] is the only one the conversion reads. *)
Record SensorParams := mkParams {
  sensitivity : R;
  responseTime : Z;
  recoveryTime : Z;
  operatingVoltage : R;
  heatingResistance : Z;
  loadResistance : Z
}.

Definition getSensorParams (t : SensorType) : SensorParams :=
  match t with
  | MQ2 => mkParams 0.3 5 30 5.0 44 5
  | MQ6 => mkParams 0.3 5 30 5.0 44 5
  end.

Record Sensor := mkSensor {
  type : SensorType;
  channel : Z;
  isInitialized : bool;
  calibration_ro : R;              (* this.calibration.ro, 5000 from the constructor *)
  preheatTime : Z;                 (* 60000 *)
  preheatStartTime : Z;
  isPreheated : bool
}.

Definition sensorParams (s : Sensor) : SensorParams := getSensorParams (type s).

(** [calculateResistance(voltage)]; note that the source takes
    [this.calibration.ro] for the load resistance. *)
Definition calculateResistance (s : Sensor) (voltage : R) : R :=
  let vc := 5.0 in
  let rl := calibration_ro s in
  if Rle_dec voltage 0.01 then 1000000
  else if Rle_dec 4.9 voltage then 100
  else
    let resistance := ((vc - voltage) * rl) / voltage in
    Rmax 100 (Rmin 1000000 resistance).

(** The curve constants of the two branches of [calculatePPM]. *)
Definition curve_a (t : SensorType) : R :=
  match t with MQ6 => 1000 | MQ2 => 800 end.
Definition curve_b (t : SensorType) : R :=
  match t with MQ6 => 2.5 | MQ2 => 2.2 end.

(** [calculatePPM(resistance)].  [Math.pow(ratio, b)] is only reached with
    [ratio > 0], where it is the real power [Rpower ratio b]. *)
Definition calculatePPM (s : Sensor) (resistance : R) : R :=
  if Rle_dec resistance 0 then 0
  else if Rle_dec 1000000 resistance then 0
  else
    let ratio := resistance / calibration_ro s in
    if Rle_dec ratio 0 then 0
    else
      let ppm :=
        match type s with
        | MQ6 => let a := 1000 in let b := 2.5 in a / Rpower ratio b
        | MQ2 => let a := 800 in let b := 2.2 in a / Rpower ratio b
        end in
      Rmax 0 (Rmin 10000 ppm).

Definition applySensorCorrections (s : Sensor) (ppm : R) : R :=
  let corrected := ppm * sensitivity (sensorParams s) in
  let tempCompensation := 1.0 in
  corrected * tempCompensation.

Record Reading := mkReading {
  raw : Z;
  voltage : R;
  resistance : R;
  ppm : R;
  timestamp : Z;
  sensor : SensorType;
  preheated : bool
}.

Inductive ReadError :=
  | NotInitialized
  | StillPreheating (remainingSeconds : Z)
  | FailedToRead.

(** [read()]: [adc] is the outcome of [this.adc.readChannel(this.channel)],
    [None] when it throws. *)
Definition read (s : Sensor) (now : Z) (adc : option (Z * R)) : ReadError + Reading :=
  if negb (isInitialized s) then inl NotInitialized
  else if negb (isPreheated s) then
    let elapsed := (now - preheatStartTime s)%Z in
    let remaining := Z.max 0 (preheatTime s - elapsed) in
    inl (StillPreheating ((remaining + 999) / 1000)%Z)
  else
    match adc with
    | None => inl FailedToRead
    | Some (rawValue, voltage) =>
        let resistance := calculateResistance s voltage in
        let ppm := calculatePPM s resistance in
        let correctedPpm := applySensorCorrections s ppm in
        inr (mkReading rawValue voltage resistance (Rmax 0 correctedPpm)
               now (type s) (isPreheated s))
    end.

(** The concentration the specification describes: the curve value
    [a / (R / Ro)^b], scaled by the sensitivity factor and then clamped to
    [0, 10000].  Written from the specification's words, for comparison
    with [read]. *)
Definition spec_curve (s : Sensor) (resistance : R) : R :=
  curve_a (type s) / Rpower (resistance / calibration_ro s) (curve_b (type s)).

Definition spec_reported (s : Sensor) (resistance : R) : R :=
  Rmax 0 (Rmin 10000 (spec_curve s resistance * sensitivity (sensorParams s))).

(** *** Calibration *)

Inductive CalibrationError :=
  | CalNotInitialized
  | CalNotPreheated
  | CalNotReady
  | CalReadFailed (e : ReadError).

Definition set_ro (ro : R) (s : Sensor) : Sensor :=
  mkSensor (type s) (channel s) (isInitialized s) ro (preheatTime s)
    (preheatStartTime s) (isPreheated s).

(** [calibrate(cleanAirResistance)]: the sensor with its new baseline.
    The value is taken as given; [lastCalibrated] is only reported. *)
Definition calibrate (cleanAirResistance : R) (s : Sensor) : CalibrationError + Sensor :=
  if negb (isInitialized s) then inl CalNotInitialized
  else if negb (isPreheated s) then inl CalNotPreheated
  else inr (set_ro cleanAirResistance s).

(** The loop of [autoCalibrate()]: [count] reads one second apart, sample
    [k] of the converter being [adc k]; a read that throws ends it. *)
Fixpoint takeReadings (s : Sensor) (now : Z) (adc : nat -> option (Z * R))
    (k count : nat) : ReadError + list R :=
  match count with
  | O => inr nil
  | S n =>
      match read s now (adc k) with
      | inl e => inl e
      | inr reading =>
          match takeReadings s (now + 1000)%Z adc (S k) n with
          | inl e => inl e
          | inr readings => inr (resistance reading :: readings)
          end
      end
  end.

Definition sumReadings (readings : list R) : R := fold_left Rplus readings 0.

(** [autoCalibrate()]: the sensor with its new baseline, the readings and
    their average. *)
Definition autoCalibrate (s : Sensor) (now : Z) (adc : nat -> option (Z * R))
    : CalibrationError + (Sensor * list R * R) :=
  if negb (isInitialized s) || negb (isPreheated s) then inl CalNotReady
  else
    let numReadings := 10%nat in
    match takeReadings s now adc 0 numReadings with
    | inl e => inl (CalReadFailed e)
    | inr readings =>
        let avgResistance := sumReadings readings / INR (length readings) in
        match calibrate avgResistance s with
        | inl e => inl e
        | inr s' => inr (s', readings, avgResistance)
        end
    end.

End GasSensor.

(* ===================================================================== *)
(** ** MCP3008: the analog-to-digital converter *)
(* ===================================================================== *)

Module MCP3008.

Local Open Scope Z_scope.

Definition channels : Z := 8.
Definition resolution : Z := 1024.
Definition referenceVoltage : Q := 33 # 10.

Record Device := mkDevice {
  isInitialized : bool;
  hasSpiDevice : bool        (* [this.spiDevice] is set, on Linux *)
}.

Record Reading := mkReading {
  raw : Z;
  voltage : Q;
  percentage : Q
}.

Inductive Error :=
  | NotInitialized
  | InvalidChannel (channel : Z)
  | FailedToRead (channel : Z).

(** The first byte [spiRead] sends: the start bit and the channel in the
    high nibble. *)
Definition commandByte (channel : Z) : Z :=
  let command := 1 in
  let channelBits := Z.land (Z.shiftl channel 4) 240 in
  Z.lor command channelBits.

(** The value [spiRead] assembles from the second and third byte it
    receives. *)
Definition rawValue (byte1 byte2 : Z) : Z :=
  Z.lor (Z.shiftl (Z.land byte1 3) 8) byte2.

Definition toReading (rawValue : Z) : Reading :=
  mkReading rawValue
    (inject_Z rawValue / inject_Z resolution * referenceVoltage)%Q
    (inject_Z rawValue / inject_Z resolution * 100)%Q.

(** [readChannel(channel)].  [transfer] is the SPI exchange: given the
    bytes sent it answers the three bytes received, or fails; [random] is
    the [Math.random()] of the mock branch. *)
Definition readChannel (d : Device) (channel : Z)
    (transfer : list Z -> option (Z * Z * Z)) (random : Q) : Error + Reading :=
  if negb (isInitialized d) then inl NotInitialized
  else if (channel <? 0) || (channels <=? channel) then inl (InvalidChannel channel)
  else if negb (hasSpiDevice d) then
    inr (toReading (Qfloor (random * 50)%Q + 100))
  else
    match transfer [commandByte channel; 0; 0] with
    | Some (_, byte1, byte2) => inr (toReading (rawValue byte1 byte2))
    | None => inl (FailedToRead channel)
    end.

End MCP3008.

(* ===================================================================== *)
(** ** GPIOQueue: the per-pin serialized write queue *)
(* ===================================================================== *)

(** [processQueue(pin)] is an [async] function: it runs until it reaches an
    [await], and is resumed by the event loop when the awaited timer fires
    or the awaited write settles.  The model keeps, next to the three maps
    of the class, the suspended continuation of each pin's worker, the
    clock, and a per-pin trace of what happened.  A step of the event loop
    is a caller invoking [enqueue], a timer firing, a write settling, or
    time passing.  [clearAll()] is only called at shutdown and is left
    out. *)

Module GPIOQueue.

Local Open Scope Z_scope.

Record Operation := mkOp {
  op_id : nat;            (* identity of the operation object / its promise *)
  pin : Z;
  value : Z;
  timeout : Z;
  retries : nat;
  maxRetries : nat
}.

(** Where a suspended [processQueue(pin)] resumes. *)
Inductive Worker :=
  | AwaitDelay (until : Z)      (* the minimum-delay [setTimeout] *)
  | AwaitExec (started : Z)     (* [await this.executeOperation(operation)] *)
  | AwaitBackoff (until : Z).   (* the retry [setTimeout(resolve, 100)] *)

Inductive Event :=
  | Enqueued (id : nat) (t : Z)
  | WriteStart (id : nat) (t : Z)
  | WriteEnd (id : nat) (t : Z) (ok : bool)
  | Resolved (id : nat) (t : Z)
  | Rejected (id : nat) (t : Z).

Record State := mkState {
  queues : gmap Z (list Operation);
  processing : gmap Z bool;
  lastOperation : gmap Z Z;
  workers : gmap Z Worker;
  clock : Z;                        (* Date.now() *)
  nextId : nat;
  trace : gmap Z (list Event)       (* per pin, most recent event first *)
}.

Definition minDelay : Z := 100.

Definition init (t0 : Z) : State := mkState ∅ ∅ ∅ ∅ t0 0 ∅.

(** [this.queues.get(pin)], an absent queue read as empty. *)
Definition queueOf (st : State) (p : Z) : list Operation := default [] (queues st !! p).
(** [this.processing.get(pin)] as a truth value. *)
Definition isProcessing (st : State) (p : Z) : bool := default false (processing st !! p).
(** [this.lastOperation.get(pin) || 0]. *)
Definition lastOp (st : State) (p : Z) : Z := default 0 (lastOperation st !! p).
Definition traceOf (st : State) (p : Z) : list Event := default [] (trace st !! p).
(** The suspended worker of a pin, if one is running. *)
Definition workerOf (st : State) (p : Z) : option Worker := workers st !! p.

Definition set_queue (p : Z) (q : list Operation) (st : State) : State :=
  mkState (<[p := q]> (queues st)) (processing st) (lastOperation st)
    (workers st) (clock st) (nextId st) (trace st).
Definition set_processing (p : Z) (b : bool) (st : State) : State :=
  mkState (queues st) (<[p := b]> (processing st)) (lastOperation st)
    (workers st) (clock st) (nextId st) (trace st).
Definition set_lastOperation (p : Z) (t : Z) (st : State) : State :=
  mkState (queues st) (processing st) (<[p := t]> (lastOperation st))
    (workers st) (clock st) (nextId st) (trace st).
Definition set_worker (p : Z) (w : option Worker) (st : State) : State :=
  mkState (queues st) (processing st) (lastOperation st)
    (match w with Some k => <[p := k]> (workers st) | None => delete p (workers st) end)
    (clock st) (nextId st) (trace st).
Definition emit (p : Z) (e : Event) (st : State) : State :=
  mkState (queues st) (processing st) (lastOperation st)
    (workers st) (clock st) (nextId st) (<[p := e :: traceOf st p]> (trace st)).

Definition fresh_id (st : State) : State :=
  mkState (queues st) (processing st) (lastOperation st)
    (workers st) (clock st) (S (nextId st)) (trace st).
Definition advance (dt : Z) (st : State) : State :=
  mkState (queues st) (processing st) (lastOperation st)
    (workers st) (clock st + dt) (nextId st) (trace st).

(** The call [this.executeOperation(operation)]: the write begins now and
    the worker is suspended until it settles. *)
Definition startExec (p : Z) (op : Operation) (st : State) : State :=
  set_worker p (Some (AwaitExec (clock st)))
    (emit p (WriteStart (op_id op) (clock st)) st).

(** The [while] test and the body up to its first [await]. *)
Definition loopHead (p : Z) (st : State) : State :=
  match queueOf st p with
  | [] => set_worker p None (set_processing p false st)
  | operation :: _ =>
      let timeSinceLast := clock st - lastOp st p in
      if timeSinceLast <? minDelay
      then set_worker p (Some (AwaitDelay (clock st + (minDelay - timeSinceLast)))) st
      else startExec p operation st
  end.

Definition processQueue (p : Z) (st : State) : State :=
  loopHead p (set_processing p true st).

Definition enqueue (p v tmo : Z) (st : State) : State :=
  let operation := mkOp (nextId st) p v tmo 0 2 in
  let st1 := set_queue p (queueOf st p ++ [operation]) (fresh_id st) in
  let st2 := emit p (Enqueued (op_id operation) (clock st)) st1 in
  if negb (isProcessing st2 p) then processQueue p st2 else st2.

(** A timer of the worker fires: not before the time it was set for. *)
Definition onTimer (p : Z) (st : State) : option State :=
  match workerOf st p with
  | Some (AwaitDelay until) =>
      if until <=? clock st then
        match queueOf st p with
        | operation :: _ => Some (startExec p operation st)
        | [] => None
        end
      else None
  | Some (AwaitBackoff until) =>
      if until <=? clock st then Some (loopHead p st) else None
  | _ => None
  end.

(** The write in flight settles: [ok = true] is the [try] path, [false]
    the [catch] path. *)
Definition onExecDone (p : Z) (ok : bool) (st : State) : option State :=
  match workerOf st p, queueOf st p with
  | Some (AwaitExec _), operation :: rest =>
      let st := emit p (WriteEnd (op_id operation) (clock st) ok) st in
      if ok then
        let st := set_lastOperation p (clock st) st in
        let st := emit p (Resolved (op_id operation) (clock st)) st in
        let st := set_queue p rest st in
        Some (loopHead p st)
      else
        let operation' :=
          mkOp (op_id operation) (pin operation) (value operation)
            (timeout operation) (S (retries operation)) (maxRetries operation) in
        if (retries operation' <? maxRetries operation')%nat then
          Some (set_worker p (Some (AwaitBackoff (clock st + 100)))
                  (set_queue p (operation' :: rest) st))
        else
          let st := emit p (Rejected (op_id operation) (clock st)) st in
          let st := set_queue p rest st in
          Some (loopHead p st)
  | _, _ => None
  end.

Inductive Label :=
  | LEnqueue (p v tmo : Z)
  | LTimer (p : Z)
  | LExecDone (p : Z) (ok : bool)
  | LTick (dt : Z).

Definition step (st : State) (l : Label) : option State :=
  match l with
  | LEnqueue p v tmo => Some (enqueue p v tmo st)
  | LTimer p => onTimer p st
  | LExecDone p ok => onExecDone p ok st
  | LTick dt =>
      if 0 <=? dt then Some (advance dt st) else None
  end.

Fixpoint run (st : State) (ls : list Label) : option State :=
  match ls with
  | [] => Some st
  | l :: ls' =>
      match step st l with
      | Some st' => run st' ls'
      | None => None
      end
  end.

(** *** Reading the trace of a pin (most recent event first) *)

(** Operations in submission order, and in the order their promise settled. *)
Fixpoint enqueued (tr : list Event) : list nat :=
  match tr with
  | [] => []
  | Enqueued id _ :: older => enqueued older ++ [id]
  | _ :: older => enqueued older
  end.

Fixpoint settled (tr : list Event) : list nat :=
  match tr with
  | [] => []
  | Resolved id _ :: older => settled older ++ [id]
  | Rejected id _ :: older => settled older ++ [id]
  | _ :: older => settled older
  end.

Fixpoint starts (tr : list Event) : nat :=
  match tr with
  | [] => 0
  | WriteStart _ _ :: older => S (starts older)
  | _ :: older => starts older
  end.

Fixpoint ends (tr : list Event) : nat :=
  match tr with
  | [] => 0
  | WriteEnd _ _ _ :: older => S (ends older)
  | _ :: older => ends older
  end.

(** How many times the write of operation [id] was attempted. *)
Fixpoint attempts (id : nat) (tr : list Event) : nat :=
  match tr with
  | [] => 0
  | WriteStart i _ :: older => (if Nat.eqb i id then 1 else 0) + attempts id older
  | _ :: older => attempts id older
  end.

(** A write begins only when none is in flight, and ends only when one is. *)
Fixpoint alternates (tr : list Event) : Prop :=
  match tr with
  | [] => True
  | WriteStart _ _ :: older => starts older = ends older /\ alternates older
  | WriteEnd _ _ _ :: older => starts older = S (ends older) /\ alternates older
  | _ :: older => alternates older
  end.

(** Every write begins at least [minDelay] after the end of every earlier
    successful write. *)
Fixpoint spaced (tr : list Event) : Prop :=
  match tr with
  | [] => True
  | WriteStart _ t :: older =>
      (forall id' t', In (WriteEnd id' t' true) older -> t' + minDelay <= t) /\
      spaced older
  | _ :: older => spaced older
  end.

(** Every write is for the oldest operation not yet settled. *)
Fixpoint oldest_first (tr : list Event) : Prop :=
  match tr with
  | [] => True
  | WriteStart id _ :: older =>
      (exists later, enqueued older = settled older ++ id :: later) /\
      oldest_first older
  | _ :: older => oldest_first older
  end.

(** Promises settle in submission order. *)
Definition fifo (tr : list Event) : Prop :=
  exists pending, enqueued tr = settled tr ++ pending.

(** *** The invariant of a pin

    [Core k] collects what holds of a pin whatever its worker is doing,
    with [k] the number of writes in flight (0 or 1). *)

Record Core (k : nat) (p : Z) (st : State) : Prop := mkCore {
  c_fifo : enqueued (traceOf st p) = settled (traceOf st p) ++ map op_id (queueOf st p);
  c_ids : Forall (fun id => (id < nextId st)%nat) (enqueued (traceOf st p));
  c_nodup : NoDup (enqueued (traceOf st p));
  c_flight : starts (traceOf st p) = (ends (traceOf st p) + k)%nat;
  c_empty : queueOf st p = [] -> k = 0%nat;
  c_alt : alternates (traceOf st p);
  c_spaced : spaced (traceOf st p);
  c_last : forall id t, In (WriteEnd id t true) (traceOf st p) -> t <= lastOp st p;
  c_time : forall id t ok, In (WriteEnd id t ok) (traceOf st p) -> t <= clock st;
  c_oldest : oldest_first (traceOf st p);
  c_budget : Forall (fun op => maxRetries op = 2%nat) (queueOf st p);
  c_head : forall op rest, queueOf st p = op :: rest ->
           attempts (op_id op) (traceOf st p) = (retries op + k)%nat /\
           (retries op < 2)%nat;
  c_tail : forall op rest, queueOf st p = op :: rest ->
           Forall (fun o => retries o = 0%nat /\
                            attempts (op_id o) (traceOf st p) = 0%nat) rest;
  c_rejected : forall id t, In (Rejected id t) (traceOf st p) ->
               attempts id (traceOf st p) = 2%nat;
  c_started : forall id, attempts id (traceOf st p) <> 0%nat ->
              In id (enqueued (traceOf st p))
}.

Definition in_flight (w : option Worker) : nat :=
  match w with Some (AwaitExec _) => 1 | _ => 0 end.

(** What the worker's continuation adds. *)
Definition Sched (p : Z) (st : State) : Prop :=
  match workerOf st p with
  | None => isProcessing st p = false /\ queueOf st p = []
  | Some w =>
      isProcessing st p = true /\ queueOf st p <> [] /\
      match w with
      | AwaitDelay until => lastOp st p + minDelay <= until
      | _ => True
      end
  end.

Definition Inv (p : Z) (st : State) : Prop :=
  Core (in_flight (workerOf st p)) p st /\ Sched p st.

(** A step elsewhere leaves what is read of pin [p] as it was; time and
    the identifier counter only grow. *)
Definition same_at (p : Z) (st st' : State) : Prop :=
  queueOf st' p = queueOf st p /\ lastOp st' p = lastOp st p /\
  traceOf st' p = traceOf st p /\ workerOf st' p = workerOf st p /\
  isProcessing st' p = isProcessing st p /\
  clock st <= clock st' /\ (nextId st <= nextId st')%nat.

End GPIOQueue.

(* ===================================================================== *)
(** ** AlertManager: the persistence timer and the SMS cooldown *)
(* ===================================================================== *)

(** [updateAlertLevel] has no [await]: it runs to completion when the
    control loop calls it.  [triggerSMSAlert] runs when the persistence
    timer fires; it checks its gate at once and then awaits its
    collaborators one after the other (the settings, the contacts, the
    SMS gateway, the alert table).  Between two of these awaits the event
    loop runs whatever else is due, so the level can change while an
    invocation is suspended, and the invocation writes [smsTriggered] and
    [lastSMSTime] on the detection state that is current when the gateway
    answers.  The model keeps the suspended invocations in the state and
    resumes them one await at a time. *)

Module AlertManager.

Import HardwareManager.
Local Open Scope Z_scope.

Record DetectionState := mkDetection {
  level : AlertLevel;
  startTime : option Z;
  duration : Z;
  smsTriggered : bool;
  lastSMSTime : option Z;
  detectionCount : Z
}.

(** The part of [sensorData] that [triggerSMSAlert] reads for the location. *)
Record SensorData := mkSensorData {
  gps_latitude : option Q;
  gps_longitude : option Q;
  lastKnown_latitude : option Q;
  lastKnown_longitude : option Q;
  locationAge : option string
}.

(** The handle in [this.persistenceTimer].  It stays in the field after
    the timer has fired; [pending] tells whether the callback is still to
    run. *)
Record Timer := mkTimer {
  fireAt : Z;
  timerLevel : AlertLevel;
  timerData : SensorData;
  pending : bool
}.

Record Settings := mkSettings {
  full_name : option string;
  phone : option string;
  address : option string;
  landmark : option string
}.

Inductive ContactType := profile | internal | external.
Record Contact := mkContact {
  contact_id : Z;
  contact_type : ContactType;
  contact_name : string;
  contact_phone : string
}.

(** Where a running [triggerSMSAlert] is suspended, with the locals it
    still needs: the settings once they are read, the internal contacts
    while the external ones are awaited, the contacts handed to the
    gateway. *)
Inductive Stage :=
  | AwaitSettings                                     (* Settings.getByUserId *)
  | AwaitInternalContacts (cfg : option Settings)     (* Contact.getInternalContacts *)
  | AwaitExternalContacts (cfg : option Settings) (ic : list Contact)
                                                      (* Contact.getExternalContacts *)
  | AwaitSend (cs : list Contact)                     (* textbeeService.sendGasLeakAlert *)
  | AwaitRecentAlert                                  (* Alert.getMostRecentByType *)
  | AwaitMarkSmsSent.                                 (* Alert.markSmsSent *)

(** A suspended invocation: its two arguments and where it waits. *)
Record Invocation := mkInvocation {
  inv_level : AlertLevel;
  inv_data : SensorData;
  inv_stage : Stage
}.

Record State := mkState {
  detectionState : DetectionState;
  persistenceTimer : option Timer;
  inFlight : list Invocation
}.

Definition SMS_TRIGGER_DELAY : Z := 5000.
Definition SMS_COOLDOWN : Z := 300000.

Definition initialState : State :=
  mkState (mkDetection normal None 0 false None 0) None [].

(** What [textbeeService.isConfigured()] answers when the timer fires. *)
Record Env := mkEnv {
  isConfigured : bool
}.

(** What an awaited call answers when the invocation is resumed. *)
Inductive Answer :=
  | Threw                                      (* the promise was rejected *)
  | GotSettings (cfg : option Settings)        (* the row, or [null] *)
  | GotContacts (cs : option (list Contact))   (* the rows, or [null] *)
  | Sent                                       (* the gateway's result *)
  | GotRecentAlert (a : option (Z * bool))     (* id and [sms_sent], or [null] *)
  | Marked.

Inductive Location :=
  | LocGps (lat lng : Q)
  | LocLastKnown (lat lng : Q) (age : option string)
  | LocAddress (addr : string) (mark : option string)
  | LocUnknown.

(** What the component asks of the outside: the message handed to the
    gateway, and the alert row marked as notified. *)
Inductive Effect :=
  | Dispatch (contacts : list Contact) (lv : AlertLevel) (loc : Location)
  | MarkSmsSent (alertId : Z).

(** JavaScript truthiness of a number that may be [null], and of a string
    that may be [null]. *)
Definition truthyQ (o : option Q) : option Q :=
  match o with
  | Some q => if Qeq_bool q 0 then None else Some q
  | None => None
  end.
Definition truthyZ (o : option Z) : option Z :=
  match o with
  | Some z => if z =? 0 then None else Some z
  | None => None
  end.
Definition truthyS (o : option string) : option string :=
  match o with
  | Some s => if String.eqb s "" then None else Some s
  | None => None
  end.

(** [clearPersistenceTimer()] *)
Definition clearPersistenceTimer (s : State) : State :=
  match persistenceTimer s with
  | Some _ => mkState (detectionState s) None (inFlight s)
  | None => s
  end.

(** [startPersistenceTimer(level, sensorData)] *)
Definition startPersistenceTimer (now : Z) (lv : AlertLevel) (d : SensorData)
    (s : State) : State :=
  let s := clearPersistenceTimer s in
  mkState (detectionState s) (Some (mkTimer (now + SMS_TRIGGER_DELAY) lv d true))
    (inFlight s).

(** [resetDetectionState()] *)
Definition resetDetectionState (s : State) : State :=
  let s := clearPersistenceTimer s in
  mkState
    (mkDetection normal None 0 false (lastSMSTime (detectionState s)) 0)
    (persistenceTimer s) (inFlight s).

(** [updateAlertLevel(newLevel, sensorData)] *)
Definition updateAlertLevel (now : Z) (newLevel : AlertLevel) (d : SensorData)
    (s : State) : State :=
  let previousLevel := level (detectionState s) in
  if negb (AlertLevel_eqb newLevel previousLevel) then
    let s := clearPersistenceTimer s in
    if AlertLevel_eqb newLevel normal then resetDetectionState s
    else
      let s :=
        mkState
          (mkDetection newLevel (Some now) 0 false
             (lastSMSTime (detectionState s)) 1)
          (persistenceTimer s) (inFlight s) in
      startPersistenceTimer now newLevel d s
  else if negb (AlertLevel_eqb newLevel normal) then
    let ds := detectionState s in
    mkState
      (mkDetection (level ds) (startTime ds)
         (now - default 0 (startTime ds)) (smsTriggered ds)
         (lastSMSTime ds) (detectionCount ds + 1))
      (persistenceTimer s) (inFlight s)
  else s.

(** The location of the payload: live fix, else last known fix, else the
    configured address. *)
Definition chooseLocation (d : SensorData) (st : option Settings) : Location :=
  match truthyQ (gps_latitude d), truthyQ (gps_longitude d) with
  | Some lat, Some lng => LocGps lat lng
  | _, _ =>
      match truthyQ (lastKnown_latitude d), truthyQ (lastKnown_longitude d) with
      | Some lat, Some lng => LocLastKnown lat lng (truthyS (locationAge d))
      | _, _ =>
          match st with
          | Some cfg =>
              match truthyS (address cfg) with
              | Some a => LocAddress a (truthyS (landmark cfg))
              | None => LocUnknown
              end
          | None => LocUnknown
          end
      end
  end.

(** The profile contact that is put in front when a phone is set. *)
Definition profileContact (st : option Settings) : list Contact :=
  match st with
  | Some cfg =>
      match truthyS (phone cfg) with
      | Some ph =>
          [mkContact 0 profile
             (default "Profile Contact"%string (truthyS (full_name cfg))) ph]
      | None => []
      end
  | None => []
  end.

(** [triggerSMSAlert(level, sensorData)] up to its first [await]: the
    three early exits (already triggered, cooldown, gateway not
    configured), or the invocation suspended on the settings. *)
Definition triggerSMSAlert (now : Z) (lv : AlertLevel) (d : SensorData)
    (env : Env) (s : State) : State :=
  let ds := detectionState s in
  if smsTriggered ds then s
  else
    let inCooldown :=
      match truthyZ (lastSMSTime ds) with
      | Some last => now - last <? SMS_COOLDOWN
      | None => false
      end in
    if inCooldown then s
    else if negb (isConfigured env) then s
    else
      mkState (detectionState s) (persistenceTimer s)
        (inFlight s ++ [mkInvocation lv d AwaitSettings]).

(** The invocation at index [k] returns. *)
Definition finish (k : nat) (s : State) : State :=
  mkState (detectionState s) (persistenceTimer s) (delete k (inFlight s)).

(** The invocation at index [k] is suspended again, at [st]. *)
Definition suspend (k : nat) (inv : Invocation) (st : Stage) (s : State) : State :=
  mkState (detectionState s) (persistenceTimer s)
    (<[k := mkInvocation (inv_level inv) (inv_data inv) st]> (inFlight s)).

(** Once the contacts are known: return if there are none, else hand the
    message to the gateway and wait for its answer. *)
Definition contactsReady (k : nat) (inv : Invocation) (cfg : option Settings)
    (cs : list Contact) (s : State) : State * list Effect :=
  match cs with
  | [] => (finish k s, [])
  | _ :: _ =>
      (suspend k inv (AwaitSend cs) s,
       [Dispatch cs (inv_level inv) (chooseLocation (inv_data inv) cfg)])
  end.

(** [triggerSMSAlert] from one [await] to the next.  A rejected promise
    ends the invocation: the method catches and logs it.  When the
    gateway has answered, [smsTriggered] and [lastSMSTime] are written on
    [this.detectionState] as it is then. *)
Definition resume (now : Z) (k : nat) (inv : Invocation) (ans : Answer) (s : State)
    : option (State * list Effect) :=
  match inv_stage inv, ans with
  | _, Threw => Some (finish k s, [])
  | AwaitSettings, GotSettings cfg =>
      match inv_level inv with
      | normal => Some (finish k s, [])
      | low | critical => Some (suspend k inv (AwaitInternalContacts cfg) s, [])
      end
  | AwaitInternalContacts cfg, GotContacts ic =>
      match inv_level inv with
      | low => Some (contactsReady k inv cfg (profileContact cfg ++ default [] ic) s)
      | critical => Some (suspend k inv (AwaitExternalContacts cfg (default [] ic)) s, [])
      | normal => None
      end
  | AwaitExternalContacts cfg ic, GotContacts ec =>
      Some (contactsReady k inv cfg (profileContact cfg ++ ic ++ default [] ec) s)
  | AwaitSend _, Sent =>
      let ds := detectionState s in
      Some (suspend k inv AwaitRecentAlert
              (mkState
                 (mkDetection (level ds) (startTime ds) (duration ds) true
                    (Some now) (detectionCount ds))
                 (persistenceTimer s) (inFlight s)),
            [])
  | AwaitRecentAlert, GotRecentAlert a =>
      match a with
      | Some (alertId, false) => Some (suspend k inv AwaitMarkSmsSent s, [MarkSmsSent alertId])
      | _ => Some (finish k s, [])
      end
  | AwaitMarkSmsSent, Marked => Some (finish k s, [])
  | _, _ => None
  end.

(** The events of the component: the control loop reports a level, the
    persistence timer fires, or the call a suspended invocation awaits
    settles. *)
Inductive Event :=
  | UpdateAlertLevel (now : Z) (newLevel : AlertLevel) (d : SensorData)
  | TimerFires (now : Z) (env : Env)
  | Resumes (k : nat) (now : Z) (ans : Answer).

Definition step (s : State) (e : Event) : option (State * list Effect) :=
  match e with
  | UpdateAlertLevel now lv d => Some (updateAlertLevel now lv d s, [])
  | TimerFires now env =>
      match persistenceTimer s with
      | Some tm =>
          if pending tm && (fireAt tm <=? now) then
            let fired :=
              mkState (detectionState s)
                (Some (mkTimer (fireAt tm) (timerLevel tm) (timerData tm) false))
                (inFlight s) in
            Some (triggerSMSAlert now (timerLevel tm) (timerData tm) env fired, [])
          else None
      | None => None
      end
  | Resumes k now ans =>
      match inFlight s !! k with
      | Some inv => resume now k inv ans s
      | None => None
      end
  end.

Fixpoint run (s : State) (es : list Event) : option (State * list Effect) :=
  match es with
  | [] => Some (s, [])
  | e :: es' =>
      match step s e with
      | Some (s', out) =>
          match run s' es' with
          | Some (s'', out') => Some (s'', out ++ out')
          | None => None
          end
      | None => None
      end
  end.

(** A timer whose callback is still to run. *)
Definition timerPending (s : State) : bool :=
  match persistenceTimer s with
  | Some tm => pending tm
  | None => false
  end.

(** The level changes only while no invocation is suspended: along [es]
    from [s], every [updateAlertLevel] that reports a level other than
    the one held finds [inFlight] empty. *)
Definition levelChangeIsCalm (s : State) (e : Event) : Prop :=
  match e with
  | UpdateAlertLevel _ lv _ => lv <> level (detectionState s) -> inFlight s = []
  | TimerFires _ _ | Resumes _ _ _ => True
  end.

Fixpoint calm (s : State) (es : list Event) : Prop :=
  match es with
  | [] => True
  | e :: es' =>
      levelChangeIsCalm s e /\
      match step s e with
      | Some (s', _) => calm s' es'
      | None => True
      end
  end.

(** While the timer of an episode is pending, no SMS is recorded for the
    episode and no invocation is suspended. *)
Definition untouched (s : State) : Prop :=
  timerPending s = true ->
  smsTriggered (detectionState s) = false /\ inFlight s = [].




(** What holds of a persistence timer that is still to fire: it belongs
    to the episode in progress. *)
Definition timer_of_episode (s : State) : Prop :=
  forall tm, persistenceTimer s = Some tm -> pending tm = true ->
    level (detectionState s) <> normal /\
    timerLevel tm = level (detectionState s) /\
    startTime (detectionState s) = Some (fireAt tm - SMS_TRIGGER_DELAY).

(** Sample inputs for the examples: no position known, a configured
    gateway, a profile with a phone number and no further contacts. *)
Definition sampleData : SensorData := mkSensorData None None None None None.
Definition sampleEnv : Env := mkEnv true.
Definition sampleSettings : option Settings :=
  Some (mkSettings (Some "Ana"%string) (Some "+15550100"%string) None None).


End AlertManager.

(* ===================================================================== *)
(** ** GPSAsync: decoding, the good-fix gate, reconnection, persistence *)
(* ===================================================================== *)

Module GPSAsync.

Local Open Scope Z_scope.

(** A JavaScript number that may be [NaN]. *)
Inductive jsnum := Num (q : Q) | NaN.

(** The two library functions the decoder calls on text.  [None] is
    [NaN].  Their exact behaviour is not part of this repository; the
    properties below hold for any. *)
Record Builtins := mkBuiltins {
  parseInt : string -> option Z;
  parseFloat : string -> option Q
}.

Inductive SignalStrength := sig_none | sig_poor | sig_fair | sig_good | sig_excellent.

(** [this.currentData] *)
Record CurrentData := mkData {
  latitude : option jsnum;
  longitude : option jsnum;
  altitude : option Q;
  speed : option Q;
  course : option Q;
  timestamp : option Z;
  accuracy : option Z;          (* the result of [Math.round] *)
  hdop : option Q;
  satellites : Z;
  fix_flag : bool;             (* [fix] *)
  fixQuality : Z
}.

(** [this.lastKnownLocation] *)
Record LastKnown := mkLastKnown {
  lk_latitude : option jsnum;
  lk_longitude : option jsnum;
  lk_altitude : option Q;
  lk_accuracy : option Z;
  lk_satellites : Z;
  lk_hdop : option Q;
  lk_signalStrength : SignalStrength;
  lk_timestamp : Z              (* a [Date], as milliseconds *)
}.

Record State := mkState {
  isInitialized : bool;
  isShuttingDown : bool;
  port : option string;
  currentData : CurrentData;
  lastKnownLocation : option LastKnown;
  isConnected : bool;
  connectionAttempts : Z;
  reconnectTimer : option Z;     (* when the pending reconnect fires *)
  signalStrength : SignalStrength;
  acquisitionStartTime : option Z;
  timeToFirstFix : option Z;
  lastNMEATime : option Z
}.

Definition maxConnectionAttempts : Z := 10.
Definition reconnectDelay : Z := 5000.

Definition possibleDevices : list string :=
  ["/dev/ttyAMA0"; "/dev/serial0"; "/dev/ttyUSB0"; "/dev/ttyUSB1";
   "/dev/ttyACM0"; "/dev/ttyS0"]%string.

(** The constructor's state. *)
Definition initialState : State :=
  mkState false false None
    (mkData None None None None None None None None 0 false 0)
    None false 0 None sig_none None None None.

Inductive Age := Days (n : Z) | Hours (n : Z) | Minutes (n : Z) | Seconds (n : Z).

Inductive Position :=
  | Live (d : CurrentData) (sig : SignalStrength)
  | Cached (l : LastKnown) (age : Age)
  | NoPosition.

Inductive Effect :=
  | SaveScheduled                    (* setImmediate(savePersistedLocation) *)
  | EmitData (pos : Position)
  | EmitNmea (sentence : string)
  | EmitConnected (device : string)
  | EmitDisconnected
  | ConnectScheduled                 (* setImmediate(connectToGPS) *)
  | ReconnectScheduled (delay : Z).  (* setTimeout(..., reconnectDelay) *)

Definition set_currentData (d : CurrentData) (s : State) : State :=
  mkState (isInitialized s) (isShuttingDown s) (port s) d (lastKnownLocation s)
    (isConnected s) (connectionAttempts s) (reconnectTimer s) (signalStrength s)
    (acquisitionStartTime s) (timeToFirstFix s) (lastNMEATime s).
Definition set_lastKnownLocation (l : option LastKnown) (s : State) : State :=
  mkState (isInitialized s) (isShuttingDown s) (port s) (currentData s) l
    (isConnected s) (connectionAttempts s) (reconnectTimer s) (signalStrength s)
    (acquisitionStartTime s) (timeToFirstFix s) (lastNMEATime s).
Definition set_signalStrength (g : SignalStrength) (s : State) : State :=
  mkState (isInitialized s) (isShuttingDown s) (port s) (currentData s)
    (lastKnownLocation s) (isConnected s) (connectionAttempts s) (reconnectTimer s) g
    (acquisitionStartTime s) (timeToFirstFix s) (lastNMEATime s).
Definition set_timeToFirstFix (t : option Z) (s : State) : State :=
  mkState (isInitialized s) (isShuttingDown s) (port s) (currentData s)
    (lastKnownLocation s) (isConnected s) (connectionAttempts s) (reconnectTimer s)
    (signalStrength s) (acquisitionStartTime s) t (lastNMEATime s).
Definition set_lastNMEATime (t : option Z) (s : State) : State :=
  mkState (isInitialized s) (isShuttingDown s) (port s) (currentData s)
    (lastKnownLocation s) (isConnected s) (connectionAttempts s) (reconnectTimer s)
    (signalStrength s) (acquisitionStartTime s) (timeToFirstFix s) t.
Definition set_reconnectTimer (t : option Z) (s : State) : State :=
  mkState (isInitialized s) (isShuttingDown s) (port s) (currentData s)
    (lastKnownLocation s) (isConnected s) (connectionAttempts s) t
    (signalStrength s) (acquisitionStartTime s) (timeToFirstFix s) (lastNMEATime s).
Definition set_connectionAttempts (n : Z) (s : State) : State :=
  mkState (isInitialized s) (isShuttingDown s) (port s) (currentData s)
    (lastKnownLocation s) (isConnected s) n (reconnectTimer s)
    (signalStrength s) (acquisitionStartTime s) (timeToFirstFix s) (lastNMEATime s).

(** *** Truthiness *)

Definition truthyQ (o : option Q) : option Q :=
  match o with
  | Some q => if Qeq_bool q 0 then None else Some q
  | None => None
  end.
Definition truthyZ (o : option Z) : option Z :=
  match o with
  | Some z => if z =? 0 then None else Some z
  | None => None
  end.
Definition truthyNum (o : option jsnum) : bool :=
  match o with
  | Some (Num q) => negb (Qeq_bool q 0)
  | _ => false
  end.

(** *** Decoding *)

(** [sentence.split(',')] *)
Fixpoint split_comma (s : string) : list string :=
  match s with
  | EmptyString => [EmptyString]
  | String c rest =>
      if Ascii.eqb c ","%char then EmptyString :: split_comma rest
      else
        match split_comma rest with
        | [] => [String c EmptyString]
        | w :: ws => String c w :: ws
        end
  end.

(** [parts[i]] below the checked length. *)
Definition part (parts : list string) (i : nat) : string := nth i parts EmptyString.

(** [coord.substring(n)] *)
Definition substring_from (n : nat) (s : string) : string :=
  String.substring n (String.length s - n) s.

(** [convertToDecimalDegrees(coord, direction)]; [None] is [null]. *)
Definition convertToDecimalDegrees (js : Builtins) (coord direction : string)
    : option jsnum :=
  if (String.length coord <? 4)%nat then None
  else
    match String.index 0 "." coord with
    | None => None
    | Some dotIndex =>
        let conv (k : nat) : option jsnum :=
          let degrees := parseInt js (String.substring 0 k coord) in
          let minutes := parseFloat js (substring_from k coord) in
          let decimal :=
            match degrees, minutes with
            | Some dg, Some mn => Num (inject_Z dg + mn / 60)%Q
            | _, _ => NaN
            end in
          Some (if String.eqb direction "S" || String.eqb direction "W"
                then match decimal with Num q => Num (- q)%Q | NaN => NaN end
                else decimal) in
        if (dotIndex =? 4)%nat then conv 2%nat
        else if (dotIndex =? 5)%nat then conv 3%nat
        else None
    end.

(** [Math.round] *)
Definition round (x : Q) : Z := Qfloor (x + (1 # 2))%Q.

(** [calculateAccuracy(hdop, satellites)] *)
Definition calculateAccuracy (hd : Q) (sats : Z) : Z :=
  let baseAccuracy := (hd * 3)%Q in
  let baseAccuracy :=
    if 8 <=? sats then (baseAccuracy * (8 # 10))%Q
    else if 6 <=? sats then (baseAccuracy * 1)%Q
    else if 4 <=? sats then (baseAccuracy * (15 # 10))%Q
    else (baseAccuracy * 2)%Q in
  round baseAccuracy.

Definition hdop_below (o : option Q) (bound : Q) : bool :=
  match truthyQ o with
  | Some h => Qltb h bound
  | None => false
  end.

(** [updateSignalStrength(quality, satellites, hdop)] *)
Definition updateSignalStrength (quality sats : Z) (hd : option Q) (s : State) : State :=
  set_signalStrength
    (if (quality =? 0) || (sats <? 3) then sig_none
     else if (8 <=? sats) && hdop_below hd 2 then sig_excellent
     else if (6 <=? sats) && hdop_below hd 3 then sig_good
     else if (4 <=? sats) && hdop_below hd 5 then sig_fair
     else sig_poor) s.

(** [isGoodFix()] *)
Definition isGoodFix (s : State) : bool :=
  let d := currentData s in
  fix_flag d &&
  (4 <=? satellites d) &&
  (1 <=? fixQuality d) &&
  hdop_below (hdop d) 5 &&
  match truthyZ (accuracy d) with
  | Some a => a <? 50
  | None => false
  end.

(** [updateLastKnownLocation()] *)
Definition updateLastKnownLocation (now : Z) (s : State) : State * list Effect :=
  let d := currentData s in
  (set_lastKnownLocation
     (Some (mkLastKnown (latitude d) (longitude d) (altitude d) (accuracy d)
              (satellites d) (hdop d) (signalStrength s) now)) s,
   [SaveScheduled]).

(** [getLocationAge()] of a last known location; the source renders the
    number with its unit letter. *)
Definition getLocationAge (now : Z) (l : LastKnown) : Age :=
  let ageMs := now - lk_timestamp l in
  let ageSeconds := ageMs / 1000 in
  let ageMinutes := ageSeconds / 60 in
  let ageHours := ageMinutes / 60 in
  let ageDays := ageHours / 24 in
  if 0 <? ageDays then Days ageDays
  else if 0 <? ageHours then Hours ageHours
  else if 0 <? ageMinutes then Minutes ageMinutes
  else Seconds ageSeconds.

Definition ageValue (a : Age) : Z :=
  match a with Days n | Hours n | Minutes n | Seconds n => n end.

(** [getCurrentLocation()] *)
Definition getCurrentLocation (now : Z) (s : State) : Position :=
  let d := currentData s in
  if fix_flag d && truthyNum (latitude d) && truthyNum (longitude d)
  then Live d (signalStrength s)
  else
    match lastKnownLocation s with
    | Some l => Cached l (getLocationAge now l)
    | None => NoPosition
    end.

(** [parseGGA(sentence)] *)
Definition parseGGA (js : Builtins) (now : Z) (sentence : string) (s : State)
    : State * list Effect :=
  let parts := split_comma sentence in
  if (length parts <? 15)%nat then (s, [])
  else
    let lat := part parts 2 in
    let latDir := part parts 3 in
    let lon := part parts 4 in
    let lonDir := part parts 5 in
    let quality := default 0 (truthyZ (parseInt js (part parts 6))) in
    let sats := default 0 (truthyZ (parseInt js (part parts 7))) in
    let hd := truthyQ (parseFloat js (part parts 8)) in
    let alt := truthyQ (parseFloat js (part parts 9)) in
    match convertToDecimalDegrees js lat latDir,
          convertToDecimalDegrees js lon lonDir with
    | Some la, Some lo =>
        let hasFix := (0 <? quality) && (3 <=? sats) in
        let d := currentData s in
        let d :=
          mkData (Some la) (Some lo) alt (speed d) (course d) (Some now)
            (match hd with
             | Some h => Some (calculateAccuracy h sats)
             | None => accuracy d
             end)
            hd sats hasFix quality in
        let s := set_currentData d s in
        let s := updateSignalStrength quality sats hd s in
        let '(s, eff) :=
          if hasFix && isGoodFix s then
            let '(s, eff) := updateLastKnownLocation now s in
            (match truthyZ (timeToFirstFix s), truthyZ (acquisitionStartTime s) with
             | None, Some t0 => set_timeToFirstFix (Some (now - t0)) s
             | _, _ => s
             end, eff)
          else (s, []) in
        (s, eff ++ [EmitData (getCurrentLocation now s)])
    | _, _ => (s, [])
    end.

(** [parseRMC(sentence)] *)
Definition parseRMC (js : Builtins) (sentence : string) (s : State) : State :=
  let parts := split_comma sentence in
  if (length parts <? 12)%nat then s
  else
    let status := part parts 2 in
    let spd := default 0%Q (parseFloat js (part parts 7)) in
    let crs := default 0%Q (parseFloat js (part parts 8)) in
    if String.eqb status "A" then
      let d := currentData s in
      set_currentData
        (mkData (latitude d) (longitude d) (altitude d)
           (Some (spd * (1852 # 1000))%Q) (Some crs) (timestamp d) (accuracy d)
           (hdop d) (satellites d) (fix_flag d) (fixQuality d)) s
    else s.

(** [parseGSA(sentence)] *)
Definition parseGSA (js : Builtins) (sentence : string) (s : State) : State :=
  let parts := split_comma sentence in
  if (length parts <? 18)%nat then s
  else
    let fixType := default 0 (parseInt js (part parts 2)) in
    let hd := truthyQ (parseFloat js (part parts 16)) in
    let d := currentData s in
    set_currentData
      (mkData (latitude d) (longitude d) (altitude d) (speed d) (course d)
         (timestamp d) (accuracy d)
         (match hd with Some h => Some h | None => hdop d end)
         (satellites d) (2 <=? fixType) (fixQuality d)) s.

(** [parseGSV(sentence)] *)
Definition parseGSV (js : Builtins) (sentence : string) (s : State) : State :=
  let parts := split_comma sentence in
  if (4 <=? length parts)%nat then
    let totalSats := default 0 (parseInt js (part parts 3)) in
    let d := currentData s in
    if satellites d <? totalSats then
      set_currentData
        (mkData (latitude d) (longitude d) (altitude d) (speed d) (course d)
           (timestamp d) (accuracy d) (hdop d) totalSats (fix_flag d) (fixQuality d)) s
    else s
  else s.

Definition startsWith (pre s : string) : bool := String.prefix pre s.

(** [processNMEASentence(sentence)] *)
Definition processNMEASentence (js : Builtins) (now : Z) (sentence : string)
    (s : State) : State * list Effect :=
  let s := set_lastNMEATime (Some now) s in
  let '(s, eff) :=
    if startsWith "$GPGGA" sentence || startsWith "$GNGGA" sentence
    then parseGGA js now sentence s
    else if startsWith "$GPRMC" sentence || startsWith "$GNRMC" sentence
    then (parseRMC js sentence s, [])
    else if startsWith "$GPGSA" sentence || startsWith "$GNGSA" sentence
    then (parseGSA js sentence s, [])
    else if startsWith "$GPGSV" sentence || startsWith "$GNGSV" sentence
    then (parseGSV js sentence s, [])
    else (s, []) in
  (s, eff ++ [EmitNmea sentence]).

(** *** Reconnection *)

Definition set_disconnected (s : State) : State :=
  let d := currentData s in
  mkState (isInitialized s) (isShuttingDown s) None
    (mkData (latitude d) (longitude d) (altitude d) (speed d) (course d)
       (timestamp d) (accuracy d) (hdop d) (satellites d) false (fixQuality d))
    (lastKnownLocation s) false (connectionAttempts s) (reconnectTimer s)
    (signalStrength s) (acquisitionStartTime s) (timeToFirstFix s) (lastNMEATime s).

(** [scheduleReconnect()] *)
Definition scheduleReconnect (now : Z) (s : State) : State * list Effect :=
  if isShuttingDown s
     || match reconnectTimer s with Some _ => true | None => false end
     || (maxConnectionAttempts <=? connectionAttempts s)
  then (s, [])
  else (set_reconnectTimer (Some (now + reconnectDelay)) s,
        [ReconnectScheduled reconnectDelay]).

(** [handleDisconnect()], the handler of the port's [error] and [close]
    events. *)
Definition handleDisconnect (now : Z) (s : State) : State * list Effect :=
  let s := set_disconnected s in
  let '(s, eff) := scheduleReconnect now s in
  (s, EmitDisconnected :: eff).

(** What the operating system answers to one connection attempt:
    [fs.access(device)] and [port.open()] for each candidate path. *)
Record Probe := mkProbe {
  accessible : string -> bool;
  opens : string -> bool
}.

(** The device loop of [connectToGPS()]: the port left in [this.port] and
    whether one opened. *)
Fixpoint tryDevices (pr : Probe) (devices : list string) (current : option string)
    : option string * bool :=
  match devices with
  | [] => (current, false)
  | device :: others =>
      if accessible pr device then
        if opens pr device then (Some device, true)
        else tryDevices pr others (Some device)
      else tryDevices pr others current
  end.

(** [connectToGPS()]; the boolean is [false] when it throws. *)
Definition connectToGPS (now : Z) (pr : Probe) (s : State) : State * list Effect * bool :=
  let s := set_connectionAttempts (connectionAttempts s + 1) s in
  match tryDevices pr possibleDevices (port s) with
  | (Some device, true) =>
      (mkState (isInitialized s) (isShuttingDown s) (Some device) (currentData s)
         (lastKnownLocation s) true 0 (reconnectTimer s) (signalStrength s)
         (Some now) (timeToFirstFix s) (lastNMEATime s),
       [EmitConnected device], true)
  | (p, _) =>
      (mkState (isInitialized s) (isShuttingDown s) p (currentData s)
         (lastKnownLocation s) (isConnected s) (connectionAttempts s)
         (reconnectTimer s) (signalStrength s) (acquisitionStartTime s)
         (timeToFirstFix s) (lastNMEATime s),
       [], false)
  end.

(** The callback [startAsyncConnection()] hands to [setImmediate]. *)
Definition startAsyncConnection (now : Z) (pr : Probe) (s : State) : State * list Effect :=
  let '(s, eff, ok) := connectToGPS now pr s in
  if ok then (s, eff)
  else let '(s, eff') := scheduleReconnect now s in (s, eff ++ eff').

(** The events of the connection: the port reports an error or closes, or
    the pending reconnect timer fires (not before its time). *)
Inductive ConnEvent :=
  | PortError (now : Z)
  | PortClose (now : Z)
  | ReconnectTimerFires (now : Z) (pr : Probe).

Definition connStep (s : State) (e : ConnEvent) : option (State * list Effect) :=
  match e with
  | PortError now | PortClose now => Some (handleDisconnect now s)
  | ReconnectTimerFires now pr =>
      match reconnectTimer s with
      | Some due =>
          if due <=? now
          then Some (startAsyncConnection now pr (set_reconnectTimer None s))
          else None
      | None => None
      end
  end.

Fixpoint connRun (s : State) (es : list ConnEvent) : option (State * list Effect) :=
  match es with
  | [] => Some (s, [])
  | e :: es' =>
      match connStep s e with
      | Some (s', out) =>
          match connRun s' es' with
          | Some (s'', out') => Some (s'', out ++ out')
          | None => None
          end
      | None => None
      end
  end.

(** The delays of the reconnects scheduled, in order. *)
Fixpoint reconnectDelays (out : list Effect) : list Z :=
  match out with
  | [] => []
  | ReconnectScheduled d :: rest => d :: reconnectDelays rest
  | _ :: rest => reconnectDelays rest
  end.

(** The schedule the specification describes: a base delay that doubles
    with each further attempt up to a cap above the base.  Written from
    the specification's words, for comparison with [scheduleReconnect]. *)
Definition spec_exponential_backoff (delays : list Z) : Prop :=
  exists base cap, 0 < base /\ base < cap /\
    forall k d, nth_error delays k = Some d -> d = Z.min (base * 2 ^ Z.of_nat k) cap.

(** *** The persistence file *)

(** The document [JSON.stringify(this.lastKnownLocation)] writes: a [NaN]
    becomes [null], the [Date] its ISO string, here the instant it
    denotes.  The text itself is not modelled; the file holds such a
    document or is unreadable. *)
Record PersistedLocation := mkPersisted {
  p_latitude : option Q;
  p_longitude : option Q;
  p_altitude : option Q;
  p_accuracy : option Z;
  p_satellites : Z;
  p_hdop : option Q;
  p_signalStrength : SignalStrength;
  p_timestamp : Z
}.

Definition json_number (n : option jsnum) : option Q :=
  match n with Some (Num q) => Some q | _ => None end.

Definition stringify (l : LastKnown) : PersistedLocation :=
  mkPersisted (json_number (lk_latitude l)) (json_number (lk_longitude l))
    (lk_altitude l) (lk_accuracy l) (lk_satellites l) (lk_hdop l)
    (lk_signalStrength l) (lk_timestamp l).

(** [savePersistedLocation()]: the new content of the file. *)
Definition savePersistedLocation (writeSucceeds : bool) (s : State)
    (file : option PersistedLocation) : option PersistedLocation :=
  match lastKnownLocation s with
  | None => file
  | Some l => if writeSucceeds then Some (stringify l) else file
  end.

Inductive LoadResult := LoadedTrue | LoadedFalse | LoadedUndefined.

(** [loadPersistedLocation()] *)
Definition loadPersistedLocation (file : option PersistedLocation) (s : State)
    : State * LoadResult :=
  match file with
  | None => (s, LoadedFalse)
  | Some parsed =>
      match truthyQ (p_latitude parsed), truthyQ (p_longitude parsed) with
      | Some _, Some _ =>
          (set_lastKnownLocation
             (Some (mkLastKnown (option_map Num (p_latitude parsed))
                      (option_map Num (p_longitude parsed))
                      (p_altitude parsed) (p_accuracy parsed) (p_satellites parsed)
                      (p_hdop parsed) (p_signalStrength parsed) (p_timestamp parsed)))
             s,
           LoadedTrue)
      | _, _ => (s, LoadedUndefined)
      end
  end.

(** *** A decimal reading of the two library functions, for the examples *)

Definition digit (c : ascii) : option Z :=
  let n := Z.of_nat (nat_of_ascii c) in
  if (48 <=? n) && (n <=? 57) then Some (n - 48) else None.

(** The leading digits of [s]: their value, how many there are, and the
    rest of the text. *)
Fixpoint leadingDigits (s : string) (acc : Z) (count : nat) : Z * nat * string :=
  match s with
  | EmptyString => (acc, count, s)
  | String c rest =>
      match digit c with
      | Some dg => leadingDigits rest (10 * acc + dg) (S count)
      | None => (acc, count, s)
      end
  end.

Definition decimalParseInt (s : string) : option Z :=
  let '(v, n, _) := leadingDigits s 0 0 in
  if (n =? 0)%nat then None else Some v.

Definition decimalParseFloat (s : string) : option Q :=
  let '(ip, n, rest) := leadingDigits s 0 0 in
  match rest with
  | String "." frac =>
      let '(fp, m, _) := leadingDigits frac 0 0 in
      if (n + m =? 0)%nat then None
      else Some (inject_Z ip + inject_Z fp / inject_Z (10 ^ Z.of_nat m))%Q
  | _ => if (n =? 0)%nat then None else Some (inject_Z ip)
  end.

Definition decimalBuiltins : Builtins := mkBuiltins decimalParseInt decimalParseFloat.

(** The satellite count a position sentence carries. *)
Definition sentenceSatellites (js : Builtins) (sentence : string) : Z :=
  default 0 (truthyZ (parseInt js (part (split_comma sentence) 7))).

(** A scenario: a port error on a connected service, then ten reconnect
    attempts that find no device. *)
Definition noDevice : Probe := mkProbe (fun _ => false) (fun _ => false).

Definition connectedState : State :=
  mkState true false (Some "/dev/ttyAMA0"%string)
    (mkData None None None None None None None None 0 false 0)
    None true 0 None sig_none (Some 0) None None.

Definition tenFailures : list ConnEvent :=
  [PortError 1000;
   ReconnectTimerFires 6000 noDevice; ReconnectTimerFires 11000 noDevice;
   ReconnectTimerFires 16000 noDevice; ReconnectTimerFires 21000 noDevice;
   ReconnectTimerFires 26000 noDevice; ReconnectTimerFires 31000 noDevice;
   ReconnectTimerFires 36000 noDevice; ReconnectTimerFires 41000 noDevice;
   ReconnectTimerFires 46000 noDevice; ReconnectTimerFires 51000 noDevice].

(** [parts.join(',')], the inverse of [split(',')]. *)
Fixpoint join_comma (parts : list string) : string :=
  match parts with
  | [] => EmptyString
  | [w] => w
  | w :: ws => (w ++ String "," (join_comma ws))%string
  end.

(** The sign flip [convertToDecimalDegrees] applies for S and W. *)
Definition negateNum (n : option jsnum) : option jsnum :=
  match n with
  | Some (Num q) => Some (Num (- q)%Q)
  | other => other
  end.

(** What one unit of an [Age] is worth in milliseconds. *)
Definition ageUnit (a : Age) : Z :=
  match a with
  | Days _ => 86400000
  | Hours _ => 3600000
  | Minutes _ => 60000
  | Seconds _ => 1000
  end.

Definition isPositionSentence (sentence : string) : bool :=
  startsWith "$GPGGA" sentence || startsWith "$GNGGA" sentence.

(** The attempt counter is within its maximum, and below it while a
    reconnect is pending. *)
Definition attemptsBounded (s : State) : bool :=
  (connectionAttempts s <=? maxConnectionAttempts) &&
  match reconnectTimer s with
  | Some _ => connectionAttempts s <? maxConnectionAttempts
  | None => true
  end.

Definition atLeastFair (g : SignalStrength) : bool :=
  match g with
  | sig_fair | sig_good | sig_excellent => true
  | sig_none | sig_poor => false
  end.

(** Whether a device can be connected to: it is accessible and opens. *)
Definition connects (pr : Probe) (device : string) : bool :=
  accessible pr device && opens pr device.

End GPSAsync.

(* ===================================================================== *)
(** * Properties *)
(* ===================================================================== *)

Lemma Qgtb_true (x y : Q) : Qgtb x y = true <-> (y < x)%Q.
Proof.
  unfold Qgtb. rewrite negb_true_iff. split.
  - intros H. apply Qnot_le_lt. intros Hle.
    apply Qle_bool_iff in Hle. congruence.
  - intros H. destruct (Qle_bool x y) eqn:E; [|reflexivity].
    apply Qle_bool_iff in E. exfalso. apply (Qlt_not_le _ _ H E).
Qed.

Lemma Qgtb_false (x y : Q) : Qgtb x y = false <-> (x <= y)%Q.
Proof.
  unfold Qgtb. rewrite negb_false_iff. apply Qle_bool_iff.
Qed.

Lemma Qgeb_true (x y : Q) : Qgeb x y = true <-> (y <= x)%Q.
Proof. unfold Qgeb. apply Qle_bool_iff. Qed.

Lemma Qltb_true (x y : Q) : Qltb x y = true <-> (x < y)%Q.
Proof. unfold Qltb. apply (Qgtb_true y x). Qed.

Lemma Qltb_false (x y : Q) : Qltb x y = false <-> (y <= x)%Q.
Proof. unfold Qltb. apply (Qgtb_false y x). Qed.


(** Turning the boolean comparisons of the models into propositions. *)
Ltac qbool :=
  repeat match goal with
  | H : Qgtb _ _ = true |- _ => apply Qgtb_true in H
  | H : Qgtb _ _ = false |- _ => apply Qgtb_false in H
  | H : Qltb _ _ = true |- _ => apply Qltb_true in H
  | H : Qltb _ _ = false |- _ => apply Qltb_false in H
  | H : Qgeb _ _ = true |- _ => apply Qgeb_true in H
  | H : Qeq_bool _ _ = true |- _ => apply Qeq_bool_iff in H
  | H : Qeq_bool _ _ = false |- _ => apply Qeq_bool_neq in H
  end.

Lemma Qgtb_intro (x y : Q) : (y < x)%Q -> Qgtb x y = true.
Proof. apply Qgtb_true. Qed.

Lemma Qgtb_intro_false (x y : Q) : (x <= y)%Q -> Qgtb x y = false.
Proof. apply Qgtb_false. Qed.

(** [c < a / b] and [a / b <= c] for a positive divisor, without division. *)
Lemma Qdiv_gt_iff (a b c : Q) : (0 < b)%Q -> (c < a / b <-> c * b < a)%Q.
Proof.
  intros Hb. split; intros H.
  - apply (Qmult_lt_r _ _ b Hb) in H.
    assert (E : (a / b * b == a)%Q) by (field; lra).
    rewrite E in H. exact H.
  - apply Qlt_shift_div_l; assumption.
Qed.

Lemma Qdiv_le_iff (a b c : Q) : (0 < b)%Q -> (a / b <= c <-> a <= c * b)%Q.
Proof.
  intros Hb. split; intros H.
  - apply (Qmult_le_r _ _ b Hb) in H.
    assert (E : (a / b * b == a)%Q) by (field; lra).
    rewrite E in H. exact H.
  - apply Qle_shift_div_r; assumption.
Qed.

Section HardwareManagerFacts.
Import HardwareManager.
Local Open Scope Q_scope.

Implicit Types x y : SensorReading.

(** The agreement bucket pins the ratio of the two readings. *)
Lemma agreement_EXCELLENT_inv x y :
  analyzeSensorAgreement x y = EXCELLENT ->
  ~ Qmax (ppm x) (ppm y) == 0 /\
  8 # 10 < Qmin (ppm x) (ppm y) / Qmax (ppm x) (ppm y).
Proof.
  unfold analyzeSensorAgreement.
  destruct (Qeq_bool _ 0) eqn:E0; [discriminate|].
  destruct (Qgtb _ (8 # 10)) eqn:E1.
  - intros _. qbool. split; assumption.
  - repeat (destruct (Qgtb _ _); try discriminate).
Qed.

Lemma agreement_GOOD_inv x y :
  analyzeSensorAgreement x y = GOOD ->
  ~ Qmax (ppm x) (ppm y) == 0 /\
  6 # 10 < Qmin (ppm x) (ppm y) / Qmax (ppm x) (ppm y) <= 8 # 10.
Proof.
  unfold analyzeSensorAgreement.
  destruct (Qeq_bool _ 0) eqn:E0; [discriminate|].
  destruct (Qgtb _ (8 # 10)) eqn:E1; [discriminate|].
  destruct (Qgtb _ (6 # 10)) eqn:E2.
  - intros _. qbool. repeat split; assumption.
  - repeat (destruct (Qgtb _ _); try discriminate).
Qed.

Lemma detectGasType_close (x y : SensorReading) :
  20 < ppm x -> 20 < ppm y ->
  ppm x <= (15 # 10) * ppm y -> ppm y <= 2 * ppm x ->
  detectGasType x y = LPG_Propane.
Proof.
  intros Hx Hy Hxy Hyx. unfold detectGasType.
  pose proof (Q.le_max_l (ppm y) 1). pose proof (Q.le_max_l (ppm x) 1).
  rewrite (Qgtb_intro_false (ppm x / Qmax (ppm y) 1)).
  2:{ apply Qdiv_le_iff; lra. }
  rewrite (Qgtb_intro_false (ppm y / Qmax (ppm x) 1)).
  2:{ apply Qdiv_le_iff; lra. }
  simpl. rewrite !Qgtb_intro by assumption. reflexivity.
Qed.

Lemma clamp_gt (t c : Q) : t < 100 -> t < c -> t < Qmin 100 (Qmax 0 c).
Proof.
  intros H1 H2. apply Q.min_glb_lt; [assumption|].
  pose proof (Q.le_max_r 0 c). lra.
Qed.

Lemma excellent_facts (x y : SensorReading) :
  200 < Qmax (ppm x) (ppm y) ->
  analyzeSensorAgreement x y = EXCELLENT ->
  detectGasType x y = LPG_Propane /\ 84 < calculateConfidence x y.
Proof.
  intros HM HA. apply agreement_EXCELLENT_inv in HA as [_ HR].
  apply Qdiv_gt_iff in HR; [|lra].
  set (M := Qmax (ppm x) (ppm y)) in *. set (m := Qmin (ppm x) (ppm y)) in *.
  assert (Hb : (160 < ppm x <= M) /\ (160 < ppm y <= M)).
  { pose proof (Q.le_max_l (ppm x) (ppm y)). pose proof (Q.le_max_r (ppm x) (ppm y)).
    pose proof (Q.le_min_l (ppm x) (ppm y)). pose proof (Q.le_min_r (ppm x) (ppm y)).
    fold M in H, H0. fold m in H1, H2. repeat split; lra. }
  destruct Hb as [[Hx1 Hx2] [Hy1 Hy2]].
  assert (Hmx : m <= ppm x) by apply Q.le_min_l.
  assert (Hmy : m <= ppm y) by apply Q.le_min_r.
  split.
  - apply detectGasType_close; lra.
  - unfold calculateConfidence. fold M m.
    rewrite (Qgtb_intro M 100) by lra.
    rewrite (Qgtb_intro m 5) by lra.
    rewrite (Qgtb_intro M 0) by lra.
    rewrite (Qgtb_intro M 200) by lra. cbn [andb].
    apply clamp_gt; [lra|].
    assert (8 # 10 < m / M) by (apply Qdiv_gt_iff; lra).
    lra.
Qed.

(** The third rule of [determineSmartAlertLevel] ("high PPM with good
    sensor agreement = critical") never decides: whenever its condition
    holds, the first or the second rule has already returned. *)
Lemma rule3_shadowed (now : Z) (x y : SensorReading) :
  let f := evaluateSensorData now x y in
  200 < maxPpm f -> agreement f = EXCELLENT ->
  (Qgtb (confidence f) 70 && RiskLevel_eqb (riskLevel f) HIGH = true) \/
  (Qgtb (confidence f) 50 && RiskLevel_eqb (riskLevel f) MEDIUM = true).
Proof.
  cbn [evaluateSensorData maxPpm agreement confidence riskLevel].
  intros HM HA. destruct (excellent_facts x y HM HA) as [Hg Hc].
  rewrite Hg. rewrite !Qgtb_intro by lra. cbn [andb].
  unfold assessRisk. cbn [riskMultipliers].
  destruct (Qgtb _ 300) eqn:E; [left; reflexivity|].
  right. rewrite Qgtb_intro by lra. reflexivity.
Qed.

(** The first half of C1: at 150 ppm with GOOD agreement the level is
    [low], whatever the thresholds. *)
Lemma smart_level_150_good_is_low (now : Z) (lv : AlertLevels) (x y : SensorReading) :
  let f := evaluateSensorData now x y in
  maxPpm f == 150 -> agreement f = GOOD ->
  determineSmartAlertLevel lv f = low.
Proof.
  cbn zeta. intros HM HA. unfold determineSmartAlertLevel.
  rewrite HA.
  assert (Hrisk : RiskLevel_eqb (riskLevel (evaluateSensorData now x y)) HIGH = false).
  { cbn [evaluateSensorData riskLevel maxPpm] in *. unfold assessRisk.
    assert (Hle : Qmax (ppm x) (ppm y) * riskMultipliers (detectGasType x y) <= 300).
    { rewrite HM. destruct (detectGasType x y); cbn [riskMultipliers]; lra. }
    apply Qgtb_false in Hle. rewrite Hle.
    destruct (Qgtb _ 150); [reflexivity|].
    destruct (Qgtb _ 50); reflexivity. }
  rewrite Hrisk, andb_false_r.
  destruct (_ && RiskLevel_eqb _ MEDIUM); [reflexivity|].
  rewrite (Qgtb_intro_false _ 200) by lra.
  rewrite (Qgtb_intro _ 100) by lra. reflexivity.
Qed.

(** C1.  For every pair of channel readings whose fused assessment has
    maxPpm = 250 and agreement = EXCELLENT, the level computed by
    [determineSmartAlertLevel] is [low], not [critical]: such readings
    classify as LPG/Propane, their risk 250 * 1.1 = 275 is MEDIUM and their
    confidence is above 50, so the second rule returns [low] before the
    third rule (maxPpm > 200 with EXCELLENT agreement gives [critical]) is
    looked at. *)
Theorem smart_level_250_excellent_is_low (now : Z) (lv : AlertLevels) (x y : SensorReading) :
  let f := evaluateSensorData now x y in
  maxPpm f == 250 -> agreement f = EXCELLENT ->
  determineSmartAlertLevel lv f = low.
Proof.
  cbn zeta. intros HM HA.
  assert (H200 : 200 < Qmax (ppm x) (ppm y)) by (cbn in HM; lra).
  destruct (excellent_facts x y H200 HA) as [Hg Hc].
  unfold determineSmartAlertLevel.
  cbn [evaluateSensorData riskLevel maxPpm confidence agreement] in *.
  rewrite Hg. unfold assessRisk. cbn [riskMultipliers].
  rewrite (Qgtb_intro_false _ 300) by lra.
  rewrite (Qgtb_intro _ 150) by lra.
  rewrite (Qgtb_intro _ 70) by lra.
  rewrite (Qgtb_intro _ 50) by lra. reflexivity.
Qed.

(** Readings of 250 ppm and 210 ppm. *)
Lemma smart_level_250_excellent_is_low_witness :
  let f := evaluateSensorData 0 (mkReading 512 250) (mkReading 498 210) in
  maxPpm f == 250 /\ agreement f = EXCELLENT /\
  determineSmartAlertLevel defaultAlertLevels f = low.
Proof.
  cbn zeta. split; [reflexivity|]. split; [reflexivity|].
  apply (smart_level_250_excellent_is_low 0 defaultAlertLevels
           (mkReading 512 250) (mkReading 498 210)); reflexivity.
Defined.

Lemma AlertLevel_eqb_eq (a b : AlertLevel) : AlertLevel_eqb a b = true <-> a = b.
Proof. destruct a, b; cbn; split; congruence. Qed.

(** C8.  In a poll tick in which [mq6.read()] throws (sensors initialised
    and preheated), the tick goes on: the stored entry of the channel
    keeps the previous reading and the sensor data are emitted, but the
    fusion and the alert level of that tick are computed from
    [{ raw: 0, ppm: 0 }] for the failed channel, not from the previous
    reading. *)
Theorem tick_failed_read_fuses_zero (s : State) (i : TickInput) :
  isInitialized s = true -> mq6_preheated i = true -> mq2_preheated i = true ->
  mq6_read i = None ->
  let s' := fst (readSensorData s i) in
  let other := match mq2_read i with Some d => d | None => mkReading 0 0 end in
  let f := evaluateSensorData (now i) (mkReading 0 0) other in
  sensorData_fused s' = Some f /\
  currentAlertLevel s' = determineSmartAlertLevel (alertLevels s) f /\
  (forall old, sensorData_mq6 s = Some old -> sensorData_mq6 s' = Some old) /\
  In EmitSensorData (snd (readSensorData s i)).
Proof.
  intros Hi H6 H2 Hfail. unfold readSensorData. rewrite Hi, H6, H2, Hfail.
  cbn [negb orb readChannelGuarded].
  destruct (mq2_read i) as [d|]; cbn [readChannelGuarded fst snd sensorData_fused
    currentAlertLevel sensorData_mq6].
  all: split; [reflexivity|]; split;
    [destruct (AlertLevel_eqb _ _) eqn:E; cbn [negb];
       [apply AlertLevel_eqb_eq in E; congruence | reflexivity]|].
  all: split; [intros old ->; reflexivity|].
  all: do 3 (apply in_or_app; right); left; reflexivity.
Qed.

(** A leak read at 400 ppm on the first channel; on the next tick that
    channel fails to read while the other reads 5 ppm: the level computed
    is [normal], where the previous reading would have kept [critical]. *)
Lemma tick_failed_read_fuses_zero_witness :
  let s :=
    mkState true (Some (mkStored 700 400 (Some 1000%Z)))
      (Some (mkStored 20 5 (Some 1000%Z))) None critical defaultAlertLevels
      (Some 1000%Z) in
  let i := mkTick 3000 true true None None None (Some (mkReading 20 5)) in
  let s' := fst (readSensorData s i) in
  let claimed :=
    evaluateSensorData 3000 (spec_substituted_reading (sensorData_mq6 s))
      (mkReading 20 5) in
  sensorData_fused s' = Some (evaluateSensorData 3000 (mkReading 0 0) (mkReading 20 5)) /\
  sensorData_mq6 s' = sensorData_mq6 s /\
  currentAlertLevel s' = normal /\
  determineSmartAlertLevel defaultAlertLevels claimed = critical.
Proof.
  cbn zeta.
  destruct (tick_failed_read_fuses_zero
              (mkState true (Some (mkStored 700 400 (Some 1000%Z)))
                 (Some (mkStored 20 5 (Some 1000%Z))) None critical defaultAlertLevels
                 (Some 1000%Z))
              (mkTick 3000 true true None None None (Some (mkReading 20 5)))
              eq_refl eq_refl eq_refl eq_refl) as (Hf & Hl & Hk & _).
  split; [exact Hf|]. split; [apply Hk; reflexivity|].
  split; [rewrite Hl; reflexivity | reflexivity].
Defined.

End HardwareManagerFacts.

(** *** Further properties of the fusion and of the poll tick *)

Section HardwareManagerMore.
Import HardwareManager.
Local Open Scope Q_scope.

Lemma riskMultipliers_bounds (g : GasType) : 0 < riskMultipliers g <= 15 # 10.
Proof. destruct g; cbn; lra. Qed.

(** A risk above [t] needs a concentration above [t / 1.5]. *)
Lemma assessRisk_HIGH_inv (x y : SensorReading) (g : GasType) :
  assessRisk x y g = HIGH -> 200 < Qmax (ppm x) (ppm y).
Proof.
  unfold assessRisk. destruct (Qgtb _ 300) eqn:E.
  - intros _. qbool. pose proof (riskMultipliers_bounds g).
    destruct g; cbn [riskMultipliers] in *; lra.
  - destruct (Qgtb _ 150); [discriminate|]. destruct (Qgtb _ 50); discriminate.
Qed.

Lemma assessRisk_MEDIUM_inv (x y : SensorReading) (g : GasType) :
  assessRisk x y g = MEDIUM -> 100 < Qmax (ppm x) (ppm y).
Proof.
  unfold assessRisk. destruct (Qgtb _ 300) eqn:E; [discriminate|].
  destruct (Qgtb _ 150) eqn:E2.
  - intros _. qbool. destruct g; cbn [riskMultipliers] in *; lra.
  - destruct (Qgtb _ 50); discriminate.
Qed.

Lemma RiskLevel_eqb_eq (a b : RiskLevel) : RiskLevel_eqb a b = true <-> a = b.
Proof. destruct a, b; cbn; split; congruence. Qed.

(** With the default thresholds the rules of [determineSmartAlertLevel]
    neither raise an alert below 100 ppm nor suppress one from 100 ppm
    on: the level is [normal] exactly when the larger reading is below
    100. *)
Theorem smart_level_normal_iff_below_low (now : Z) (x y : SensorReading) :
  determineSmartAlertLevel defaultAlertLevels (evaluateSensorData now x y) = normal
  <-> Qmax (ppm x) (ppm y) < 100.
Proof.
  unfold determineSmartAlertLevel.
  cbn [evaluateSensorData confidence riskLevel maxPpm agreement].
  set (M := Qmax (ppm x) (ppm y)).
  destruct (Qgtb _ 70 && RiskLevel_eqb _ HIGH) eqn:R1.
  { apply andb_prop in R1 as [_ R1]. apply RiskLevel_eqb_eq in R1.
    apply assessRisk_HIGH_inv in R1. fold M in R1.
    split; [discriminate|intros; lra]. }
  destruct (Qgtb _ 50 && RiskLevel_eqb _ MEDIUM) eqn:R2.
  { apply andb_prop in R2 as [_ R2]. apply RiskLevel_eqb_eq in R2.
    apply assessRisk_MEDIUM_inv in R2. fold M in R2.
    split; [discriminate|intros; lra]. }
  destruct (Qgtb M 200 && _) eqn:R3.
  { apply andb_prop in R3 as [R3 _]. qbool.
    split; [discriminate|intros; lra]. }
  destruct (Qgtb M 100 && _) eqn:R4.
  { apply andb_prop in R4 as [R4 _]. qbool.
    split; [discriminate|intros; lra]. }
  unfold determineAlertLevel, defaultAlertLevels. cbn [critical_min low_min].
  destruct (Qgeb M 300) eqn:E1; [qbool; split; [discriminate|intros; lra]|].
  destruct (Qgeb M 100) eqn:E2; [qbool; split; [discriminate|intros; lra]|].
  split; [intros _|reflexivity].
  unfold Qgeb in E2. apply Qnot_le_lt. intros Hle.
  apply Qle_bool_iff in Hle. congruence.
Qed.

(** With the default thresholds a [critical] level needs a reading above
    200 ppm. *)
Theorem smart_level_critical_above_200 (now : Z) (x y : SensorReading) :
  determineSmartAlertLevel defaultAlertLevels (evaluateSensorData now x y) = critical ->
  200 < Qmax (ppm x) (ppm y).
Proof.
  unfold determineSmartAlertLevel.
  cbn [evaluateSensorData confidence riskLevel maxPpm agreement].
  set (M := Qmax (ppm x) (ppm y)).
  destruct (Qgtb _ 70 && RiskLevel_eqb _ HIGH) eqn:R1.
  { apply andb_prop in R1 as [_ R1]. apply RiskLevel_eqb_eq in R1.
    apply assessRisk_HIGH_inv in R1. intros _. exact R1. }
  destruct (Qgtb _ 50 && RiskLevel_eqb _ MEDIUM); [discriminate|].
  destruct (Qgtb M 200 && _) eqn:R3.
  { apply andb_prop in R3 as [R3 _]. qbool. intros _. exact R3. }
  destruct (Qgtb M 100 && _); [discriminate|].
  unfold determineAlertLevel, defaultAlertLevels. cbn [critical_min low_min].
  destruct (Qgeb M 300) eqn:E1; [qbool; intros _; lra|].
  destruct (Qgeb M 100); discriminate.
Qed.

Lemma smart_level_critical_above_200_witness :
  determineSmartAlertLevel defaultAlertLevels
    (evaluateSensorData 0 (mkReading 900 400) (mkReading 40 5)) = critical /\
  200 < Qmax 400 5.
Proof.
  split; [reflexivity|].
  apply (smart_level_critical_above_200 0 (mkReading 900 400) (mkReading 40 5)).
  reflexivity.
Defined.

(** The confidence score lies between 0 and 90: the band gives at most 40,
    the agreement of the two channels at most 30 and the high-reading
    bonus 20. *)
Theorem confidence_between_0_and_90 (x y : SensorReading) :
  0 <= calculateConfidence x y <= 90.
Proof.
  unfold calculateConfidence.
  set (M := Qmax (ppm x) (ppm y)). set (m := Qmin (ppm x) (ppm y)).
  assert (Hmm : m <= M).
  { unfold m, M. pose proof (Q.le_min_l (ppm x) (ppm y)).
    pose proof (Q.le_max_l (ppm x) (ppm y)). lra. }
  set (band := if Qgtb M 100 then 0 + 40
               else if Qgtb M 50 then 0 + 30
               else if Qgtb M 20 then 0 + 20
               else if Qgtb M 5 then 0 + 10 else 0).
  assert (Hband : 0 <= band <= 40).
  { unfold band. repeat (destruct (Qgtb _ _)); lra. }
  set (agree := if Qgtb m 5 && Qgtb M 0 then band + m / M * 30 else band).
  assert (Hagree : 0 <= agree <= 70).
  { unfold agree. destruct (Qgtb m 5 && Qgtb M 0) eqn:E; [|lra].
    apply andb_prop in E as [E1 E2]. qbool.
    assert (H0 : 0 <= m / M) by (apply Qle_shift_div_l; lra).
    assert (H1 : m / M <= 1) by (apply Qle_shift_div_r; lra).
    lra. }
  set (total := if Qgtb M 200 then agree + 20 else agree).
  assert (Htotal : 0 <= total <= 90).
  { unfold total. destruct (Qgtb M 200); lra. }
  split.
  - apply Q.min_glb; [lra|]. apply Q.le_max_l.
  - apply Qle_trans with (Qmax 0 total); [apply Q.le_min_r|].
    apply Q.max_lub; lra.
Qed.

Lemma AlertLevel_eqb_neq (a b : AlertLevel) : AlertLevel_eqb a b = false <-> a <> b.
Proof. destruct a, b; cbn; split; congruence. Qed.

(** A poll tick reports a level change only when the level it computed
    differs from the level held, and then with exactly these two levels
    and the larger reading of the tick; the level held afterwards is the
    one reported. *)
Theorem tick_reports_only_real_changes
    (s : State) (i : TickInput) (n p : AlertLevel) (m : Q) :
  In (HandleAlertLevelChange n p m) (snd (readSensorData s i)) ->
  n <> p /\ p = currentAlertLevel s /\
  n = currentAlertLevel (fst (readSensorData s i)) /\
  exists f, sensorData_fused (fst (readSensorData s i)) = Some f /\
            n = determineSmartAlertLevel (alertLevels s) f /\ m = maxPpm f.
Proof.
  unfold readSensorData.
  destruct (negb (isInitialized s)); [intros []|].
  destruct (negb (mq6_preheated i) || negb (mq2_preheated i)).
  { destruct (adc_channel0 i), (adc_channel1 i); cbn;
      intros H; repeat (destruct H as [H|H]; try discriminate H); contradiction. }
  destruct (readChannelGuarded _ _ (mq6_read i)) as [d6 st6].
  destruct (readChannelGuarded _ _ (mq2_read i)) as [d2 st2].
  cbn [fst snd sensorData_fused currentAlertLevel].
  intros H. apply in_app_or in H as [H|H].
  { destruct (mq6_read i); [contradiction|].
    destruct H as [H|[]]; discriminate H. }
  apply in_app_or in H as [H|H].
  { destruct (mq2_read i); [contradiction|].
    destruct H as [H|[]]; discriminate H. }
  apply in_app_or in H as [H|H].
  - destruct (AlertLevel_eqb _ _) eqn:E; cbn [negb] in *; [contradiction|].
    apply AlertLevel_eqb_neq in E.
    destruct H as [H|[]]. injection H as <- <- <-.
    split; [exact E|]. split; [reflexivity|]. split; [reflexivity|].
    eexists. split; [reflexivity|]. split; reflexivity.
  - destruct H as [H|[]]. discriminate H.
Qed.

Lemma tick_reports_only_real_changes_witness :
  let s := mkState true (Some (mkStored 0 0 None)) (Some (mkStored 0 0 None)) None
             normal defaultAlertLevels None in
  let i := mkTick 2000 true true None None
             (Some (mkReading 800 400)) (Some (mkReading 30 5)) in
  In (HandleAlertLevelChange critical normal 400) (snd (readSensorData s i)) /\
  currentAlertLevel (fst (readSensorData s i)) = critical.
Proof.
  cbn zeta.
  assert (Hin : In (HandleAlertLevelChange critical normal 400)
                  (snd (readSensorData
                          (mkState true (Some (mkStored 0 0 None))
                             (Some (mkStored 0 0 None)) None normal
                             defaultAlertLevels None)
                          (mkTick 2000 true true None None
                             (Some (mkReading 800 400)) (Some (mkReading 30 5)))))).
  { vm_compute. left. reflexivity. }
  split; [exact Hin|].
  destruct (tick_reports_only_real_changes _ _ _ _ _ Hin) as (_ & _ & Hn & _).
  symmetry. exact Hn.
Defined.

(** While either sensor is still preheating, a tick stores 0 ppm for both
    channels and sets the level to [normal] without reporting a level
    change, whatever the level was and whatever the converter reads. *)
Theorem tick_while_preheating (s : State) (i : TickInput) (r6 r2 : Z) :
  isInitialized s = true ->
  mq6_preheated i = false \/ mq2_preheated i = false ->
  adc_channel0 i = Some r6 -> adc_channel1 i = Some r2 ->
  let s' := fst (readSensorData s i) in
  currentAlertLevel s' = normal /\
  sensorData_mq6 s' = Some (mkStored r6 0 (Some (now i))) /\
  sensorData_mq2 s' = Some (mkStored r2 0 (Some (now i))) /\
  sensorData_fused s' = sensorData_fused s /\
  snd (readSensorData s i) = [EmitSensorData].
Proof.
  intros Hi Hpre H6 H2. unfold readSensorData. rewrite Hi. cbn [negb].
  assert (E : negb (mq6_preheated i) || negb (mq2_preheated i) = true).
  { destruct Hpre as [-> | ->]; cbn; [reflexivity|apply orb_true_r]. }
  rewrite E, H6, H2. cbn. repeat split; reflexivity.
Qed.

Lemma tick_while_preheating_witness :
  let s := mkState true (Some (mkStored 700 400 (Some 1000%Z)))
             (Some (mkStored 650 380 (Some 1000%Z))) None critical
             defaultAlertLevels (Some 1000%Z) in
  let i := mkTick 3000 true false (Some 900%Z) (Some 880%Z) None None in
  currentAlertLevel (fst (readSensorData s i)) = normal /\
  snd (readSensorData s i) = [EmitSensorData].
Proof.
  cbn zeta.
  destruct (tick_while_preheating
              (mkState true (Some (mkStored 700 400 (Some 1000%Z)))
                 (Some (mkStored 650 380 (Some 1000%Z))) None critical
                 defaultAlertLevels (Some 1000%Z))
              (mkTick 3000 true false (Some 900%Z) (Some 880%Z) None None)
              900 880 eq_refl (or_intror eq_refl) eq_refl eq_refl)
    as (Hl & _ & _ & _ & He).
  split; assumption.
Defined.

(** The recommendation and the alert level never contradict each other:
    an assessment that recommends immediate evacuation is rated critical,
    and one that recommends investigating the source is rated low,
    whatever thresholds are configured. *)
Theorem recommendation_agrees_with_level
    (lv : AlertLevels) (now : Z) (x y : SensorReading) :
  let f := evaluateSensorData now x y in
  (recommendation f = IMMEDIATE_EVACUATION -> determineSmartAlertLevel lv f = critical) /\
  (recommendation f = INVESTIGATE_SOURCE -> determineSmartAlertLevel lv f = low).
Proof.
  cbn zeta. unfold determineSmartAlertLevel.
  cbn [evaluateSensorData confidence riskLevel maxPpm agreement recommendation].
  unfold generateRecommendation.
  set (c := calculateConfidence x y).
  set (r := assessRisk x y (detectGasType x y)).
  destruct (Qgtb c 70) eqn:E70, (Qgtb c 60) eqn:E60, (Qgtb c 50) eqn:E50;
    qbool; try lra;
    destruct r; cbn [RiskLevel_eqb andb];
    (split; [try reflexivity|try reflexivity]);
    try discriminate;
    destruct (Qltb c 30); discriminate.
Qed.

Lemma recommendation_agrees_with_level_witness :
  let f := evaluateSensorData 0 (mkReading 900 400) (mkReading 880 380) in
  recommendation f = IMMEDIATE_EVACUATION /\
  determineSmartAlertLevel defaultAlertLevels f = critical.
Proof.
  cbn zeta. split; [reflexivity|].
  apply (recommendation_agrees_with_level defaultAlertLevels 0
           (mkReading 900 400) (mkReading 880 380)).
  reflexivity.
Defined.

End HardwareManagerMore.

(* ===================================================================== *)
(** ** GasSensor: the conversion curve *)
(* ===================================================================== *)

Section GasSensorFacts.
Import GasSensor.
Local Open Scope R_scope.

(* linear arithmetic over the reals in this section *)
Ltac lra := Lra.lra.
Ltac nra := Lra.nra.

Lemma clamp_mono (lo hi u v : R) : u <= v -> Rmax lo (Rmin hi u) <= Rmax lo (Rmin hi v).
Proof.
  intros H. apply Rmax_lub.
  - apply Rmax_l.
  - apply Rle_trans with (Rmin hi v); [|apply Rmax_r].
    apply Rmin_glb; [apply Rmin_l|].
    apply Rle_trans with u; [apply Rmin_r|assumption].
Qed.

Lemma calculatePPM_nonneg (s : Sensor) (r : R) : 0 <= calculatePPM s r.
Proof.
  unfold calculatePPM.
  repeat (destruct (Rle_dec _ _); [lra|]).
  apply Rmax_l.
Qed.

Lemma curve_b_pos (t : SensorType) : 0 < curve_b t.
Proof. destruct t; cbn; lra. Qed.

Lemma curve_a_pos (t : SensorType) : 0 < curve_a t.
Proof. destruct t; cbn; lra. Qed.

(** Inside the guards [calculatePPM] is the clamped curve. *)
Lemma calculatePPM_curve (s : Sensor) (r : R) :
  0 < r < 1000000 -> 0 < calibration_ro s ->
  calculatePPM s r = Rmax 0 (Rmin 10000 (spec_curve s r)).
Proof.
  intros [Hr1 Hr2] Hro. unfold calculatePPM, spec_curve.
  destruct (Rle_dec r 0); [lra|].
  destruct (Rle_dec 1000000 r); [lra|].
  assert (0 < r / calibration_ro s) by (apply Rdiv_lt_0_compat; assumption).
  destruct (Rle_dec (r / calibration_ro s) 0); [lra|].
  destruct (type s); reflexivity.
Qed.

Lemma spec_curve_antitone (s : Sensor) (r1 r2 : R) :
  0 < calibration_ro s -> 0 < r1 <= r2 -> spec_curve s r2 <= spec_curve s r1.
Proof.
  intros Hro [H1 H12]. unfold spec_curve.
  assert (Hq1 : 0 < r1 / calibration_ro s) by (apply Rdiv_lt_0_compat; lra).
  assert (Hq : r1 / calibration_ro s <= r2 / calibration_ro s).
  { unfold Rdiv. apply Rmult_le_compat_r; [|assumption].
    left. apply Rinv_0_lt_compat. assumption. }
  pose proof (curve_a_pos (type s)) as Ha.
  pose proof (curve_b_pos (type s)) as Hb.
  assert (Hp : Rpower (r1 / calibration_ro s) (curve_b (type s))
               <= Rpower (r2 / calibration_ro s) (curve_b (type s))).
  { apply Rle_Rpower_l; [lra|]. split; assumption. }
  assert (Hp1 : 0 < Rpower (r1 / calibration_ro s) (curve_b (type s)))
    by (unfold Rpower; apply exp_pos).
  unfold Rdiv. apply Rmult_le_compat_l; [lra|].
  apply Rinv_le_contravar; assumption.
Qed.

Lemma calculatePPM_uncalibrated (s : Sensor) (r : R) :
  calibration_ro s <= 0 -> calculatePPM s r = 0.
Proof.
  intros Hro. unfold calculatePPM.
  destruct (Rle_dec r 0); [reflexivity|].
  destruct (Rle_dec 1000000 r); [reflexivity|].
  destruct (Rle_dec (r / calibration_ro s) 0) as [|Hn]; [reflexivity|].
  exfalso. apply Hn. unfold Rdiv.
  destruct (Req_dec (calibration_ro s) 0) as [E|E].
  - rewrite E, Rinv_0. lra.
  - assert (/ calibration_ro s < 0) by (apply Rinv_lt_0_compat; lra).
    nra.
Qed.

(** C9.  For resistances 100 <= R1 <= R2 <= 1e6 and any fixed baseline Ro,
    [calculatePPM] gives ppm(R2) <= ppm(R1), for both sensor types: the
    concentration does not increase with resistance.  (Over the reals;
    with Ro <= 0 the conversion is constantly 0.) *)
Theorem calculatePPM_antitone (s : Sensor) (r1 r2 : R) :
  100 <= r1 -> r1 <= r2 -> r2 <= 1000000 ->
  calculatePPM s r2 <= calculatePPM s r1.
Proof.
  intros H1 H12 H2.
  destruct (Rle_dec (calibration_ro s) 0) as [Hno|Hro].
  { rewrite !calculatePPM_uncalibrated by assumption. lra. }
  apply Rnot_le_lt in Hro.
  destruct (Rle_dec 1000000 r2) as [Hbig|Hsmall].
  - replace (calculatePPM s r2) with 0; [apply calculatePPM_nonneg|].
    unfold calculatePPM. destruct (Rle_dec r2 0); [reflexivity|].
    destruct (Rle_dec 1000000 r2); [reflexivity|lra].
  - rewrite !calculatePPM_curve by lra.
    apply clamp_mono. apply spec_curve_antitone; [assumption|lra].
Qed.

Lemma calculatePPM_antitone_witness :
  let s := mkSensor MQ6 0 true 5000 60000 0 true in
  calculatePPM s 20000 <= calculatePPM s 2500.
Proof.
  cbn zeta. apply calculatePPM_antitone; lra.
Defined.

(** Below 1 the power decreases as the exponent grows. *)
Lemma Rpower_base_lt_1 (x y z : R) : 0 < x < 1 -> y < z -> Rpower x z < Rpower x y.
Proof.
  intros [H0 H1] Hyz. unfold Rpower. apply exp_increasing.
  assert (ln x < 0) by (rewrite <- ln_1; apply ln_increasing; assumption).
  nra.
Qed.

Lemma sensitivity_fixed (s : Sensor) : sensitivity (sensorParams s) = 0.3.
Proof. unfold sensorParams. destruct (type s); reflexivity. Qed.

Lemma calculateResistance_range (s : Sensor) (v : R) :
  100 <= calculateResistance s v <= 1000000.
Proof.
  unfold calculateResistance.
  destruct (Rle_dec v 0.01); [lra|].
  destruct (Rle_dec 4.9 v); [lra|].
  split; [apply Rmax_l|].
  apply Rmax_lub; [lra|apply Rmin_l].
Qed.

Lemma spec_curve_pos (s : Sensor) (r : R) : 0 < spec_curve s r.
Proof.
  unfold spec_curve. apply Rdiv_lt_0_compat; [apply curve_a_pos|].
  unfold Rpower. apply exp_pos.
Qed.

(** C7, as the code has it.  A read after preheating, with a positive
    baseline Ro, reports the curve value a / (R / Ro)^b clamped to
    10000 and then scaled by the sensitivity 0.3 when the resistance R is
    below its upper clamp 1e6, and 0 at R = 1e6; so the reported
    concentration lies in [0, 3000]. *)
Theorem read_clamps_then_scales (s : Sensor) (now rawValue : Z) (v : R) :
  isInitialized s = true -> isPreheated s = true -> 0 < calibration_ro s ->
  exists rd,
    read s now (Some (rawValue, v)) = inr rd /\
    resistance rd = calculateResistance s v /\
    (resistance rd < 1000000 ->
       ppm rd = Rmin 10000 (spec_curve s (resistance rd)) * 0.3) /\
    (resistance rd = 1000000 -> ppm rd = 0) /\
    0 <= ppm rd <= 3000.
Proof.
  intros Hi Hp Hro. unfold read. rewrite Hi, Hp. cbn [negb].
  eexists. split; [reflexivity|]. cbn [resistance ppm].
  split; [reflexivity|].
  pose proof (calculateResistance_range s v) as [Hlo Hhi].
  set (r := calculateResistance s v) in *.
  unfold applySensorCorrections. rewrite sensitivity_fixed.
  pose proof (calculatePPM_nonneg s r) as Hnn.
  assert (Hmax : Rmax 0 (calculatePPM s r * 0.3 * 1.0) = calculatePPM s r * 0.3).
  { rewrite Rmax_right by lra. lra. }
  rewrite Hmax.
  assert (Hcl : r < 1000000 -> calculatePPM s r = Rmin 10000 (spec_curve s r)).
  { intros Hlt. rewrite calculatePPM_curve by lra.
    apply Rmax_right. apply Rmin_glb; [lra|].
    left. apply spec_curve_pos. }
  assert (Hz : r = 1000000 -> calculatePPM s r = 0).
  { intros E. unfold calculatePPM. destruct (Rle_dec r 0); [reflexivity|].
    destruct (Rle_dec 1000000 r); [reflexivity|lra]. }
  split; [intros Hlt; rewrite (Hcl Hlt); reflexivity|].
  split; [intros E; rewrite (Hz E); lra|].
  destruct (Rlt_dec r 1000000) as [Hlt|Hge].
  - rewrite (Hcl Hlt). pose proof (Rmin_l 10000 (spec_curve s r)).
    rewrite <- (Hcl Hlt). lra.
  - rewrite Hz by lra. lra.
Qed.

Lemma read_clamps_then_scales_witness :
  let s := mkSensor MQ6 0 true 5000 60000 0 true in
  exists rd,
    read s 70000 (Some (512%Z, 1.65)) = inr rd /\
    resistance rd = calculateResistance s 1.65 /\
    0 <= ppm rd <= 3000.
Proof.
  cbn zeta.
  destruct (read_clamps_then_scales (mkSensor MQ6 0 true 5000 60000 0 true)
              70000 512 1.65 eq_refl eq_refl) as (rd & Hrd & Hres & _ & _ & Hb).
  - cbn. lra.
  - exists rd. repeat split; first [exact Hrd | exact Hres | apply Hb].
Defined.

(** At the low-resistance clamp the code reports 3000 ppm where scaling
    before clamping would report more; at the high-resistance clamp it
    reports 0 where the curve is positive. *)
Lemma read_is_not_scale_then_clamp :
  let s := mkSensor MQ6 0 true 5000 60000 0 true in
  (exists rd, read s 70000 (Some (1023%Z, 4.95)) = inr rd /\
     resistance rd = 100 /\ 10000 < spec_curve s (resistance rd) /\
     ppm rd = 3000 /\ ppm rd < spec_reported s (resistance rd)) /\
  (exists rd, read s 70000 (Some (0%Z, 0)) = inr rd /\
     resistance rd = 1000000 /\
     ppm rd = 0 /\ ppm rd < spec_reported s (resistance rd)).
Proof.
  cbn zeta. set (s := mkSensor MQ6 0 true 5000 60000 0 true).
  assert (Hcurve : 10000 < spec_curve s 100).
  { unfold spec_curve. cbn [curve_a curve_b type calibration_ro s].
    assert (Hp : Rpower (100 / 5000) 2.5 < 100 / 5000).
    { rewrite <- (Rpower_1 (100 / 5000)) at 2 by lra.
      apply Rpower_base_lt_1; lra. }
    assert (Hpos : 0 < Rpower (100 / 5000) 2.5) by (unfold Rpower; apply exp_pos).
    apply Rmult_lt_reg_r with (Rpower (100 / 5000) 2.5); [assumption|].
    unfold Rdiv at 2. rewrite Rmult_assoc, Rinv_l by lra. lra. }
  split.
  - eexists. split; [reflexivity|]. cbn [resistance ppm].
    assert (Hres : calculateResistance s 4.95 = 100).
    { unfold calculateResistance. destruct (Rle_dec 4.95 0.01); [lra|].
      destruct (Rle_dec 4.9 4.95); [reflexivity|lra]. }
    rewrite Hres. split; [reflexivity|]. split; [exact Hcurve|].
    assert (Hppm : calculatePPM s 100 = 10000).
    { rewrite calculatePPM_curve by (cbn; lra).
      rewrite Rmin_left by lra. apply Rmax_right. lra. }
    assert (Hrep : Rmax 0 (applySensorCorrections s (calculatePPM s 100)) = 3000).
    { unfold applySensorCorrections. rewrite sensitivity_fixed, Hppm.
      rewrite Rmax_right; lra. }
    rewrite Hrep. split; [reflexivity|].
    unfold spec_reported. rewrite sensitivity_fixed.
    apply Rlt_le_trans with (Rmin 10000 (spec_curve s 100 * 0.3)); [|apply Rmax_r].
    apply Rmin_glb_lt; lra.
  - eexists. split; [reflexivity|]. cbn [resistance ppm].
    assert (Hres : calculateResistance s 0 = 1000000).
    { unfold calculateResistance. destruct (Rle_dec 0 0.01); [reflexivity|lra]. }
    rewrite Hres. split; [reflexivity|].
    assert (Hppm : calculatePPM s 1000000 = 0).
    { unfold calculatePPM. destruct (Rle_dec 1000000 0); [reflexivity|].
      destruct (Rle_dec 1000000 1000000); [reflexivity|lra]. }
    assert (Hrep : Rmax 0 (applySensorCorrections s (calculatePPM s 1000000)) = 0).
    { unfold applySensorCorrections. rewrite Hppm. rewrite Rmax_right; lra. }
    rewrite Hrep. split; [reflexivity|].
    unfold spec_reported. rewrite sensitivity_fixed.
    pose proof (spec_curve_pos s 1000000).
    apply Rlt_le_trans with (Rmin 10000 (spec_curve s 1000000 * 0.3)); [|apply Rmax_r].
    apply Rmin_glb_lt; lra.
Qed.
End GasSensorFacts.

(* ===================================================================== *)
(** ** MCP3008: the range of a sample *)
(* ===================================================================== *)

Section MCP3008Facts.
Import MCP3008.
Local Open Scope Z_scope.

(** The two bit fields [rawValue] joins do not overlap. *)
Lemma rawValue_sum (byte1 byte2 : Z) :
  0 <= byte2 < 256 ->
  rawValue byte1 byte2 = 256 * (byte1 mod 4) + byte2.
Proof.
  intros Hb. unfold rawValue.
  change 3 with (Z.ones 2). rewrite Z.land_ones by lia.
  change (2 ^ 2) with 4.
  assert (Hm : 0 <= byte1 mod 4 < 4) by (apply Z.mod_pos_bound; lia).
  rewrite Z.shiftl_mul_pow2 by lia. change (2 ^ 8) with 256.
  rewrite <- Z.lxor_lor; [rewrite <- Z.add_nocarry_lxor; [lia|]|].
  all: apply Z.bits_inj'; intros n Hn; rewrite Z.land_spec, Z.bits_0;
       destruct (Z.ltb_spec n 8) as [Hlt|Hge].
  1,3: replace (byte1 mod 4 * 256) with (Z.shiftl (byte1 mod 4) 8)
         by (rewrite Z.shiftl_mul_pow2 by lia; reflexivity);
       rewrite Z.shiftl_spec_low by lia; reflexivity.
  all: assert (Hbit : Z.testbit byte2 n = false);
       [ destruct (Z.eq_dec byte2 0) as [->|Hnz]; [apply Z.bits_0|];
         apply Z.bits_above_log2; [lia|];
         apply Z.log2_lt_pow2; [lia|];
         apply Z.lt_le_trans with (2 ^ 8); [change (2 ^ 8) with 256; lia|];
         apply Z.pow_le_mono_r; lia
       | rewrite Hbit; apply andb_false_r ].
Qed.

(** Whatever bytes the converter answers, a sample is a 10-bit value, its
    voltage is below the 3.3 V reference and its percentage below 100. *)
Theorem spi_sample_in_range
    (d : Device) (channel : Z) (transfer : list Z -> option (Z * Z * Z))
    (random : Q) (byte0 byte1 byte2 : Z) :
  isInitialized d = true -> hasSpiDevice d = true ->
  0 <= channel < 8 ->
  transfer [commandByte channel; 0; 0] = Some (byte0, byte1, byte2) ->
  0 <= byte2 < 256 ->
  exists rd,
    readChannel d channel transfer random = inr rd /\
    raw rd = 256 * (byte1 mod 4) + byte2 /\
    0 <= raw rd <= 1023 /\
    (0 <= voltage rd)%Q /\ (voltage rd < 33 # 10)%Q /\
    (0 <= percentage rd)%Q /\ (percentage rd < 100)%Q.
Proof.
  intros Hi Hs Hc Ht Hb. unfold readChannel. rewrite Hi, Hs. cbn [negb].
  assert (E : (channel <? 0) || (channels <=? channel) = false).
  { unfold channels. apply orb_false_iff. split; [apply Z.ltb_ge|apply Z.leb_gt]; lia. }
  rewrite E, Ht. eexists. split; [reflexivity|].
  cbn [raw voltage percentage toReading].
  rewrite (rawValue_sum byte1 byte2 Hb).
  assert (Hm : 0 <= byte1 mod 4 < 4) by (apply Z.mod_pos_bound; lia).
  set (v := 256 * (byte1 mod 4) + byte2).
  assert (Hv : 0 <= v <= 1023) by (unfold v; lia).
  split; [reflexivity|]. split; [exact Hv|].
  assert (Hq0 : (0 <= inject_Z v)%Q).
  { change 0%Q with (inject_Z 0). rewrite <- Zle_Qle. lia. }
  assert (Hq1 : (inject_Z v < 1024)%Q).
  { change 1024%Q with (inject_Z 1024). rewrite <- Zlt_Qlt. lia. }
  unfold resolution, referenceVoltage. change (inject_Z 1024) with 1024%Q.
  assert (Hd0 : (0 <= inject_Z v / 1024)%Q) by (apply Qle_shift_div_l; lra).
  assert (Hd1 : (inject_Z v / 1024 < 1)%Q) by (apply Qlt_shift_div_r; lra).
  repeat split; lra.
Qed.

Lemma spi_sample_in_range_witness :
  let d := mkDevice true true in
  let transfer := fun _ : list Z => Some (0, 255, 255) in
  exists rd,
    readChannel d 3 transfer 0 = inr rd /\ raw rd = 1023 /\
    (voltage rd < 33 # 10)%Q.
Proof.
  cbn zeta.
  destruct (spi_sample_in_range (mkDevice true true) 3
              (fun _ : list Z => Some (0, 255, 255)) 0 0 255 255
              eq_refl eq_refl ltac:(lia) eq_refl ltac:(lia))
    as (rd & Hrd & Hraw & _ & _ & Hv & _).
  exists rd. split; [exact Hrd|]. split; [rewrite Hraw; reflexivity|exact Hv].
Defined.

(** The command byte of a valid channel is 16 * channel + 1, so the eight
    channels have eight different command bytes; a channel outside 0..7 is
    refused before anything is sent. *)
Theorem command_byte_of_channel (d : Device) (channel : Z)
    (transfer : list Z -> option (Z * Z * Z)) (random : Q) :
  isInitialized d = true ->
  (0 <= channel < 8 -> commandByte channel = 16 * channel + 1) /\
  (channel < 0 \/ 8 <= channel ->
   readChannel d channel transfer random = inl (InvalidChannel channel)).
Proof.
  intros Hi. split.
  - intros Hc. unfold commandByte. cbn zeta.
    assert (Hcases : channel = 0 \/ channel = 1 \/ channel = 2 \/ channel = 3 \/
                     channel = 4 \/ channel = 5 \/ channel = 6 \/ channel = 7) by lia.
    repeat (destruct Hcases as [-> | Hcases]; [reflexivity|]). subst. reflexivity.
  - intros Hc. unfold readChannel. rewrite Hi. cbn [negb].
    assert (E : (channel <? 0) || (channels <=? channel) = true).
    { unfold channels. apply orb_true_iff.
      destruct Hc; [left; apply Z.ltb_lt|right; apply Z.leb_le]; lia. }
    rewrite E. reflexivity.
Qed.

Lemma command_byte_of_channel_witness :
  commandByte 5 = 81 /\
  readChannel (mkDevice true true) 8 (fun _ => Some (0, 0, 0)) 0
    = inl (InvalidChannel 8).
Proof.
  destruct (command_byte_of_channel (mkDevice true true) 5
              (fun _ => Some (0, 0, 0)) 0 eq_refl) as [H5 _].
  destruct (command_byte_of_channel (mkDevice true true) 8
              (fun _ => Some (0, 0, 0)) 0 eq_refl) as [_ H8].
  split; [apply H5; lia|apply H8; lia].
Defined.

End MCP3008Facts.

(** *** Further properties of the conversion and of calibration *)

Section GasSensorMore.
Import GasSensor.
Local Open Scope R_scope.

Ltac lra := Lra.lra.
Ltac nra := Lra.nra.

Lemma calculateResistance_antitone (s : Sensor) (v1 v2 : R) :
  0 < calibration_ro s -> v1 <= v2 ->
  calculateResistance s v2 <= calculateResistance s v1.
Proof.
  intros Hro Hv.
  pose proof (calculateResistance_range s v1) as [L1 U1].
  pose proof (calculateResistance_range s v2) as [L2 U2].
  unfold calculateResistance in *.
  destruct (Rle_dec v1 0.01) as [H1|H1].
  { destruct (Rle_dec v2 0.01); [lra|]. destruct (Rle_dec 4.9 v2); [lra|]. exact U2. }
  destruct (Rle_dec v2 0.01) as [H2|H2]; [lra|].
  destruct (Rle_dec 4.9 v2) as [H3|H3].
  { destruct (Rle_dec 4.9 v1); [lra|]. exact L1. }
  destruct (Rle_dec 4.9 v1) as [H4|H4]; [lra|].
  apply clamp_mono.
  assert (Hv1 : 0 < v1) by lra. assert (Hv2 : 0 < v2) by lra.
  apply Rmult_le_reg_r with (v1 * v2); [nra|].
  replace ((5.0 - v2) * calibration_ro s / v2 * (v1 * v2))
    with ((5.0 - v2) * calibration_ro s * v1) by (field; lra).
  replace ((5.0 - v1) * calibration_ro s / v1 * (v1 * v2))
    with ((5.0 - v1) * calibration_ro s * v2) by (field; lra).
  nra.
Qed.

(** The resistance computed from a voltage lies in [100, 1e6] ohms, is
    1e6 up to 0.01 V and 100 from 4.9 V on, and with a positive baseline
    does not increase when the voltage does. *)
Theorem resistance_clamped_and_antitone (s : Sensor) (v1 v2 : R) :
  0 < calibration_ro s -> v1 <= v2 ->
  100 <= calculateResistance s v2 <= calculateResistance s v1 /\
  calculateResistance s v1 <= 1000000 /\
  (v1 <= 0.01 -> calculateResistance s v1 = 1000000) /\
  (4.9 <= v2 -> calculateResistance s v2 = 100).
Proof.
  intros Hro Hv.
  pose proof (calculateResistance_range s v1) as [L1 U1].
  pose proof (calculateResistance_range s v2) as [L2 U2].
  split; [split; [exact L2|apply calculateResistance_antitone; assumption]|].
  split; [exact U1|]. split.
  - intros H. unfold calculateResistance. destruct (Rle_dec v1 0.01); [reflexivity|lra].
  - intros H. unfold calculateResistance. destruct (Rle_dec v2 0.01); [lra|].
    destruct (Rle_dec 4.9 v2); [reflexivity|lra].
Qed.

Lemma resistance_clamped_and_antitone_witness :
  let s := mkSensor MQ6 0 true 5000 60000 0 true in
  calculateResistance s 3 <= calculateResistance s 1 /\
  calculateResistance s 0.005 = 1000000 /\ calculateResistance s 4.95 = 100.
Proof.
  cbn zeta. split; [|split].
  - apply (resistance_clamped_and_antitone (mkSensor MQ6 0 true 5000 60000 0 true) 1 3);
      cbn; lra.
  - apply (resistance_clamped_and_antitone (mkSensor MQ6 0 true 5000 60000 0 true)
             0.005 0.005); cbn; lra.
  - apply (resistance_clamped_and_antitone (mkSensor MQ6 0 true 5000 60000 0 true)
             4.95 4.95); cbn; lra.
Defined.

(** [calculatePPM] does not increase with the resistance over the range
    [calculateResistance] produces. *)
Lemma calculatePPM_antitone_on_range (s : Sensor) (r1 r2 : R) :
  100 <= r1 -> r1 <= r2 -> r2 <= 1000000 ->
  calculatePPM s r2 <= calculatePPM s r1.
Proof.
  intros H1 H12 H2.
  destruct (Rle_dec (calibration_ro s) 0) as [Hno|Hro].
  { rewrite !calculatePPM_uncalibrated by assumption. lra. }
  apply Rnot_le_lt in Hro.
  destruct (Rle_dec 1000000 r2) as [Hbig|Hsmall].
  - replace (calculatePPM s r2) with 0; [apply calculatePPM_nonneg|].
    unfold calculatePPM. destruct (Rle_dec r2 0); [reflexivity|].
    destruct (Rle_dec 1000000 r2); [reflexivity|lra].
  - rewrite !calculatePPM_curve by lra.
    apply clamp_mono. apply spec_curve_antitone; [assumption|lra].
Qed.

(** The concentration a read reports does not decrease when the measured
    voltage increases (positive baseline, sensor preheated). *)
Theorem reported_ppm_monotone_in_voltage
    (s : Sensor) (now raw1 raw2 : Z) (v1 v2 : R) :
  isInitialized s = true -> isPreheated s = true ->
  0 < calibration_ro s -> v1 <= v2 ->
  exists rd1 rd2,
    read s now (Some (raw1, v1)) = inr rd1 /\
    read s now (Some (raw2, v2)) = inr rd2 /\
    ppm rd1 <= ppm rd2.
Proof.
  intros Hi Hp Hro Hv. unfold read. rewrite Hi, Hp. cbn [negb].
  eexists. eexists. split; [reflexivity|]. split; [reflexivity|]. cbn [ppm].
  pose proof (calculateResistance_range s v2) as [L2 _].
  pose proof (calculateResistance_range s v1) as [_ U1].
  pose proof (calculateResistance_antitone s v1 v2 Hro Hv) as H21.
  pose proof (calculatePPM_antitone_on_range s _ _ L2 H21 U1) as Hppm.
  unfold applySensorCorrections. rewrite sensitivity_fixed.
  apply Rle_max_compat_l. lra.
Qed.

Lemma reported_ppm_monotone_in_voltage_witness :
  let s := mkSensor MQ2 1 true 5000 60000 0 true in
  exists rd1 rd2,
    read s 70000 (Some (310%Z, 1)) = inr rd1 /\
    read s 70000 (Some (620%Z, 2)) = inr rd2 /\
    ppm rd1 <= ppm rd2.
Proof.
  cbn zeta.
  apply (reported_ppm_monotone_in_voltage (mkSensor MQ2 1 true 5000 60000 0 true)
           70000 310 620 1 2); [reflexivity|reflexivity|cbn; lra|lra].
Defined.

(** Before the preheat timer has fired a read never yields a reading: it
    fails with the remaining time in whole seconds, which is not negative
    and covers what is left of the preheat time. *)
Theorem read_while_preheating (s : Sensor) (now : Z) (adc : option (Z * R)) :
  isInitialized s = true -> isPreheated s = false ->
  exists n,
    read s now adc = inl (StillPreheating n) /\
    (0 <= n)%Z /\
    (preheatTime s - (now - preheatStartTime s) <= 1000 * n)%Z /\
    (1000 * n < Z.max 0 (preheatTime s - (now - preheatStartTime s)) + 1000)%Z.
Proof.
  intros Hi Hp. unfold read. rewrite Hi, Hp. cbn [negb].
  eexists. split; [reflexivity|].
  set (remaining := Z.max 0 (preheatTime s - (now - preheatStartTime s))).
  assert (Hr : (0 <= remaining)%Z) by (unfold remaining; lia).
  assert (Hm : (remaining <= preheatTime s - (now - preheatStartTime s)
                \/ preheatTime s - (now - preheatStartTime s) <= remaining)%Z) by lia.
  pose proof (Z.div_mod (remaining + 999) 1000 ltac:(lia)) as Hdm.
  pose proof (Z.mod_pos_bound (remaining + 999) 1000 ltac:(lia)) as Hmod.
  assert (Hge : (preheatTime s - (now - preheatStartTime s) <= remaining)%Z)
    by (unfold remaining; lia).
  repeat split; lia.
Qed.

Lemma read_while_preheating_witness :
  read (mkSensor MQ6 0 true 5000 60000 1000 false) 16500 (Some (200%Z, 1))
    = inl (StillPreheating 45).
Proof.
  destruct (read_while_preheating (mkSensor MQ6 0 true 5000 60000 1000 false)
              16500 (Some (200%Z, 1)) eq_refl eq_refl) as (n & Hn & H0 & H1 & H2).
  rewrite Hn. f_equal. f_equal. cbn in H1, H2. lia.
Defined.

(** *** Calibration *)

Lemma takeReadings_range (s : Sensor) (adc : nat -> option (Z * R))
    (count k : nat) (now : Z) (readings : list R) :
  takeReadings s now adc k count = inr readings ->
  length readings = count /\ Forall (fun r => 100 <= r <= 1000000) readings.
Proof.
  revert k now readings. induction count as [|n IH]; intros k now readings H; cbn in H.
  - injection H as <-. split; [reflexivity|constructor].
  - destruct (read s now (adc k)) as [e|rd] eqn:Hread; [discriminate|].
    destruct (takeReadings s (now + 1000) adc (S k) n) as [e|rs] eqn:Hrest;
      [discriminate|].
    injection H as <-. destruct (IH _ _ _ Hrest) as [Hlen Hall].
    split; [cbn; rewrite Hlen; reflexivity|]. constructor; [|exact Hall].
    unfold read in Hread.
    destruct (negb (isInitialized s)); [discriminate|].
    destruct (negb (isPreheated s)); [discriminate|].
    destruct (adc k) as [[rv v]|]; [|discriminate].
    injection Hread as <-. cbn [resistance]. apply calculateResistance_range.
Qed.

Lemma fold_left_Rplus_bounds (l : list R) (acc lo hi : R) :
  Forall (fun r => lo <= r <= hi) l ->
  acc + INR (length l) * lo <= fold_left Rplus l acc <= acc + INR (length l) * hi.
Proof.
  revert acc. induction l as [|x l IH]; intros acc H.
  - cbn. lra.
  - apply Forall_cons_1 in H as [Hx Hl]. specialize (IH (acc + x) Hl).
    cbn [fold_left length]. rewrite S_INR. nra.
Qed.

(** A successful auto-calibration takes ten readings and sets the
    baseline to their average, which lies in [100, 1e6] ohms: it can
    never leave the sensor with a baseline that is zero or negative. *)
Theorem autoCalibrate_baseline_in_range
    (s s' : Sensor) (now : Z) (adc : nat -> option (Z * R))
    (readings : list R) (avg : R) :
  autoCalibrate s now adc = inr (s', readings, avg) ->
  length readings = 10%nat /\
  calibration_ro s' = avg /\ avg = sumReadings readings / 10 /\
  100 <= calibration_ro s' <= 1000000.
Proof.
  unfold autoCalibrate. intros H.
  destruct (negb (isInitialized s) || negb (isPreheated s)); [discriminate|].
  destruct (takeReadings s now adc 0 10) as [e|rs] eqn:Hrs; [discriminate|].
  destruct (takeReadings_range _ _ _ _ _ _ Hrs) as [Hlen Hall].
  unfold calibrate in H.
  destruct (negb (isInitialized s)); [discriminate|].
  destruct (negb (isPreheated s)); [discriminate|].
  injection H as <- <- <-. cbn [set_ro calibration_ro].
  assert (H10 : INR 10 = 10) by (cbn; lra).
  split; [exact Hlen|]. rewrite Hlen, H10.
  split; [reflexivity|]. split; [reflexivity|].
  pose proof (fold_left_Rplus_bounds rs 0 100 1000000 Hall) as Hb.
  rewrite Hlen, H10 in Hb. unfold sumReadings. lra.
Qed.

Lemma autoCalibrate_baseline_in_range_witness :
  let s := mkSensor MQ6 0 true 5000 60000 0 true in
  exists s' readings avg,
    autoCalibrate s 70000 (fun _ => Some (775%Z, 2.5)) = inr (s', readings, avg) /\
    100 <= calibration_ro s' <= 1000000.
Proof.
  cbn zeta.
  destruct (autoCalibrate (mkSensor MQ6 0 true 5000 60000 0 true) 70000
              (fun _ => Some (775%Z, 2.5))) as [e|[[s' readings] avg]] eqn:H.
  - exfalso. unfold autoCalibrate in H. cbn in H. discriminate H.
  - exists s', readings, avg. split; [reflexivity|].
    apply (autoCalibrate_baseline_in_range _ _ _ _ _ _ H).
Defined.

(** Calibration is refused before the sensor has finished preheating,
    by [calibrate] and by [autoCalibrate] alike, and the baseline stays
    as it was. *)
Theorem calibration_needs_preheat
    (s : Sensor) (now : Z) (ro : R) (adc : nat -> option (Z * R)) :
  isPreheated s = false ->
  (exists e, calibrate ro s = inl e) /\ autoCalibrate s now adc = inl CalNotReady.
Proof.
  intros Hp. unfold autoCalibrate, calibrate. rewrite Hp. cbn [negb].
  rewrite orb_true_r. split; [|reflexivity].
  destruct (negb (isInitialized s)); eexists; reflexivity.
Qed.

Lemma calibration_needs_preheat_witness :
  autoCalibrate (mkSensor MQ2 1 true 5000 60000 0 false) 30000
    (fun _ => Some (500%Z, 1.6)) = inl CalNotReady.
Proof.
  apply (calibration_needs_preheat (mkSensor MQ2 1 true 5000 60000 0 false)
           30000 4000 (fun _ => Some (500%Z, 1.6)) eq_refl).
Defined.

End GasSensorMore.

(* ===================================================================== *)
(** ** GPIOQueue: order, exclusion, spacing and the retry budget *)
(* ===================================================================== *)

Section GPIOQueueFacts.
Import GPIOQueue.
Local Open Scope Z_scope.

(** *** Reading a field after a write *)

Lemma queueOf_set_queue_eq (p : Z) (x : list Operation) (st : State) :
  queueOf (set_queue p x st) p = x.
Proof. unfold queueOf, set_queue. cbn. rewrite lookup_insert_eq. reflexivity. Qed.

Lemma queueOf_set_queue_ne (q p : Z) (x : list Operation) (st : State) :
  q <> p -> queueOf (set_queue q x st) p = queueOf st p.
Proof. intros H. unfold queueOf, set_queue. cbn. rewrite lookup_insert_ne by exact H. reflexivity. Qed.

Lemma queueOf_set_processing (q p : Z) (x : bool) (st : State) :
  queueOf (set_processing q x st) p = queueOf st p.
Proof. reflexivity. Qed.

Lemma queueOf_set_lastOperation (q p : Z) (x : Z) (st : State) :
  queueOf (set_lastOperation q x st) p = queueOf st p.
Proof. reflexivity. Qed.

Lemma queueOf_set_worker (q p : Z) (x : option Worker) (st : State) :
  queueOf (set_worker q x st) p = queueOf st p.
Proof. reflexivity. Qed.

Lemma queueOf_emit (q p : Z) (x : Event) (st : State) :
  queueOf (emit q x st) p = queueOf st p.
Proof. reflexivity. Qed.

Lemma queueOf_fresh_id (p : Z) (st : State) : queueOf (fresh_id st) p = queueOf st p.
Proof. reflexivity. Qed.

Lemma queueOf_advance (p dt : Z) (st : State) : queueOf (advance dt st) p = queueOf st p.
Proof. reflexivity. Qed.

Lemma isProcessing_set_queue (q p : Z) (x : list Operation) (st : State) :
  isProcessing (set_queue q x st) p = isProcessing st p.
Proof. reflexivity. Qed.

Lemma isProcessing_set_processing_eq (p : Z) (x : bool) (st : State) :
  isProcessing (set_processing p x st) p = x.
Proof. unfold isProcessing, set_processing. cbn. rewrite lookup_insert_eq. reflexivity. Qed.

Lemma isProcessing_set_processing_ne (q p : Z) (x : bool) (st : State) :
  q <> p -> isProcessing (set_processing q x st) p = isProcessing st p.
Proof. intros H. unfold isProcessing, set_processing. cbn. rewrite lookup_insert_ne by exact H. reflexivity. Qed.

Lemma isProcessing_set_lastOperation (q p : Z) (x : Z) (st : State) :
  isProcessing (set_lastOperation q x st) p = isProcessing st p.
Proof. reflexivity. Qed.

Lemma isProcessing_set_worker (q p : Z) (x : option Worker) (st : State) :
  isProcessing (set_worker q x st) p = isProcessing st p.
Proof. reflexivity. Qed.

Lemma isProcessing_emit (q p : Z) (x : Event) (st : State) :
  isProcessing (emit q x st) p = isProcessing st p.
Proof. reflexivity. Qed.

Lemma isProcessing_fresh_id (p : Z) (st : State) : isProcessing (fresh_id st) p = isProcessing st p.
Proof. reflexivity. Qed.

Lemma isProcessing_advance (p dt : Z) (st : State) : isProcessing (advance dt st) p = isProcessing st p.
Proof. reflexivity. Qed.

Lemma lastOp_set_queue (q p : Z) (x : list Operation) (st : State) :
  lastOp (set_queue q x st) p = lastOp st p.
Proof. reflexivity. Qed.

Lemma lastOp_set_processing (q p : Z) (x : bool) (st : State) :
  lastOp (set_processing q x st) p = lastOp st p.
Proof. reflexivity. Qed.

Lemma lastOp_set_lastOperation_eq (p : Z) (x : Z) (st : State) :
  lastOp (set_lastOperation p x st) p = x.
Proof. unfold lastOp, set_lastOperation. cbn. rewrite lookup_insert_eq. reflexivity. Qed.

Lemma lastOp_set_lastOperation_ne (q p : Z) (x : Z) (st : State) :
  q <> p -> lastOp (set_lastOperation q x st) p = lastOp st p.
Proof. intros H. unfold lastOp, set_lastOperation. cbn. rewrite lookup_insert_ne by exact H. reflexivity. Qed.

Lemma lastOp_set_worker (q p : Z) (x : option Worker) (st : State) :
  lastOp (set_worker q x st) p = lastOp st p.
Proof. reflexivity. Qed.

Lemma lastOp_emit (q p : Z) (x : Event) (st : State) :
  lastOp (emit q x st) p = lastOp st p.
Proof. reflexivity. Qed.

Lemma lastOp_fresh_id (p : Z) (st : State) : lastOp (fresh_id st) p = lastOp st p.
Proof. reflexivity. Qed.

Lemma lastOp_advance (p dt : Z) (st : State) : lastOp (advance dt st) p = lastOp st p.
Proof. reflexivity. Qed.

Lemma workerOf_set_queue (q p : Z) (x : list Operation) (st : State) :
  workerOf (set_queue q x st) p = workerOf st p.
Proof. reflexivity. Qed.

Lemma workerOf_set_processing (q p : Z) (x : bool) (st : State) :
  workerOf (set_processing q x st) p = workerOf st p.
Proof. reflexivity. Qed.

Lemma workerOf_set_lastOperation (q p : Z) (x : Z) (st : State) :
  workerOf (set_lastOperation q x st) p = workerOf st p.
Proof. reflexivity. Qed.

Lemma workerOf_set_worker_eq (p : Z) (x : option Worker) (st : State) :
  workerOf (set_worker p x st) p = x.
Proof. unfold workerOf, set_worker. destruct x; cbn; [apply lookup_insert_eq|apply lookup_delete_eq]. Qed.

Lemma workerOf_set_worker_ne (q p : Z) (x : option Worker) (st : State) :
  q <> p -> workerOf (set_worker q x st) p = workerOf st p.
Proof. intros H. unfold workerOf, set_worker. destruct x; cbn; [apply lookup_insert_ne|apply lookup_delete_ne]; exact H. Qed.

Lemma workerOf_emit (q p : Z) (x : Event) (st : State) :
  workerOf (emit q x st) p = workerOf st p.
Proof. reflexivity. Qed.

Lemma workerOf_fresh_id (p : Z) (st : State) : workerOf (fresh_id st) p = workerOf st p.
Proof. reflexivity. Qed.

Lemma workerOf_advance (p dt : Z) (st : State) : workerOf (advance dt st) p = workerOf st p.
Proof. reflexivity. Qed.

Lemma traceOf_set_queue (q p : Z) (x : list Operation) (st : State) :
  traceOf (set_queue q x st) p = traceOf st p.
Proof. reflexivity. Qed.

Lemma traceOf_set_processing (q p : Z) (x : bool) (st : State) :
  traceOf (set_processing q x st) p = traceOf st p.
Proof. reflexivity. Qed.

Lemma traceOf_set_lastOperation (q p : Z) (x : Z) (st : State) :
  traceOf (set_lastOperation q x st) p = traceOf st p.
Proof. reflexivity. Qed.

Lemma traceOf_set_worker (q p : Z) (x : option Worker) (st : State) :
  traceOf (set_worker q x st) p = traceOf st p.
Proof. reflexivity. Qed.

Lemma traceOf_emit_eq (p : Z) (x : Event) (st : State) :
  traceOf (emit p x st) p = x :: traceOf st p.
Proof. unfold traceOf, emit. cbn. rewrite lookup_insert_eq. reflexivity. Qed.

Lemma traceOf_emit_ne (q p : Z) (x : Event) (st : State) :
  q <> p -> traceOf (emit q x st) p = traceOf st p.
Proof. intros H. unfold traceOf, emit. cbn. rewrite lookup_insert_ne by exact H. reflexivity. Qed.

Lemma traceOf_fresh_id (p : Z) (st : State) : traceOf (fresh_id st) p = traceOf st p.
Proof. reflexivity. Qed.

Lemma traceOf_advance (p dt : Z) (st : State) : traceOf (advance dt st) p = traceOf st p.
Proof. reflexivity. Qed.

Lemma clock_set_queue (q : Z) (x : list Operation) (st : State) :
  clock (set_queue q x st) = clock st.
Proof. reflexivity. Qed.

Lemma clock_set_processing (q : Z) (x : bool) (st : State) :
  clock (set_processing q x st) = clock st.
Proof. reflexivity. Qed.

Lemma clock_set_lastOperation (q : Z) (x : Z) (st : State) :
  clock (set_lastOperation q x st) = clock st.
Proof. reflexivity. Qed.

Lemma clock_set_worker (q : Z) (x : option Worker) (st : State) :
  clock (set_worker q x st) = clock st.
Proof. reflexivity. Qed.

Lemma clock_emit (q : Z) (x : Event) (st : State) :
  clock (emit q x st) = clock st.
Proof. reflexivity. Qed.

Lemma nextId_set_queue (q : Z) (x : list Operation) (st : State) :
  nextId (set_queue q x st) = nextId st.
Proof. reflexivity. Qed.

Lemma nextId_set_processing (q : Z) (x : bool) (st : State) :
  nextId (set_processing q x st) = nextId st.
Proof. reflexivity. Qed.

Lemma nextId_set_lastOperation (q : Z) (x : Z) (st : State) :
  nextId (set_lastOperation q x st) = nextId st.
Proof. reflexivity. Qed.

Lemma nextId_set_worker (q : Z) (x : option Worker) (st : State) :
  nextId (set_worker q x st) = nextId st.
Proof. reflexivity. Qed.

Lemma nextId_emit (q : Z) (x : Event) (st : State) :
  nextId (emit q x st) = nextId st.
Proof. reflexivity. Qed.

Lemma clock_fresh_id (st : State) : clock (fresh_id st) = clock st.
Proof. reflexivity. Qed.

Lemma nextId_fresh_id (st : State) : nextId (fresh_id st) = S (nextId st).
Proof. reflexivity. Qed.

Lemma clock_advance (dt : Z) (st : State) : clock (advance dt st) = clock st + dt.
Proof. reflexivity. Qed.

Lemma nextId_advance (dt : Z) (st : State) : nextId (advance dt st) = nextId st.
Proof. reflexivity. Qed.

Create Rewrite HintDb gpio.
Hint Rewrite queueOf_set_queue_eq queueOf_set_processing queueOf_set_lastOperation queueOf_set_worker queueOf_emit queueOf_fresh_id queueOf_advance isProcessing_set_queue isProcessing_set_processing_eq isProcessing_set_lastOperation isProcessing_set_worker isProcessing_emit isProcessing_fresh_id isProcessing_advance lastOp_set_queue lastOp_set_processing lastOp_set_lastOperation_eq lastOp_set_worker lastOp_emit lastOp_fresh_id lastOp_advance workerOf_set_queue workerOf_set_processing workerOf_set_lastOperation workerOf_set_worker_eq workerOf_emit workerOf_fresh_id workerOf_advance traceOf_set_queue traceOf_set_processing traceOf_set_lastOperation traceOf_set_worker traceOf_emit_eq traceOf_fresh_id traceOf_advance clock_set_queue clock_set_processing clock_set_lastOperation clock_set_worker clock_emit nextId_set_queue nextId_set_processing nextId_set_lastOperation nextId_set_worker nextId_emit clock_fresh_id nextId_fresh_id clock_advance nextId_advance : gpio.

(** *** Facts about traces *)

Lemma rejected_settled (tr : list Event) (id : nat) (t : Z) :
  In (Rejected id t) tr -> In id (settled tr).
Proof.
  induction tr as [|e tr IH]; [intros []|].
  intros [->|H].
  - cbn. apply in_or_app. right. left. reflexivity.
  - specialize (IH H). destruct e; cbn; try exact IH;
      apply in_or_app; left; exact IH.
Qed.

(** [Core] reads neither [processing] nor [workers]. *)
Lemma Core_set_worker (k : nat) (q p : Z) (w : option Worker) (st : State) :
  Core k p st -> Core k p (set_worker q w st).
Proof. intros [? ? ? ? ? ? ? ? ? ? ? ? ? ? ?]. split; autorewrite with gpio; assumption. Qed.

Lemma Core_set_processing (k : nat) (q p : Z) (b : bool) (st : State) :
  Core k p st -> Core k p (set_processing q b st).
Proof. intros [? ? ? ? ? ? ? ? ? ? ? ? ? ? ?]. split; autorewrite with gpio; assumption. Qed.

Lemma Inv_init (p t0 : Z) : Inv p (init t0).
Proof.
  split.
  - split; cbn; try done; try (intros; contradiction); try constructor.
  - unfold Sched. cbn. done.
Qed.

(** *** Steps on another pin, and the passing of time *)

Lemma Inv_frame (p : Z) (st st' : State) :
  same_at p st st' -> Inv p st -> Inv p st'.
Proof.
  intros (Hq & Hl & Ht & Hw & Hp & Hc & Hn) [HC HS]. split.
  - rewrite Hw. destruct HC. split; rewrite ?Hq, ?Hl, ?Ht; try assumption.
    + eapply Forall_impl; [eassumption|]. cbn. intros; lia.
    + intros id t ok Hin. specialize (c_time0 id t ok Hin). lia.
  - unfold Sched in *. rewrite Hw, Hp, Hq, Hl. exact HS.
Qed.

Ltac gpio_simpl :=
  repeat first
    [ progress autorewrite with gpio
    | rewrite queueOf_set_queue_ne by assumption
    | rewrite isProcessing_set_processing_ne by assumption
    | rewrite lastOp_set_lastOperation_ne by assumption
    | rewrite workerOf_set_worker_ne by assumption
    | rewrite traceOf_emit_ne by assumption ].

Ltac frame_tac :=
  unfold same_at; gpio_simpl; repeat split; first [reflexivity | lia].

Lemma loopHead_frame (q p : Z) (st : State) : q <> p -> same_at p st (loopHead q st).
Proof.
  intros Hne. unfold loopHead, startExec.
  destruct (queueOf st q); [frame_tac|].
  destruct (_ <? _); frame_tac.
Qed.

Lemma same_at_trans (p : Z) (a b c : State) :
  same_at p a b -> same_at p b c -> same_at p a c.
Proof.
  unfold same_at. intros (?&?&?&?&?&?&?) (?&?&?&?&?&?&?).
  repeat split; first [congruence | lia].
Qed.

Lemma step_frame (p : Z) (st st' : State) (l : Label) :
  match l with
  | LEnqueue q _ _ | LTimer q | LExecDone q _ => q <> p
  | LTick _ => True
  end ->
  step st l = Some st' -> same_at p st st'.
Proof.
  destruct l as [q v tmo|q|q ok|dt]; cbn [step]; intros Hne Hstep.
  - injection Hstep as <-. unfold enqueue, processQueue.
    destruct (negb _).
    + eapply same_at_trans; [|apply loopHead_frame; exact Hne]. frame_tac.
    + frame_tac.
  - unfold onTimer in Hstep.
    destruct (workerOf st q) as [[u|s|u]|]; try discriminate.
    + destruct (_ <=? _); [|discriminate].
      destruct (queueOf st q); [discriminate|].
      injection Hstep as <-. unfold startExec. frame_tac.
    + destruct (_ <=? _); [|discriminate].
      injection Hstep as <-. apply loopHead_frame; exact Hne.
  - unfold onExecDone in Hstep.
    destruct (workerOf st q) as [[u|s|u]|]; try discriminate.
    destruct (queueOf st q) as [|op rest]; [discriminate|].
    destruct ok.
    + injection Hstep as <-.
      eapply same_at_trans; [|apply loopHead_frame; exact Hne]. frame_tac.
    + destruct (_ <? _)%nat; injection Hstep as <-.
      * frame_tac.
      * eapply same_at_trans; [|apply loopHead_frame; exact Hne]. frame_tac.
  - destruct (0 <=? dt) eqn:E; [|discriminate]. injection Hstep as <-.
    apply Z.leb_le in E. frame_tac.
Qed.

(** *** Steps of the worker of the pin itself *)

(** The identifiers still queued are distinct from the settled ones and
    from each other. *)
Lemma queued_ids_fresh (k : nat) (p : Z) (st : State) (op : Operation) (rest : list Operation) :
  Core k p st -> queueOf st p = op :: rest ->
  ~ In (op_id op) (settled (traceOf st p)) /\ ~ In (op_id op) (map op_id rest).
Proof.
  intros HC Hq. pose proof (c_nodup _ _ _ HC) as Hnd.
  rewrite (c_fifo _ _ _ HC), Hq in Hnd. cbn [map] in Hnd.
  apply NoDup_ListNoDup in Hnd.
  apply List.NoDup_remove_2 in Hnd. split; intros Hin; apply Hnd;
    apply in_or_app; [left|right]; assumption.
Qed.

Lemma Core_startExec (p : Z) (st : State) (op : Operation) (rest : list Operation) :
  Core 0 p st -> queueOf st p = op :: rest ->
  (forall id t, In (WriteEnd id t true) (traceOf st p) -> t + minDelay <= clock st) ->
  Core 1 p (emit p (WriteStart (op_id op) (clock st)) st).
Proof.
  intros HC Hq Hsp.
  destruct (queued_ids_fresh _ _ _ _ _ HC Hq) as [Hns Hnr].
  destruct HC. split; gpio_simpl; cbn [enqueued settled starts ends alternates
    spaced oldest_first attempts]; try assumption.
  - rewrite c_flight0. lia.
  - rewrite Hq. discriminate.
  - split; [lia|assumption].
  - split; assumption.
  - intros id t [Hin|Hin]; [discriminate|eauto].
  - intros id t ok [Hin|Hin]; [discriminate|eauto].
  - split; [|assumption]. exists (map op_id rest). rewrite c_fifo0, Hq. reflexivity.
  - intros op' rest' Hq'. rewrite Hq in Hq'. injection Hq' as <- <-.
    rewrite Nat.eqb_refl. destruct (c_head0 _ _ Hq) as [Ha Hr]. lia.
  - intros op' rest' Hq'. rewrite Hq in Hq'. injection Hq' as <- <-.
    specialize (c_tail0 _ _ Hq).
    rewrite List.Forall_forall in *. intros o Ho.
    destruct (c_tail0 o Ho) as [Hr Ha]. split; [assumption|].
    destruct (Nat.eqb_spec (op_id op) (op_id o)) as [E|_]; [|lia].
    exfalso. apply Hnr. rewrite E. apply in_map. assumption.
  - intros id t [Hin|Hin]; [discriminate|].
    destruct (Nat.eqb_spec (op_id op) id) as [E|_].
    + exfalso. apply Hns. rewrite E. eapply rejected_settled; eassumption.
    + cbn. eauto.
  - intros id Hid. destruct (Nat.eqb_spec (op_id op) id) as [E|_].
    + rewrite c_fifo0, Hq, <- E. apply in_or_app. right. left. reflexivity.
    + apply c_started0. cbn in Hid. exact Hid.
Qed.

Lemma loopHead_inv (p : Z) (st : State) :
  Core 0 p st -> (queueOf st p <> [] -> isProcessing st p = true) ->
  Inv p (loopHead p st).
Proof.
  intros HC Hproc. unfold loopHead.
  destruct (queueOf st p) as [|op rest] eqn:Hq.
  - split; unfold Sched; gpio_simpl; cbn [in_flight].
    + apply Core_set_worker, Core_set_processing, HC.
    + split; [reflexivity|exact Hq].
  - destruct (clock st - lastOp st p <? minDelay) eqn:Hd.
    + split; unfold Sched; gpio_simpl; cbn [in_flight].
      * apply Core_set_worker, HC.
      * rewrite Hq. split; [apply Hproc; discriminate|]. split; [discriminate|lia].
    + apply Z.ltb_ge in Hd. unfold startExec.
      split; unfold Sched; gpio_simpl; cbn [in_flight].
      * apply Core_set_worker. eapply Core_startExec; [exact HC|exact Hq|].
        intros id t Hin. pose proof (c_last _ _ _ HC id t Hin). lia.
      * rewrite Hq. split; [apply Hproc; discriminate|]. split; [discriminate|exact I].
Qed.

Lemma attempts_unstarted (k : nat) (p : Z) (st : State) :
  Core k p st -> attempts (nextId st) (traceOf st p) = 0%nat.
Proof.
  intros HC. destruct (Nat.eq_dec (attempts (nextId st) (traceOf st p)) 0%nat) as [E|E];
    [exact E|].
  apply (c_started _ _ _ HC) in E.
  pose proof (c_ids _ _ _ HC) as Hids. rewrite List.Forall_forall in Hids.
  specialize (Hids _ E). lia.
Qed.

Lemma Core_enqueue (k : nat) (p v tmo : Z) (st : State) :
  Core k p st ->
  Core k p (emit p (Enqueued (nextId st) (clock st))
              (set_queue p (queueOf st p ++ [mkOp (nextId st) p v tmo 0 2])
                 (fresh_id st))).
Proof.
  intros HC. pose proof (attempts_unstarted _ _ _ HC) as Hfresh.
  destruct HC. split; gpio_simpl; cbn [enqueued settled starts ends alternates
    spaced oldest_first attempts]; try assumption.
  - rewrite c_fifo0, map_app, app_assoc. reflexivity.
  - apply Forall_app. split.
    + eapply Forall_impl; [eassumption|]. cbn. intros; lia.
    + constructor; [lia|constructor].
  - apply NoDup_app. split; [exact c_nodup0|]. split; [|apply NoDup_singleton].
    intros x Hx Hx'. apply list_elem_of_singleton in Hx'. subst x.
    apply list_elem_of_In in Hx.
    rewrite List.Forall_forall in c_ids0. specialize (c_ids0 _ Hx). lia.
  - intros E. destruct (queueOf st p); discriminate.
  - intros id t [Hin|Hin]; [discriminate|eauto].
  - intros id t ok [Hin|Hin]; [discriminate|eauto].
  - apply Forall_app. split; [assumption|]. constructor; [reflexivity|constructor].
  - intros op rest Hq. destruct (queueOf st p) as [|op0 rest0] eqn:Hq0.
    + cbn in Hq. injection Hq as <- <-. cbn.
      rewrite Hfresh, (c_empty0 eq_refl). split; lia.
    + cbn in Hq. injection Hq as <- <-. eauto.
  - intros op rest Hq. destruct (queueOf st p) as [|op0 rest0] eqn:Hq0.
    + cbn in Hq. injection Hq as <- <-. constructor.
    + cbn in Hq. injection Hq as <- <-. apply Forall_app. split; [eauto|].
      constructor; [|constructor]. cbn. split; [reflexivity|exact Hfresh].
  - intros id t [Hin|Hin]; [discriminate|eauto].
  - intros id Hid. apply in_or_app. left. auto.
Qed.

Lemma Core_success (p : Z) (st : State) (op : Operation) (rest : list Operation) :
  Core 1 p st -> queueOf st p = op :: rest ->
  Core 0 p (set_queue p rest
              (emit p (Resolved (op_id op) (clock st))
                 (set_lastOperation p (clock st)
                    (emit p (WriteEnd (op_id op) (clock st) true) st)))).
Proof.
  intros HC Hq. destruct HC. split; gpio_simpl; cbn [enqueued settled starts ends
    alternates spaced oldest_first attempts]; try assumption.
  - rewrite c_fifo0, Hq, <- app_assoc. reflexivity.
  - rewrite c_flight0. lia.
  - reflexivity.
  - split; [lia|assumption].
  - intros id t [Hin|[Hin|Hin]]; [discriminate|injection Hin; lia|].
    eapply c_time0; eassumption.
  - intros id t ok [Hin|[Hin|Hin]]; [discriminate|injection Hin; lia|eauto].
  - rewrite Hq in c_budget0. eapply Forall_inv_tail; eassumption.
  - intros op' rest' ->. specialize (c_tail0 _ _ Hq).
    apply List.Forall_inv in c_tail0. destruct c_tail0 as [Hr Ha].
    rewrite Hr, Ha. split; lia.
  - intros op' rest' ->. specialize (c_tail0 _ _ Hq).
    eapply Forall_inv_tail; eassumption.
  - intros id t [Hin|[Hin|Hin]]; [discriminate|discriminate|eauto].
Qed.

Lemma Core_retry (p : Z) (st : State) (op : Operation) (rest : list Operation) :
  Core 1 p st -> queueOf st p = op :: rest ->
  (S (retries op) < maxRetries op)%nat ->
  Core 0 p (set_queue p
              (mkOp (op_id op) (pin op) (value op) (timeout op)
                 (S (retries op)) (maxRetries op) :: rest)
              (emit p (WriteEnd (op_id op) (clock st) false) st)).
Proof.
  intros HC Hq Hlt.
  assert (Hmax : maxRetries op = 2%nat).
  { pose proof (c_budget _ _ _ HC) as Hb. rewrite Hq in Hb.
    exact (List.Forall_inv Hb). }
  destruct HC. split; gpio_simpl; cbn [enqueued settled starts ends
    alternates spaced oldest_first attempts]; try assumption.
  - rewrite c_fifo0, Hq. reflexivity.
  - rewrite c_flight0. lia.
  - reflexivity.
  - split; [lia|assumption].
  - intros id t [Hin|Hin]; [discriminate|eauto].
  - intros id t ok [Hin|Hin]; [injection Hin; lia|eauto].
  - rewrite Hq in c_budget0. constructor; [exact Hmax|].
    eapply Forall_inv_tail; eassumption.
  - intros op' rest' Hq'. injection Hq' as <- <-. cbn.
    destruct (c_head0 _ _ Hq) as [Ha Hr]. rewrite Ha. split; lia.
  - intros op' rest' Hq'. injection Hq' as <- <-. eauto.
  - intros id t [Hin|Hin]; [discriminate|eauto].
Qed.

Lemma Core_reject (p : Z) (st : State) (op : Operation) (rest : list Operation) :
  Core 1 p st -> queueOf st p = op :: rest ->
  ~ (S (retries op) < maxRetries op)%nat ->
  Core 0 p (set_queue p rest
              (emit p (Rejected (op_id op) (clock st))
                 (emit p (WriteEnd (op_id op) (clock st) false) st))).
Proof.
  intros HC Hq Hge.
  assert (Hmax : maxRetries op = 2%nat).
  { pose proof (c_budget _ _ _ HC) as Hb. rewrite Hq in Hb.
    exact (List.Forall_inv Hb). }
  destruct HC. split; gpio_simpl; cbn [enqueued settled starts ends
    alternates spaced oldest_first attempts]; try assumption.
  - rewrite c_fifo0, Hq, <- app_assoc. reflexivity.
  - rewrite c_flight0. lia.
  - reflexivity.
  - split; [lia|assumption].
  - intros id t [Hin|[Hin|Hin]]; [discriminate|discriminate|eauto].
  - intros id t ok [Hin|[Hin|Hin]]; [discriminate|injection Hin; lia|eauto].
  - rewrite Hq in c_budget0. eapply Forall_inv_tail; eassumption.
  - intros op' rest' ->. specialize (c_tail0 _ _ Hq).
    apply List.Forall_inv in c_tail0. destruct c_tail0 as [Hr Ha].
    rewrite Hr, Ha. split; lia.
  - intros op' rest' ->. specialize (c_tail0 _ _ Hq).
    eapply Forall_inv_tail; eassumption.
  - intros id t [Hin|[Hin|Hin]]; [|discriminate|eauto].
    injection Hin as <- _. destruct (c_head0 _ _ Hq) as [Ha Hr]. lia.
Qed.

Lemma enqueue_inv (p v tmo : Z) (st : State) : Inv p st -> Inv p (enqueue p v tmo st).
Proof.
  intros [HC HS]. unfold enqueue. cbn zeta. cbn [op_id].
  pose proof (Core_enqueue _ p v tmo st HC) as HC'.
  set (st2 := emit p _ _) in *.
  assert (Hw : workerOf st2 p = workerOf st p) by (unfold st2; gpio_simpl; reflexivity).
  assert (Hp : isProcessing st2 p = isProcessing st p) by (unfold st2; gpio_simpl; reflexivity).
  unfold Sched in HS. rewrite Hp.
  destruct (workerOf st p) as [w|] eqn:Ew.
  - destruct HS as (Hproc & Hne & Hd). rewrite Hproc. cbn [negb].
    split; [rewrite Hw; exact HC'|].
    unfold Sched. rewrite Hw, Hp. split; [exact Hproc|].
    split; [unfold st2; gpio_simpl; destruct (queueOf st p); discriminate|].
    unfold st2; gpio_simpl. exact Hd.
  - destruct HS as (Hproc & Hq). rewrite Hproc. cbn [negb].
    unfold processQueue. apply loopHead_inv.
    + apply Core_set_processing. exact HC'.
    + intros _. gpio_simpl. reflexivity.
Qed.

Lemma onTimer_inv (p : Z) (st st' : State) :
  Inv p st -> onTimer p st = Some st' -> Inv p st'.
Proof.
  intros [HC HS] Hstep. unfold onTimer in Hstep. unfold Sched in HS.
  destruct (workerOf st p) as [[u|s|u]|] eqn:Ew; try discriminate;
    cbn [in_flight] in HC; destruct HS as (Hproc & Hne & Hd).
  - destruct (u <=? clock st) eqn:Hu; [|discriminate]. apply Z.leb_le in Hu.
    destruct (queueOf st p) as [|op rest] eqn:Hq; [discriminate|].
    injection Hstep as <-. unfold startExec.
    split; unfold Sched; gpio_simpl; cbn [in_flight].
    + apply Core_set_worker. eapply Core_startExec; [exact HC|exact Hq|].
      intros id t Hin. pose proof (c_last _ _ _ HC id t Hin). lia.
    + rewrite Hq. split; [exact Hproc|]. split; [discriminate|exact I].
  - destruct (u <=? clock st); [|discriminate]. injection Hstep as <-.
    apply loopHead_inv; [exact HC|]. intros _. exact Hproc.
Qed.

Lemma onExecDone_inv (p : Z) (ok : bool) (st st' : State) :
  Inv p st -> onExecDone p ok st = Some st' -> Inv p st'.
Proof.
  intros [HC HS] Hstep. unfold onExecDone in Hstep. unfold Sched in HS.
  destruct (workerOf st p) as [[u|s|u]|] eqn:Ew; try discriminate.
  cbn [in_flight] in HC. destruct HS as (Hproc & Hne & _).
  destruct (queueOf st p) as [|op rest] eqn:Hq; [discriminate|].
  destruct ok.
  - injection Hstep as <-. gpio_simpl. apply loopHead_inv.
    + apply Core_success; assumption.
    + intros _. gpio_simpl. exact Hproc.
  - cbn [retries maxRetries] in Hstep.
    destruct (S (retries op) <? maxRetries op)%nat eqn:Hr; injection Hstep as <-.
    + apply Nat.ltb_lt in Hr.
      split; unfold Sched; gpio_simpl; cbn [in_flight].
      * apply Core_set_worker. apply Core_retry; assumption.
      * split; [exact Hproc|]. split; [discriminate|exact I].
    + apply Nat.ltb_ge in Hr. gpio_simpl. apply loopHead_inv.
      * apply Core_reject; [assumption|assumption|lia].
      * intros _. gpio_simpl. exact Hproc.
Qed.

Lemma step_inv (p : Z) (st st' : State) (l : Label) :
  Inv p st -> step st l = Some st' -> Inv p st'.
Proof.
  intros HI Hstep.
  destruct l as [q v tmo|q|q ok|dt].
  - destruct (decide (q = p)) as [->|Hne].
    + cbn in Hstep. injection Hstep as <-. apply enqueue_inv, HI.
    + eapply Inv_frame; [|exact HI]. eapply (step_frame p); [|exact Hstep]. exact Hne.
  - destruct (decide (q = p)) as [->|Hne].
    + eapply onTimer_inv; eassumption.
    + eapply Inv_frame; [|exact HI]. eapply (step_frame p); [|exact Hstep]. exact Hne.
  - destruct (decide (q = p)) as [->|Hne].
    + eapply onExecDone_inv; eassumption.
    + eapply Inv_frame; [|exact HI]. eapply (step_frame p); [|exact Hstep]. exact Hne.
  - eapply Inv_frame; [|exact HI]. eapply (step_frame p); [|exact Hstep]. exact I.
Qed.

Lemma run_inv (p : Z) (ls : list Label) (st st' : State) :
  Inv p st -> run st ls = Some st' -> Inv p st'.
Proof.
  revert st. induction ls as [|l ls IH]; intros st HI Hrun; cbn in Hrun.
  - injection Hrun as <-. exact HI.
  - destruct (step st l) as [st1|] eqn:Hs; [|discriminate].
    eapply IH; [|exact Hrun]. eapply step_inv; eassumption.
Qed.

(** *** The claims about the queue *)

(** C2.  Whatever callers enqueue and however the writes and timers of the
    event loop interleave (timers never firing early), on every pin the
    promises settle in submission order, every write is for the oldest
    unsettled operation, a write begins only when no write is in flight on
    that pin, and every write begins at least 100 ms ([minDelay]) after
    the end of every earlier successful write on that pin. *)
Theorem queue_serializes_writes (t0 : Z) (ls : list Label) (st : State) (p : Z) :
  run (init t0) ls = Some st ->
  fifo (traceOf st p) /\
  oldest_first (traceOf st p) /\
  alternates (traceOf st p) /\
  (starts (traceOf st p) <= ends (traceOf st p) + 1)%nat /\
  spaced (traceOf st p).
Proof.
  intros Hrun.
  destruct (run_inv p ls _ _ (Inv_init p t0) Hrun) as [HC _].
  split; [exists (map op_id (queueOf st p)); apply (c_fifo _ _ _ HC)|].
  split; [apply (c_oldest _ _ _ HC)|].
  split; [apply (c_alt _ _ _ HC)|].
  split; [|apply (c_spaced _ _ _ HC)].
  rewrite (c_flight _ _ _ HC).
  destruct (workerOf st p) as [[?|?|?]|]; cbn; lia.
Qed.

(** Three operations enqueued on pin 17, all written successfully: they
    settle in submission order, and the second and third writes start
    100 ms and 150 ms after the end of the write before them. *)
Lemma queue_serializes_writes_witness :
  exists st,
    run (init 1000000)
      [LEnqueue 17 1 2000; LEnqueue 17 0 2000; LEnqueue 17 1 2000;
       LTick 30; LExecDone 17 true;
       LTick 100; LTimer 17; LTick 20; LExecDone 17 true;
       LTick 150; LTimer 17; LExecDone 17 true] = Some st /\
    traceOf st 17 =
      [Resolved 2 1000300; WriteEnd 2 1000300 true; WriteStart 2 1000300;
       Resolved 1 1000150; WriteEnd 1 1000150 true; WriteStart 1 1000130;
       Resolved 0 1000030; WriteEnd 0 1000030 true;
       Enqueued 2 1000000; Enqueued 1 1000000;
       WriteStart 0 1000000; Enqueued 0 1000000] /\
    fifo (traceOf st 17) /\ spaced (traceOf st 17).
Proof.
  eexists. split; [vm_compute; reflexivity|].
  split; [vm_compute; reflexivity|].
  match goal with
  | |- fifo (traceOf ?s _) /\ _ =>
      destruct (queue_serializes_writes 1000000
        [LEnqueue 17 1 2000; LEnqueue 17 0 2000; LEnqueue 17 1 2000;
         LTick 30; LExecDone 17 true;
         LTick 100; LTimer 17; LTick 20; LExecDone 17 true;
         LTick 150; LTimer 17; LExecDone 17 true] s 17)
        as (Hf & _ & _ & _ & Hs); [vm_compute; reflexivity|]
  end.
  split; assumption.
Defined.

(** C4.  An operation whose promise is rejected has had its write
    attempted exactly twice: the first attempt and one retry.  The source
    increments [retries] before testing [retries < maxRetries] with
    [maxRetries = 2], so the second failure already exhausts the budget. *)
Theorem rejected_after_two_attempts
    (t0 : Z) (ls : list Label) (st : State) (p : Z) (id : nat) (t : Z) :
  run (init t0) ls = Some st ->
  In (Rejected id t) (traceOf st p) ->
  attempts id (traceOf st p) = 2%nat.
Proof.
  intros Hrun Hin.
  destruct (run_inv p ls _ _ (Inv_init p t0) Hrun) as [HC _].
  exact (c_rejected _ _ _ HC id t Hin).
Qed.

(** One operation on pin 17 whose write fails every time: after the first
    failure the worker backs off 100 ms, after the second it rejects the
    promise and removes the operation. *)
Lemma rejected_after_two_attempts_witness :
  exists st,
    run (init 1000000)
      [LEnqueue 17 1 2000; LTick 30; LExecDone 17 false;
       LTick 100; LTimer 17; LTick 30; LExecDone 17 false] = Some st /\
    traceOf st 17 =
      [Rejected 0 1000160; WriteEnd 0 1000160 false; WriteStart 0 1000130;
       WriteEnd 0 1000030 false; WriteStart 0 1000000; Enqueued 0 1000000] /\
    queueOf st 17 = [] /\
    attempts 0 (traceOf st 17) = 2%nat.
Proof.
  eexists. split; [vm_compute; reflexivity|].
  split; [vm_compute; reflexivity|].
  split; [vm_compute; reflexivity|].
  apply (rejected_after_two_attempts 1000000
           [LEnqueue 17 1 2000; LTick 30; LExecDone 17 false;
            LTick 100; LTimer 17; LTick 30; LExecDone 17 false] _ 17 0 1000160).
  - vm_compute; reflexivity.
  - vm_compute. left. reflexivity.
Defined.

End GPIOQueueFacts.

(** *** Further properties of the queue *)

Section GPIOQueueMore.
Import GPIOQueue.
Local Open Scope Z_scope.

(** When the worker of a pin is not running ([processing] false), nothing
    is left behind: the queue of the pin is empty, every operation ever
    enqueued on it has been settled, and no write is in flight. *)
Theorem idle_queue_is_drained (t0 : Z) (ls : list Label) (st : State) (p : Z) :
  run (init t0) ls = Some st ->
  isProcessing st p = false ->
  queueOf st p = [] /\
  enqueued (traceOf st p) = settled (traceOf st p) /\
  starts (traceOf st p) = ends (traceOf st p).
Proof.
  intros Hrun Hidle.
  destruct (run_inv p ls _ _ (Inv_init p t0) Hrun) as [HC HS].
  unfold Sched in HS. destruct (workerOf st p) as [w|].
  { destruct HS as (Hp & _). congruence. }
  destruct HS as (_ & Hq). split; [exact Hq|].
  pose proof (c_fifo _ _ _ HC) as Hf. rewrite Hq in Hf. cbn in Hf.
  rewrite app_nil_r in Hf. split; [exact Hf|].
  pose proof (c_flight _ _ _ HC) as Hfl. cbn in Hfl. lia.
Qed.

Lemma idle_queue_is_drained_witness :
  exists st,
    run (init 1000000)
      [LEnqueue 17 1 2000; LEnqueue 17 0 2000; LTick 30; LExecDone 17 true;
       LTick 100; LTimer 17; LTick 20; LExecDone 17 false;
       LTick 100; LTimer 17; LExecDone 17 true] = Some st /\
    isProcessing st 17 = false /\ queueOf st 17 = [] /\
    settled (traceOf st 17) = [0%nat; 1%nat].
Proof.
  eexists. split; [vm_compute; reflexivity|].
  split; [vm_compute; reflexivity|].
  match goal with
  | |- queueOf ?s _ = _ /\ _ =>
      destruct (idle_queue_is_drained 1000000
        [LEnqueue 17 1 2000; LEnqueue 17 0 2000; LTick 30; LExecDone 17 true;
         LTick 100; LTimer 17; LTick 20; LExecDone 17 false;
         LTick 100; LTimer 17; LExecDone 17 true] s 17)
        as (Hq & _ & _); [vm_compute; reflexivity|vm_compute; reflexivity|]
  end.
  split; [exact Hq|vm_compute; reflexivity].
Defined.

(** Pins are independent: a step of the event loop for one pin changes
    nothing of what another pin's queue, worker, last-operation time or
    trace hold. *)
Theorem other_pins_unaffected (st st' : State) (q p v tmo : Z) (ok : bool) (l : Label) :
  l = LEnqueue q v tmo \/ l = LTimer q \/ l = LExecDone q ok ->
  q <> p ->
  step st l = Some st' ->
  queueOf st' p = queueOf st p /\ workerOf st' p = workerOf st p /\
  isProcessing st' p = isProcessing st p /\ lastOp st' p = lastOp st p /\
  traceOf st' p = traceOf st p.
Proof.
  intros Hl Hne Hstep.
  assert (Hsame : same_at p st st').
  { apply (step_frame p st st' l); [|exact Hstep].
    destruct Hl as [-> | [-> | ->]]; exact Hne. }
  destruct Hsame as (Hq & Hlo & Ht & Hw & Hp & _ & _).
  repeat split; assumption.
Qed.

Lemma other_pins_unaffected_witness :
  exists st st',
    run (init 1000000) [LEnqueue 17 1 2000; LEnqueue 17 0 2000] = Some st /\
    step st (LEnqueue 22 1 2000) = Some st' /\
    queueOf st' 17 = queueOf st 17 /\ traceOf st' 17 = traceOf st 17 /\
    length (queueOf st' 17) = 2%nat.
Proof.
  eexists. eexists. split; [vm_compute; reflexivity|].
  split; [vm_compute; reflexivity|].
  match goal with
  | |- queueOf ?s' _ = queueOf ?s _ /\ _ =>
      destruct (other_pins_unaffected s s' 22 17 1 2000 true (LEnqueue 22 1 2000))
        as (Hq & _ & _ & _ & Ht);
        [left; reflexivity|discriminate|vm_compute; reflexivity|]
  end.
  split; [exact Hq|]. split; [exact Ht|vm_compute; reflexivity].
Defined.

(** The worker never gets stuck: in every reachable state in which a pin
    still has queued operations, its worker is suspended on a timer or on
    a write, and once enough time has passed the event it waits for can
    happen. *)
Theorem worker_never_stuck (t0 : Z) (ls : list Label) (st : State) (p : Z) :
  run (init t0) ls = Some st ->
  queueOf st p <> [] ->
  exists dt l st1 st2,
    0 <= dt /\ (l = LTimer p \/ l = LExecDone p true) /\
    step st (LTick dt) = Some st1 /\ step st1 l = Some st2.
Proof.
  intros Hrun Hne.
  destruct (run_inv p ls _ _ (Inv_init p t0) Hrun) as [_ HS].
  unfold Sched in HS.
  destruct (queueOf st p) as [|op rest] eqn:Hq; [contradiction|].
  destruct (workerOf st p) as [[u|s0|u]|] eqn:Ew.
  - exists (Z.max 0 (u - clock st)), (LTimer p). eexists. eexists.
    split; [lia|]. split; [left; reflexivity|].
    cbn [step]. assert (E : (0 <=? Z.max 0 (u - clock st)) = true) by (apply Z.leb_le; lia).
    rewrite E. split; [reflexivity|].
    unfold onTimer. rewrite ?workerOf_advance, ?queueOf_advance, ?clock_advance. rewrite Ew.
    assert (E2 : (u <=? clock st + Z.max 0 (u - clock st)) = true) by (apply Z.leb_le; lia).
    rewrite E2, Hq. reflexivity.
  - exists 0, (LExecDone p true). eexists. eexists.
    split; [lia|]. split; [right; reflexivity|].
    cbn [step]. cbn. split; [reflexivity|].
    unfold onExecDone. rewrite ?workerOf_advance, ?queueOf_advance, ?clock_advance.
    rewrite Ew, Hq. reflexivity.
  - exists (Z.max 0 (u - clock st)), (LTimer p). eexists. eexists.
    split; [lia|]. split; [left; reflexivity|].
    cbn [step]. assert (E : (0 <=? Z.max 0 (u - clock st)) = true) by (apply Z.leb_le; lia).
    rewrite E. split; [reflexivity|].
    unfold onTimer. rewrite ?workerOf_advance, ?queueOf_advance, ?clock_advance. rewrite Ew.
    assert (E2 : (u <=? clock st + Z.max 0 (u - clock st)) = true) by (apply Z.leb_le; lia).
    rewrite E2. reflexivity.
  - destruct HS as (_ & Hq'). discriminate Hq'.
Qed.

Lemma worker_never_stuck_witness :
  exists st dt l st1 st2,
    run (init 1000000) [LEnqueue 17 1 2000; LTick 30; LExecDone 17 false] = Some st /\
    workerOf st 17 = Some (AwaitBackoff 1000130) /\
    0 <= dt /\ (l = LTimer 17 \/ l = LExecDone 17 true) /\
    step st (LTick dt) = Some st1 /\ step st1 l = Some st2.
Proof.
  eexists.
  assert (Hrun : run (init 1000000) [LEnqueue 17 1 2000; LTick 30; LExecDone 17 false]
                 = Some ?[s]) by (vm_compute; reflexivity).
  destruct (worker_never_stuck _ _ _ 17 Hrun) as (dt & l & st1 & st2 & H);
    [vm_compute; discriminate|].
  exists dt, l, st1, st2. split; [exact Hrun|].
  split; [vm_compute; reflexivity|exact H].
Defined.

End GPIOQueueMore.
(* ===================================================================== *)
(** ** AlertManager: the cooldown *)
(* ===================================================================== *)

Section AlertManagerFacts.
Import HardwareManager AlertManager.
Local Open Scope Z_scope.

Lemma triggerSMSAlert_detection (now : Z) (lv : AlertLevel) (d : SensorData)
    (env : Env) (s : State) :
  detectionState (triggerSMSAlert now lv d env s) = detectionState s /\
  persistenceTimer (triggerSMSAlert now lv d env s) = persistenceTimer s.
Proof.
  unfold triggerSMSAlert.
  repeat match goal with
  | |- context [if ?b then _ else _] => destruct b
  end; split; reflexivity.
Qed.


(** Inside the cooldown the gate returns at once. *)
Lemma triggerSMSAlert_cooldown (now last : Z) (lv : AlertLevel) (d : SensorData)
    (env : Env) (s : State) :
  lastSMSTime (detectionState s) = Some last -> last <> 0 ->
  now - last < SMS_COOLDOWN ->
  triggerSMSAlert now lv d env s = s.
Proof.
  intros Hl Hnz Hc. unfold triggerSMSAlert.
  destruct (smsTriggered (detectionState s)); [reflexivity|].
  rewrite Hl. cbn [truthyZ]. destruct (Z.eqb_spec last 0); [contradiction|].
  assert (E : (now - last <? SMS_COOLDOWN) = true) by (apply Z.ltb_lt; exact Hc).
  rewrite E. reflexivity.
Qed.

(** What one resumption can do: it leaves the timer and the episode (its
    level, start, duration and count) alone; it writes [smsTriggered] and
    [lastSMSTime] exactly when the gateway has answered; it suspends the
    invocation again or ends it; and what it dispatches is for the level
    the invocation was started with. *)
Lemma resume_inv (now : Z) (k : nat) (inv : Invocation) (ans : Answer)
    (s s' : State) (out : list Effect) :
  resume now k inv ans s = Some (s', out) ->
  persistenceTimer s' = persistenceTimer s /\
  (level (detectionState s') = level (detectionState s) /\
   startTime (detectionState s') = startTime (detectionState s) /\
   duration (detectionState s') = duration (detectionState s) /\
   detectionCount (detectionState s') = detectionCount (detectionState s)) /\
  (ans = Sent ->
   smsTriggered (detectionState s') = true /\
   lastSMSTime (detectionState s') = Some now /\ out = []) /\
  (ans <> Sent -> detectionState s' = detectionState s) /\
  (inFlight s' = delete k (inFlight s) \/
   exists st, inFlight s' =
              <[k := mkInvocation (inv_level inv) (inv_data inv) st]> (inFlight s)) /\
  (forall cs lv loc, In (Dispatch cs lv loc) out -> lv = inv_level inv).
Proof.
  unfold resume, contactsReady, finish, suspend. intros H.
  repeat match type of H with
  | context [match ?x with _ => _ end] => destruct x
  end; try discriminate H; injection H as <- <-;
  cbn [detectionState persistenceTimer inFlight level startTime duration
       detectionCount smsTriggered lastSMSTime];
  (split; [reflexivity|]); (split; [repeat split|]);
  (split; [intros E; try discriminate E; repeat split|]);
  (split; [intros E; try reflexivity; contradiction|]);
  (split; [first [left; reflexivity|right; eexists; reflexivity]|]);
  intros cs' lv' loc' Hin; cbn in Hin;
  repeat (destruct Hin as [Hin|Hin]; [try discriminate Hin; injection Hin; congruence|]);
  contradiction.
Qed.

Lemma updateAlertLevel_inFlight (now : Z) (lv : AlertLevel) (d : SensorData) (s : State) :
  inFlight (updateAlertLevel now lv d s) = inFlight s.
Proof.
  unfold updateAlertLevel, resetDetectionState, startPersistenceTimer,
    clearPersistenceTimer.
  destruct s as [ds [tm|] fl]; cbn;
    destruct (negb (AlertLevel_eqb lv (level ds)));
    destruct (AlertLevel_eqb lv normal); reflexivity.
Qed.

Lemma step_untouched (s s' : State) (e : Event) (out : list Effect) :
  untouched s -> calm s [e] -> step s e = Some (s', out) -> untouched s'.
Proof.
  unfold untouched. intros HI [Hcalm _] Hstep. cbn [levelChangeIsCalm] in Hcalm. destruct e as [now lv d|now env|k now ans].
  - cbn in Hstep. injection Hstep as <- _. rewrite updateAlertLevel_inFlight.
    unfold updateAlertLevel.
    destruct (negb (AlertLevel_eqb lv (level (detectionState s)))) eqn:Hchg.
    + assert (Hne : lv <> level (detectionState s)).
      { intros ->. destruct (level (detectionState s)); discriminate Hchg. }
      specialize (Hcalm Hne).
      destruct (AlertLevel_eqb lv normal).
      * unfold resetDetectionState, clearPersistenceTimer, timerPending.
        destruct (persistenceTimer s); cbn; intros _; (split; [reflexivity|exact Hcalm]).
      * intros _. split; [|exact Hcalm]. destruct s as [ds [tm|] fl]; reflexivity.
    + destruct (negb (AlertLevel_eqb lv normal)); [|exact HI].
      unfold timerPending in *. cbn. exact HI.
  - cbn in Hstep. destruct (persistenceTimer s) as [tm|]; [|discriminate].
    destruct (pending tm && (fireAt tm <=? now)); [|discriminate].
    injection Hstep as <- _. unfold timerPending.
    destruct (triggerSMSAlert_detection now (timerLevel tm) (timerData tm) env
                (mkState (detectionState s)
                   (Some (mkTimer (fireAt tm) (timerLevel tm) (timerData tm) false))
                   (inFlight s))) as [_ Ht].
    rewrite Ht. cbn. discriminate.
  - cbn in Hstep. intros Hp.
    destruct (inFlight s !! k) as [inv|] eqn:Hk; [|discriminate].
    destruct (resume_inv _ _ _ _ _ _ _ Hstep) as (Htm & _).
    assert (Hp0 : timerPending s = true) by (unfold timerPending in *; rewrite <- Htm; exact Hp).
    destruct (HI Hp0) as [_ Hnone]. rewrite Hnone in Hk. discriminate Hk.
Qed.

Lemma run_untouched (es : list Event) (s s' : State) (out : list Effect) :
  untouched s -> calm s es -> run s es = Some (s', out) -> untouched s'.
Proof.
  revert s out. induction es as [|e es IH]; intros s out HI Hcalm Hrun; cbn in Hrun.
  - injection Hrun as <- _. exact HI.
  - destruct (step s e) as [[s1 o1]|] eqn:Hs; [|discriminate].
    destruct (run s1 es) as [[s2 o2]|] eqn:Hr; [|discriminate].
    injection Hrun as <- _. cbn [calm] in Hcalm. rewrite Hs in Hcalm.
    destruct Hcalm as [Hhead Htail].
    eapply IH; [|exact Htail|exact Hr].
    eapply step_untouched; [exact HI| |exact Hs].
    cbn [calm]. rewrite Hs. split; [exact Hhead|exact I].
Qed.

(** What holds of the claim.  A persistence timer that fires less than
    [SMS_COOLDOWN] = 300000 ms after the stored [lastSMSTime] (a clock
    reading, hence not 0) never starts a send: nothing is dispatched, no
    invocation is suspended and the detection state is left as it was.
    If moreover the level never changed while an invocation was
    suspended, [smsTriggered] is false for the episode. *)
Lemma cooldown_skips_dispatch
    (es : list Event) (s : State) (out : list Effect) (tm : Timer)
    (now last : Z) (env : Env) :
  run initialState es = Some (s, out) ->
  persistenceTimer s = Some tm -> pending tm = true -> fireAt tm <= now ->
  lastSMSTime (detectionState s) = Some last -> last <> 0 ->
  now - last < SMS_COOLDOWN ->
  exists s',
    step s (TimerFires now env) = Some (s', []) /\
    inFlight s' = inFlight s /\
    detectionState s' = detectionState s /\
    (calm initialState es ->
     smsTriggered (detectionState s') = false /\ inFlight s' = []).
Proof.
  intros Hrun Htm Hp Hdue Hlast Hnz Hcool.
  cbn [step]. rewrite Htm, Hp.
  assert (Hle : (fireAt tm <=? now) = true) by (apply Z.leb_le; exact Hdue).
  rewrite Hle. cbn [andb].
  rewrite (triggerSMSAlert_cooldown now last) by assumption.
  eexists. split; [reflexivity|]. cbn [inFlight detectionState].
  split; [reflexivity|]. split; [reflexivity|].
  intros Hcalm. eapply run_untouched; [|exact Hcalm|exact Hrun|].
  - intros H. discriminate H.
  - unfold timerPending. rewrite Htm. exact Hp.
Qed.

(** Two [critical] episodes 60000 ms apart, the send of the first one
    finished before the level returns to normal (which keeps
    [lastSMSTime]): the timer of the second episode fires inside the
    cooldown, nothing is dispatched and [smsTriggered] stays false. *)
Lemma cooldown_two_episodes_apart :
  exists s out s',
    run initialState
      [UpdateAlertLevel 1000000 critical sampleData; TimerFires 1005000 sampleEnv;
       Resumes 0 1005010 (GotSettings sampleSettings);
       Resumes 0 1005020 (GotContacts (Some []));
       Resumes 0 1005030 (GotContacts (Some []));
       Resumes 0 1005040 Sent; Resumes 0 1005050 (GotRecentAlert None);
       UpdateAlertLevel 1030000 normal sampleData;
       UpdateAlertLevel 1060000 critical sampleData]
      = Some (s, out) /\
    out = [Dispatch [mkContact 0 profile "Ana" "+15550100"] critical LocUnknown] /\
    lastSMSTime (detectionState s) = Some 1005040 /\
    step s (TimerFires 1065000 sampleEnv) = Some (s', []) /\
    smsTriggered (detectionState s') = false /\ inFlight s' = [].
Proof.
  eexists. eexists. eexists. split; [vm_compute; reflexivity|].
  split; [reflexivity|]. split; [reflexivity|].
  split; [vm_compute; reflexivity|]. split; reflexivity.
Qed.

(** C3.  The claim fails when the level changes while a send is in
    flight.  Let an invocation of [triggerSMSAlert] wait for the gateway
    while a new episode starts at [t0] (the level becomes [lv], other
    than [normal] and than the level held).  When the gateway answers at
    [t], the invocation writes [smsTriggered] and [lastSMSTime] on the
    detection state of the new episode.  The timer of that episode then
    fires inside the cooldown of the stored [lastSMSTime]: nothing is
    dispatched and no send is started, but [smsTriggered] is true for the
    episode, for which no message was handed to the gateway. *)
Theorem cooldown_episode_marked_by_earlier_send
    (s : State) (k : nat) (inv : Invocation) (cs : list Contact)
    (t0 t now : Z) (lv : AlertLevel) (d : SensorData) (env : Env) :
  inFlight s !! k = Some inv -> inv_stage inv = AwaitSend cs ->
  lv <> normal -> lv <> level (detectionState s) ->
  t0 + SMS_TRIGGER_DELAY <= now -> now - t < SMS_COOLDOWN ->
  exists s2 s3,
    step (updateAlertLevel t0 lv d s) (Resumes k t Sent) = Some (s2, []) /\
    level (detectionState s2) = lv /\
    startTime (detectionState s2) = Some t0 /\
    lastSMSTime (detectionState s2) = Some t /\
    step s2 (TimerFires now env) = Some (s3, []) /\
    inFlight s3 = inFlight s2 /\
    level (detectionState s3) = lv /\
    startTime (detectionState s3) = Some t0 /\
    smsTriggered (detectionState s3) = true.
Proof.
  intros Hk Hst Hlv Hne Hdue _.
  assert (E1 : AlertLevel_eqb lv (level (detectionState s)) = false)
    by (destruct lv, (level (detectionState s)); cbn; congruence).
  assert (E2 : AlertLevel_eqb lv normal = false) by (destruct lv; cbn; congruence).
  assert (Hle : (t0 + SMS_TRIGGER_DELAY <=? now) = true) by (apply Z.leb_le; exact Hdue).
  destruct inv as [ilv idata istage]. cbn in Hst. subst istage.
  assert (Hup : updateAlertLevel t0 lv d s =
                mkState (mkDetection lv (Some t0) 0 false
                           (lastSMSTime (detectionState s)) 1)
                  (Some (mkTimer (t0 + SMS_TRIGGER_DELAY) lv d true)) (inFlight s)).
  { unfold updateAlertLevel. rewrite E1. cbn [negb]. rewrite E2.
    destruct s as [ds [tm|] fl]; reflexivity. }
  rewrite Hup. cbn [step inFlight]. rewrite Hk.
  cbn [resume inv_stage suspend detectionState persistenceTimer inFlight
       level startTime duration detectionCount].
  eexists. eexists. split; [reflexivity|].
  unfold suspend.
  cbn [detectionState level startTime lastSMSTime persistenceTimer pending fireAt
       step inv_level inv_data inFlight].
  split; [reflexivity|]. split; [reflexivity|]. split; [reflexivity|].
  rewrite Hle. cbn [andb timerLevel timerData].
  unfold triggerSMSAlert. cbn [detectionState smsTriggered].
  split; [reflexivity|]. repeat split.
Qed.

(** A [critical] episode whose send is still with the gateway when the
    level drops to normal and rises again: the gateway answers one second
    into the second episode, whose timer then finds [smsTriggered] set. *)
Lemma cooldown_episode_marked_by_earlier_send_witness :
  exists s out s2 s3,
    run initialState
      [UpdateAlertLevel 1000000 critical sampleData; TimerFires 1005000 sampleEnv;
       Resumes 0 1005010 (GotSettings sampleSettings);
       Resumes 0 1005020 (GotContacts (Some []));
       Resumes 0 1005030 (GotContacts (Some []));
       UpdateAlertLevel 1006000 normal sampleData]
      = Some (s, out) /\
    out = [Dispatch [mkContact 0 profile "Ana" "+15550100"] critical LocUnknown] /\
    step (updateAlertLevel 1007000 critical sampleData s) (Resumes 0 1008000 Sent)
      = Some (s2, []) /\
    startTime (detectionState s2) = Some 1007000 /\
    lastSMSTime (detectionState s2) = Some 1008000 /\
    step s2 (TimerFires 1012000 sampleEnv) = Some (s3, []) /\
    smsTriggered (detectionState s3) = true.
Proof.
  assert (Hrun : run initialState
      [UpdateAlertLevel 1000000 critical sampleData; TimerFires 1005000 sampleEnv;
       Resumes 0 1005010 (GotSettings sampleSettings);
       Resumes 0 1005020 (GotContacts (Some []));
       Resumes 0 1005030 (GotContacts (Some []));
       UpdateAlertLevel 1006000 normal sampleData]
      = Some (?[s], ?[o])) by (vm_compute; reflexivity).
  match type of Hrun with
  | _ = Some (?x, _) =>
      destruct (cooldown_episode_marked_by_earlier_send x 0
                  (mkInvocation critical sampleData
                     (AwaitSend [mkContact 0 profile "Ana" "+15550100"]))
                  [mkContact 0 profile "Ana" "+15550100"]
                  1007000 1008000 1012000 critical sampleData sampleEnv)
        as (s2 & s3 & H1 & _ & H3 & H4 & H5 & _ & _ & _ & H9);
        [reflexivity|reflexivity|discriminate|discriminate
        |unfold SMS_TRIGGER_DELAY; lia|unfold SMS_COOLDOWN; lia|]
  end.
  eexists. eexists. exists s2, s3.
  split; [exact Hrun|]. split; [reflexivity|].
  split; [exact H1|]. split; [exact H3|]. split; [exact H4|].
  split; [exact H5|exact H9].
Defined.

End AlertManagerFacts.

(** *** Further properties of the notification gate *)

Section AlertManagerMore.
Import HardwareManager AlertManager.
Local Open Scope Z_scope.




Lemma step_timer_of_episode (s s' : State) (e : Event) (out : list Effect) :
  timer_of_episode s -> step s e = Some (s', out) -> timer_of_episode s'.
Proof.
  unfold timer_of_episode. intros HI Hstep.
  destruct e as [now lv d|now env|k now ans].
  - cbn in Hstep. injection Hstep as <- _. unfold updateAlertLevel.
    destruct (negb (AlertLevel_eqb lv _)) eqn:Hchg.
    + destruct (AlertLevel_eqb lv normal) eqn:Hn.
      * intros tm Htm. destruct s as [ds [t|] fl]; discriminate Htm.
      * intros tm Htm Hp.
        assert (Hlv : lv <> normal) by (destruct lv; cbn in Hn; congruence).
        destruct s as [ds [t|] fl]; cbn in *; injection Htm as <-; cbn;
          (split; [exact Hlv|]); (split; [reflexivity|]);
          f_equal; unfold SMS_TRIGGER_DELAY; lia.
    + destruct (negb (AlertLevel_eqb lv normal)); [|exact HI].
      cbn. exact HI.
  - cbn in Hstep. destruct (persistenceTimer s) as [tm0|]; [|discriminate].
    destruct (pending tm0 && (fireAt tm0 <=? now)); [|discriminate].
    injection Hstep as <- _. intros tm Htm Hp.
    destruct (triggerSMSAlert_detection now (timerLevel tm0) (timerData tm0) env
                (mkState (detectionState s)
                   (Some (mkTimer (fireAt tm0) (timerLevel tm0) (timerData tm0) false))
                   (inFlight s))) as [_ Ht].
    rewrite Ht in Htm. cbn in Htm. injection Htm as <-. discriminate Hp.
  - cbn in Hstep. destruct (inFlight s !! k) as [inv|]; [|discriminate].
    destruct (resume_inv _ _ _ _ _ _ _ Hstep) as (Htm & (Hl & Hs & _) & _).
    intros tm Ht Hp. rewrite Htm in Ht. rewrite Hl, Hs. exact (HI tm Ht Hp).
Qed.

Lemma run_timer_of_episode (es : list Event) (s s' : State) (out : list Effect) :
  timer_of_episode s -> run s es = Some (s', out) -> timer_of_episode s'.
Proof.
  revert s out. induction es as [|e es IH]; intros s out HI Hrun; cbn in Hrun.
  - injection Hrun as <- _. exact HI.
  - destruct (step s e) as [[s1 o1]|] eqn:Hs; [|discriminate].
    destruct (run s1 es) as [[s2 o2]|] eqn:Hr; [|discriminate].
    injection Hrun as <- _. eapply IH; [|exact Hr].
    eapply step_timer_of_episode; eassumption.
Qed.

Lemma initial_timer_of_episode : timer_of_episode initialState.
Proof. intros tm H. discriminate H. Qed.






(** Once the level is reported as [normal] again, the persistence timer
    of the episode can no longer fire: an episode that clears before the
    timer does never notifies anyone. *)
Theorem clearing_cancels_notification
    (es : list Event) (s : State) (out : list Effect)
    (now t : Z) (d : SensorData) (env : Env) :
  run initialState es = Some (s, out) ->
  step (updateAlertLevel now normal d s) (TimerFires t env) = None.
Proof.
  intros Hrun.
  pose proof (run_timer_of_episode _ _ _ _ initial_timer_of_episode Hrun) as HI.
  unfold updateAlertLevel.
  destruct (AlertLevel_eqb normal (level (detectionState s))) eqn:E; cbn [negb].
  - cbn [AlertLevel_eqb negb]. cbn [step].
    destruct (persistenceTimer s) as [tm|] eqn:Htm; [|reflexivity].
    destruct (pending tm) eqn:Hp; [|reflexivity].
    destruct (HI tm Htm Hp) as (Hlv & _).
    destruct (level (detectionState s)); cbn in E; congruence.
  - cbn [AlertLevel_eqb]. destruct s as [ds [tm|] fl]; reflexivity.
Qed.

(** Entering [low] and clearing 3000 ms later: the timer set for 5000 ms
    cannot fire any more. *)
Lemma clearing_cancels_notification_witness :
  exists s out,
    run initialState [UpdateAlertLevel 1000000 low sampleData] = Some (s, out) /\
    timerPending s = true /\
    step (updateAlertLevel 1003000 normal sampleData s)
      (TimerFires 1005000 sampleEnv) = None.
Proof.
  eexists. eexists. split; [vm_compute; reflexivity|].
  split; [reflexivity|].
  apply (clearing_cancels_notification
           [UpdateAlertLevel 1000000 low sampleData] _ []).
  vm_compute. reflexivity.
Defined.





End AlertManagerMore.

(* ===================================================================== *)
(** ** GPSAsync: the good-fix gate, reconnection, persistence *)
(* ===================================================================== *)

Section GPSAsyncFacts.
Import GPSAsync.
Local Open Scope Z_scope.

Lemma hdop_below_inv (o : option Q) (bound : Q) :
  hdop_below o bound = true -> exists h, o = Some h /\ (h < bound)%Q.
Proof.
  unfold hdop_below, truthyQ. destruct o as [h|]; [|discriminate].
  destruct (Qeq_bool h 0); [discriminate|].
  intros H. apply Qltb_true in H. exists h. split; [reflexivity|exact H].
Qed.

(** What [isGoodFix] checks. *)
Lemma isGoodFix_inv (s : State) :
  isGoodFix s = true ->
  let d := currentData s in
  fix_flag d = true /\ 4 <= satellites d /\ 1 <= fixQuality d /\
  (exists h, hdop d = Some h /\ (h < 5)%Q) /\
  (exists a, accuracy d = Some a /\ a < 50).
Proof.
  unfold isGoodFix. cbn zeta. intros H.
  repeat (apply andb_prop in H; destruct H as [H ?]).
  repeat split; try assumption; try (apply Z.leb_le; assumption).
  - apply hdop_below_inv; assumption.
  - unfold truthyZ in *. destruct (accuracy (currentData s)) as [a|]; [|discriminate].
    destruct (a =? 0); [discriminate|].
    exists a. split; [reflexivity|apply Z.ltb_lt; assumption].
Qed.

(** C5.  Decoding a position sentence either leaves the last-known
    location untouched and schedules no write of the file, or the decoded
    reading passes the good-fix gate (fix flag, satellites >= 4, fix
    quality >= 1, hdop < 5, accuracy < 50), becomes the last-known
    location and is scheduled to be written.  A sentence carrying fewer
    than 4 satellites (3 in particular) is always in the first case,
    whatever its hdop and fix quality. *)
Theorem good_fix_gate (js : Builtins) (now : Z) (sentence : string) (s : State) :
  let r := parseGGA js now sentence s in
  let d := currentData (fst r) in
  ((lastKnownLocation (fst r) = lastKnownLocation s /\ ~ In SaveScheduled (snd r)) \/
   (fix_flag d = true /\ 4 <= satellites d /\ 1 <= fixQuality d /\
    (exists h, hdop d = Some h /\ (h < 5)%Q) /\
    (exists a, accuracy d = Some a /\ a < 50) /\
    lastKnownLocation (fst r) =
      Some (mkLastKnown (latitude d) (longitude d) (altitude d) (accuracy d)
              (satellites d) (hdop d) (signalStrength (fst r)) now) /\
    In SaveScheduled (snd r))) /\
  (sentenceSatellites js sentence < 4 ->
   lastKnownLocation (fst r) = lastKnownLocation s /\ ~ In SaveScheduled (snd r)).
Proof.
  cbn zeta. unfold parseGGA, sentenceSatellites.
  set (parts := split_comma sentence).
  destruct (length parts <? 15)%nat.
  { cbn. split; [left|intros _]; (split; [reflexivity|intros []]). }
  destruct (convertToDecimalDegrees js (part parts 2) (part parts 3)) as [la|].
  2:{ cbn. split; [left|intros _]; (split; [reflexivity|intros []]). }
  destruct (convertToDecimalDegrees js (part parts 4) (part parts 5)) as [lo|].
  2:{ cbn. split; [left|intros _]; (split; [reflexivity|intros []]). }
  set (quality := default 0 (truthyZ (parseInt js (part parts 6)))).
  set (sats := default 0 (truthyZ (parseInt js (part parts 7)))).
  set (hd := truthyQ (parseFloat js (part parts 8))).
  set (alt := truthyQ (parseFloat js (part parts 9))).
  set (s1 := updateSignalStrength quality sats hd (set_currentData _ s)).
  assert (Hsat : satellites (currentData s1) = sats) by reflexivity.
  destruct ((0 <? quality) && (3 <=? sats) && isGoodFix s1) eqn:Hgate.
  - apply andb_prop in Hgate as [_ Hgood].
    pose proof (isGoodFix_inv s1 Hgood) as Hinv. cbn zeta in Hinv.
    unfold updateLastKnownLocation.
    destruct (truthyZ (timeToFirstFix _)) as [t|];
      [|destruct (truthyZ (acquisitionStartTime _)) as [t0|]];
      cbn [fst snd app];
      (split;
       [right; destruct Hinv as (H1 & H2 & H3 & H4 & H5);
        repeat split; try assumption; try reflexivity; left; reflexivity
       |intros Hlt; exfalso;
        destruct Hinv as (_ & H2 & _); rewrite Hsat in H2; lia]).
  - cbn [fst snd app].
    split; [left|intros _]; (split; [reflexivity|]);
      intros [Hin|[]]; discriminate Hin.
Qed.

(** A sentence with 3 satellites, hdop 1.0 and fix quality 1 is decoded
    (the live fix is updated) but not promoted. *)
Lemma three_satellites_not_promoted :
  let sentence :=
    "$GPGGA,123519,4807.038,N,01131.000,E,1,03,1.0,545.4,M,46.9,M,,*47"%string in
  let r := parseGGA decimalBuiltins 1000 sentence initialState in
  satellites (currentData (fst r)) = 3 /\
  fixQuality (currentData (fst r)) = 1 /\
  hdop (currentData (fst r)) = Some 1.0%Q /\
  fix_flag (currentData (fst r)) = true /\
  lastKnownLocation (fst r) = None.
Proof. cbn zeta. vm_compute. repeat split; reflexivity. Qed.

(** *** Reconnection *)

Lemma scheduleReconnect_delays (now : Z) (s : State) :
  Forall (fun d => d = reconnectDelay) (reconnectDelays (snd (scheduleReconnect now s))).
Proof.
  unfold scheduleReconnect. destruct (_ || _); cbn; repeat constructor.
Qed.

Lemma reconnectDelays_app (a b : list Effect) :
  reconnectDelays (a ++ b) = reconnectDelays a ++ reconnectDelays b.
Proof.
  induction a as [|e a IH]; [reflexivity|].
  destruct e; cbn; rewrite IH; reflexivity.
Qed.

Lemma connStep_delays (s s' : State) (e : ConnEvent) (out : list Effect) :
  connStep s e = Some (s', out) ->
  Forall (fun d => d = reconnectDelay) (reconnectDelays out).
Proof.
  destruct e as [now|now|now pr]; cbn [connStep]; intros H.
  1,2: injection H as H; unfold handleDisconnect in H;
       pose proof (scheduleReconnect_delays now (set_disconnected s)) as Hd;
       destruct (scheduleReconnect now (set_disconnected s)) as [s1 eff];
       injection H as _ <-; exact Hd.
  destruct (reconnectTimer s) as [due|]; [|discriminate].
  destruct (due <=? now); [|discriminate].
  injection H as H. unfold startAsyncConnection in H.
  destruct (connectToGPS now pr (set_reconnectTimer None s)) as [[s1 eff] ok] eqn:Hc.
  assert (Heff : reconnectDelays eff = []).
  { unfold connectToGPS in Hc. destruct (tryDevices _ _ _) as [[dev|] [|]];
      injection Hc as _ <- _; reflexivity. }
  destruct ok.
  - injection H as _ <-. rewrite Heff. constructor.
  - pose proof (scheduleReconnect_delays now s1) as Hd.
    destruct (scheduleReconnect now s1) as [s2 eff'].
    injection H as _ <-. rewrite reconnectDelays_app, Heff. exact Hd.
Qed.

Lemma handleDisconnect_marks (now : Z) (s : State) :
  let s' := fst (handleDisconnect now s) in
  isConnected s' = false /\ port s' = None /\ fix_flag (currentData s') = false.
Proof.
  cbn zeta. unfold handleDisconnect, scheduleReconnect.
  destruct (_ || _); cbn; repeat split; reflexivity.
Qed.

(** When no candidate device connects, the device loop fails. *)
Lemma tryDevices_none (pr : Probe) (devices : list string) (current : option string) :
  Forall (fun dev => connects pr dev = false) devices ->
  snd (tryDevices pr devices current) = false.
Proof.
  revert current. induction devices as [|d ds IH]; intros current H; [reflexivity|].
  apply Forall_cons_1 in H as [Hd Hds]. cbn [tryDevices].
  unfold connects in Hd.
  destruct (accessible pr d); [|exact (IH current Hds)].
  cbn [andb] in Hd. rewrite Hd. exact (IH (Some d) Hds).
Qed.

(** C6, as the code has it.  After any sequence of port errors, port
    closes and reconnect timers firing: every reconnect that was scheduled
    waits the same [reconnectDelay] = 5000 ms (the delay does not grow);
    the handler of a port error or close leaves the service marked
    disconnected, without port and without fix; once
    [connectionAttempts] has reached [maxConnectionAttempts] = 10 nothing
    more is scheduled; and below that maximum a reconnect is scheduled:
    by the handler of a port error or close (unless the service is
    shutting down or a reconnect is already pending), for 5000 ms later,
    and again for 5000 ms later by each reconnect attempt that finds no
    device. *)
Theorem reconnect_fixed_delay_until_max
    (s s' : State) (es : list ConnEvent) (out : list Effect) :
  connRun s es = Some (s', out) ->
  Forall (fun d => d = 5000) (reconnectDelays out) /\
  (forall now,
     let after := fst (handleDisconnect now s') in
     isConnected after = false /\ port after = None /\
     fix_flag (currentData after) = false) /\
  (forall now, 10 <= connectionAttempts s' -> scheduleReconnect now s' = (s', [])) /\
  (forall now,
     isShuttingDown s' = false -> reconnectTimer s' = None ->
     connectionAttempts s' < 10 ->
     snd (handleDisconnect now s') = [EmitDisconnected; ReconnectScheduled 5000] /\
     reconnectTimer (fst (handleDisconnect now s')) = Some (now + 5000)) /\
  (forall now due pr,
     isShuttingDown s' = false -> reconnectTimer s' = Some due -> due <= now ->
     Forall (fun dev => connects pr dev = false) possibleDevices ->
     connectionAttempts s' + 1 < 10 ->
     exists s'',
       connStep s' (ReconnectTimerFires now pr) = Some (s'', [ReconnectScheduled 5000]) /\
       connectionAttempts s'' = connectionAttempts s' + 1 /\
       reconnectTimer s'' = Some (now + 5000)).
Proof.
  intros Hrun. split; [|split; [|split; [|split]]].
  - revert s out Hrun. induction es as [|e es IH]; intros s out Hrun; cbn in Hrun.
    + injection Hrun as _ <-. constructor.
    + destruct (connStep s e) as [[s1 o1]|] eqn:Hs; [|discriminate].
      destruct (connRun s1 es) as [[s2 o2]|] eqn:Hr; [|discriminate].
      injection Hrun as Hs' <-. subst s2.
      rewrite reconnectDelays_app. apply Forall_app. split.
      * exact (connStep_delays _ _ _ _ Hs).
      * exact (IH _ _ Hr).
  - intros now. apply handleDisconnect_marks.
  - intros now Hmax. unfold scheduleReconnect.
    assert (E : (maxConnectionAttempts <=? connectionAttempts s') = true)
      by (apply Z.leb_le; exact Hmax).
    rewrite E, orb_true_r. reflexivity.
  - intros now Hdown Htm Hlt.
    unfold handleDisconnect, scheduleReconnect, set_disconnected.
    cbn [isShuttingDown reconnectTimer connectionAttempts].
    rewrite Hdown, Htm.
    assert (E : (maxConnectionAttempts <=? connectionAttempts s') = false)
      by (apply Z.leb_gt; unfold maxConnectionAttempts; lia).
    rewrite E. cbn. split; reflexivity.
  - intros now due pr Hdown Htm Hdue Hnone Hlt.
    cbn [connStep]. rewrite Htm.
    assert (Hle : (due <=? now) = true) by (apply Z.leb_le; exact Hdue).
    rewrite Hle. unfold startAsyncConnection, connectToGPS.
    pose proof (tryDevices_none pr possibleDevices
                  (port (set_connectionAttempts (connectionAttempts
                           (set_reconnectTimer None s') + 1)
                           (set_reconnectTimer None s'))) Hnone) as Hfail.
    destruct (tryDevices pr possibleDevices _) as [p ok]. cbn [snd] in Hfail. subst ok.
    assert (E : (maxConnectionAttempts <=? connectionAttempts s' + 1) = false)
      by (apply Z.leb_gt; unfold maxConnectionAttempts; lia).
    destruct p as [dev|]; unfold scheduleReconnect;
      cbn [isShuttingDown reconnectTimer connectionAttempts set_connectionAttempts
           set_reconnectTimer];
      rewrite Hdown, E; cbn; eexists; repeat split.
Qed.

(** A port error on a connected service, then ten reconnect attempts that
    find no device: ten reconnects are scheduled, 5000 ms each, and then
    none.  The port error itself schedules the first of them. *)
Lemma reconnect_fixed_delay_until_max_witness :
  (exists s' out,
    connRun connectedState tenFailures = Some (s', out) /\
    reconnectDelays out =
      [5000; 5000; 5000; 5000; 5000; 5000; 5000; 5000; 5000; 5000] /\
    connectionAttempts s' = 10 /\ reconnectTimer s' = None /\
    isConnected s' = false /\
    Forall (fun d => d = 5000) (reconnectDelays out) /\
    scheduleReconnect 60000 s' = (s', [])) /\
  snd (handleDisconnect 1000 connectedState)
    = [EmitDisconnected; ReconnectScheduled 5000].
Proof.
  split.
  - eexists. eexists. split; [vm_compute; reflexivity|].
    split; [vm_compute; reflexivity|].
    split; [vm_compute; reflexivity|].
    split; [vm_compute; reflexivity|].
    split; [vm_compute; reflexivity|].
    match goal with
    | |- Forall _ (reconnectDelays ?o) /\ scheduleReconnect _ ?s = _ =>
        destruct (reconnect_fixed_delay_until_max connectedState s tenFailures o)
          as (Hd & _ & Hstop & _); [vm_compute; reflexivity|]
    end.
    split; [exact Hd|]. apply Hstop. vm_compute. discriminate.
  - destruct (reconnect_fixed_delay_until_max connectedState connectedState [] [])
      as (_ & _ & _ & Hsched & _); [reflexivity|].
    apply (Hsched 1000); [reflexivity|reflexivity|vm_compute; reflexivity].
Defined.

(** The schedule is not the doubling one of the specification: the second
    and third delays equal the first. *)
Lemma reconnect_delays_not_exponential :
  exists s' out,
    connRun connectedState
      [PortError 1000; ReconnectTimerFires 6000 noDevice;
       ReconnectTimerFires 11000 noDevice] = Some (s', out) /\
    reconnectDelays out = [5000; 5000; 5000] /\
    ~ spec_exponential_backoff (reconnectDelays out).
Proof.
  eexists. eexists. split; [vm_compute; reflexivity|].
  split; [reflexivity|].
  intros (base & cap & Hb & Hcap & Hall).
  pose proof (Hall 0%nat 5000 eq_refl) as H0.
  pose proof (Hall 1%nat 5000 eq_refl) as H1.
  cbn in H0, H1. lia.
Qed.

(** *** The persistence file *)

(** The age shown for a cached position is not negative when the clock
    has not gone back since the location was taken. *)
Lemma getLocationAge_nonneg (now : Z) (l : LastKnown) :
  lk_timestamp l <= now -> 0 <= ageValue (getLocationAge now l).
Proof.
  intros H. unfold getLocationAge. cbn zeta.
  assert (H1 : 0 <= (now - lk_timestamp l) / 1000) by (apply Z.div_pos; lia).
  assert (H2 : 0 <= (now - lk_timestamp l) / 1000 / 60) by (apply Z.div_pos; lia).
  assert (H3 : 0 <= (now - lk_timestamp l) / 1000 / 60 / 60) by (apply Z.div_pos; lia).
  assert (H4 : 0 <= (now - lk_timestamp l) / 1000 / 60 / 60 / 24) by (apply Z.div_pos; lia).
  repeat (destruct (0 <? _)); cbn; assumption.
Qed.

(** Writing and reloading a last-known location whose latitude and
    longitude are numbers other than zero gives the same location back,
    served as a cached position with a non-negative age. *)
Lemma persist_reload_nonzero (s fresh : State) (l : LastKnown) (la lo : Q) (now : Z) :
  lastKnownLocation s = Some l ->
  lk_latitude l = Some (Num la) -> lk_longitude l = Some (Num lo) ->
  ~ (la == 0)%Q -> ~ (lo == 0)%Q ->
  fix_flag (currentData fresh) = false -> lk_timestamp l <= now ->
  let file := savePersistedLocation true s None in
  let restarted := fst (loadPersistedLocation file fresh) in
  lastKnownLocation restarted = Some l /\
  exists age, getCurrentLocation now restarted = Cached l age /\ 0 <= ageValue age.
Proof.
  intros Hl Hla Hlo Hnla Hnlo Hfix Hnow. cbn zeta.
  unfold savePersistedLocation. rewrite Hl.
  unfold loadPersistedLocation, stringify. cbn [p_latitude p_longitude].
  rewrite Hla, Hlo. cbn [json_number truthyQ].
  destruct (Qeq_bool la 0) eqn:Ea; [apply Qeq_bool_iff in Ea; contradiction|].
  destruct (Qeq_bool lo 0) eqn:Eo; [apply Qeq_bool_iff in Eo; contradiction|].
  cbn [fst option_map p_latitude p_longitude p_altitude p_accuracy p_satellites
       p_hdop p_signalStrength p_timestamp].
  assert (Hsame : mkLastKnown (Some (Num la)) (Some (Num lo)) (lk_altitude l)
                    (lk_accuracy l) (lk_satellites l) (lk_hdop l)
                    (lk_signalStrength l) (lk_timestamp l) = l).
  { destruct l; cbn in *. congruence. }
  rewrite Hsame. split; [reflexivity|].
  unfold getCurrentLocation. cbn. rewrite Hfix. cbn.
  eexists. split; [reflexivity|]. apply getLocationAge_nonneg. exact Hnow.
Qed.

(** C10.  A last-known location whose latitude or longitude is exactly 0
    is written to the file, but [loadPersistedLocation] tests
    [parsed.latitude && parsed.longitude], which is false for the number
    0: after a restart nothing is restored and the load returns
    [undefined]. *)
Theorem zero_coordinate_not_restored
    (s fresh : State) (l : LastKnown) (la lo : Q) :
  lastKnownLocation s = Some l ->
  lk_latitude l = Some (Num la) -> lk_longitude l = Some (Num lo) ->
  (la == 0)%Q \/ (lo == 0)%Q ->
  let file := savePersistedLocation true s None in
  file = Some (stringify l) /\
  loadPersistedLocation file fresh = (fresh, LoadedUndefined).
Proof.
  intros Hl Hla Hlo Hzero. cbn zeta.
  unfold savePersistedLocation. rewrite Hl. split; [reflexivity|].
  unfold loadPersistedLocation, stringify. cbn [p_latitude p_longitude].
  rewrite Hla, Hlo. cbn [json_number truthyQ].
  destruct Hzero as [Hz|Hz]; apply Qeq_bool_iff in Hz; rewrite Hz.
  - reflexivity.
  - destruct (Qeq_bool la 0); reflexivity.
Qed.

(** A good fix taken on the equator: it is promoted and written, and a
    service restarted on that file has no last-known location and no
    position to serve. *)
Lemma zero_coordinate_not_restored_witness :
  let sentence :=
    "$GPGGA,120000,0000.0000,N,01131.0000,E,1,08,0.9,545.4,M,46.9,M,,*47"%string in
  let s := fst (parseGGA decimalBuiltins 1000 sentence initialState) in
  let file := savePersistedLocation true s None in
  let restarted := fst (loadPersistedLocation file initialState) in
  (exists l, lastKnownLocation s = Some l /\ file = Some (stringify l) /\
             p_satellites (stringify l) = 8) /\
  lastKnownLocation restarted = None /\
  getCurrentLocation 2000 restarted = NoPosition.
Proof.
  cbn zeta.
  set (s := fst (parseGGA decimalBuiltins 1000 _ initialState)).
  destruct (lastKnownLocation s) as [l|] eqn:Hl; [|vm_compute in Hl; discriminate Hl].
  destruct (zero_coordinate_not_restored s initialState l
              (0 # 600000) (6910000 # 600000) Hl) as [Hfile Hload].
  - vm_compute in Hl. injection Hl as <-. reflexivity.
  - vm_compute in Hl. injection Hl as <-. reflexivity.
  - left. reflexivity.
  - split.
    + exists l. split; [reflexivity|]. split; [exact Hfile|].
      vm_compute in Hl. injection Hl as <-. reflexivity.
    + rewrite Hload. split; reflexivity.
Defined.

End GPSAsyncFacts.

(** *** Further properties of the position service *)

Section GPSAsyncMore.
Import GPSAsync.
Local Open Scope Z_scope.

Lemma join_comma_cons (w : string) (ws : list string) :
  ws <> [] -> join_comma (w :: ws) = (w ++ String "," (join_comma ws))%string.
Proof. destruct ws; [contradiction|reflexivity]. Qed.

Lemma join_comma_head (c : ascii) (w : string) (ws : list string) :
  join_comma (String c w :: ws) = String c (join_comma (w :: ws)).
Proof. destruct ws; reflexivity. Qed.

(** Splitting a sentence at its commas loses nothing: joining the parts
    with commas gives the sentence back, and there is always at least one
    part. *)
Theorem split_comma_join (s : string) :
  join_comma (split_comma s) = s /\ split_comma s <> [].
Proof.
  induction s as [|c rest [IH Hne]]; [split; [reflexivity|discriminate]|].
  cbn [split_comma]. destruct (Ascii.eqb c ","%char) eqn:Hc.
  - apply Ascii.eqb_eq in Hc. subst c. split; [|discriminate].
    rewrite join_comma_cons by exact Hne. rewrite IH. reflexivity.
  - destruct (split_comma rest) as [|w ws]; [contradiction|].
    split; [|discriminate].
    rewrite join_comma_head, IH. reflexivity.
Qed.

(** A coordinate in the southern or western hemisphere is the negation of
    the same text read for the northern or eastern one, whatever the two
    parsing functions do. *)
Theorem convert_south_west_negates (js : Builtins) (coord : string) :
  convertToDecimalDegrees js coord "S" = negateNum (convertToDecimalDegrees js coord "N") /\
  convertToDecimalDegrees js coord "W" = negateNum (convertToDecimalDegrees js coord "E").
Proof.
  unfold convertToDecimalDegrees.
  destruct (String.length coord <? 4)%nat; [split; reflexivity|].
  destruct (String.index 0 "." coord) as [k|]; [|split; reflexivity].
  destruct (k =? 4)%nat.
  { cbv zeta.
    destruct (parseInt js (String.substring 0 2 coord)),
             (parseFloat js (substring_from 2 coord)); split; reflexivity. }
  destruct (k =? 5)%nat; [|split; reflexivity].
  cbv zeta.
  destruct (parseInt js (String.substring 0 3 coord)),
           (parseFloat js (substring_from 3 coord)); split; reflexivity.
Qed.

Lemma round_mono (x y : Q) : (x <= y)%Q -> round x <= round y.
Proof. intros H. unfold round. apply Qfloor_resp_le. lra. Qed.

(** The accuracy estimate never gets worse with a lower hdop or with more
    satellites. *)
Theorem calculateAccuracy_monotone (hd1 hd2 : Q) (sats1 sats2 : Z) :
  (0 <= hd1)%Q -> (hd1 <= hd2)%Q -> sats2 <= sats1 ->
  0 <= calculateAccuracy hd1 sats1 <= calculateAccuracy hd2 sats2.
Proof.
  intros H0 H12 Hs. unfold calculateAccuracy. split.
  - change 0 with (round 0). apply round_mono.
    repeat (destruct (_ <=? sats1)); lra.
  - apply round_mono.
    destruct (Z.leb_spec 8 sats1), (Z.leb_spec 6 sats1), (Z.leb_spec 4 sats1),
             (Z.leb_spec 8 sats2), (Z.leb_spec 6 sats2), (Z.leb_spec 4 sats2);
      try lia; lra.
Qed.

Lemma calculateAccuracy_monotone_witness :
  calculateAccuracy (9 # 10) 8 = 2 /\ calculateAccuracy (25 # 10) 5 = 11 /\
  0 <= calculateAccuracy (9 # 10) 8 <= calculateAccuracy (25 # 10) 5.
Proof.
  split; [reflexivity|]. split; [reflexivity|].
  apply calculateAccuracy_monotone; [lra|lra|lia].
Defined.

(** A location is promoted to last-known only with a signal strength of
    fair or better, and it is stamped with the time of the sentence. *)
Theorem promoted_location_signal_at_least_fair
    (js : Builtins) (now : Z) (sentence : string) (s : State) :
  In SaveScheduled (snd (parseGGA js now sentence s)) ->
  exists l, lastKnownLocation (fst (parseGGA js now sentence s)) = Some l /\
            atLeastFair (lk_signalStrength l) = true /\
            lk_timestamp l = now.
Proof.
  unfold parseGGA.
  set (parts := split_comma sentence).
  destruct (length parts <? 15)%nat; [intros []|].
  destruct (convertToDecimalDegrees js (part parts 2) (part parts 3)) as [la|];
    [|intros []].
  destruct (convertToDecimalDegrees js (part parts 4) (part parts 5)) as [lo|];
    [|intros []].
  set (quality := default 0 (truthyZ (parseInt js (part parts 6)))).
  set (sats := default 0 (truthyZ (parseInt js (part parts 7)))).
  set (hd := truthyQ (parseFloat js (part parts 8))).
  set (alt := truthyQ (parseFloat js (part parts 9))).
  set (s1 := updateSignalStrength quality sats hd (set_currentData _ s)).
  destruct ((0 <? quality) && (3 <=? sats) && isGoodFix s1) eqn:Hgate.
  2:{ cbn [fst snd app]. intros [Hin|[]]. discriminate Hin. }
  intros _.
  apply andb_prop in Hgate as [Hfix Hgood].
  apply andb_prop in Hfix as [Hq _]. apply Z.ltb_lt in Hq.
  unfold isGoodFix in Hgood.
  repeat (apply andb_prop in Hgood; destruct Hgood as [Hgood ?]).
  assert (Hs4 : (4 <=? sats) = true) by assumption.
  assert (Hh5 : hdop_below hd 5 = true) by assumption.
  assert (Hsig : atLeastFair (signalStrength s1) = true).
  { unfold s1, updateSignalStrength. cbn [signalStrength set_signalStrength].
    replace (quality =? 0) with false by (symmetry; apply Z.eqb_neq; lia).
    replace (sats <? 3) with false
      by (symmetry; apply Z.ltb_ge; apply Z.leb_le in Hs4; lia).
    cbn [orb]. rewrite Hs4, Hh5.
    destruct ((8 <=? sats) && hdop_below hd 2); [reflexivity|].
    destruct ((6 <=? sats) && hdop_below hd 3); reflexivity. }
  unfold updateLastKnownLocation.
  eexists. split.
  - destruct (truthyZ (timeToFirstFix _)) as [t|];
      [|destruct (truthyZ (acquisitionStartTime _)) as [t0|]]; reflexivity.
  - split; [exact Hsig|reflexivity].
Qed.

Lemma promoted_location_signal_at_least_fair_witness :
  let sentence :=
    "$GPGGA,123519,4807.038,N,01131.000,E,1,08,0.9,545.4,M,46.9,M,,*47"%string in
  In SaveScheduled (snd (parseGGA decimalBuiltins 1000 sentence initialState)) /\
  exists l, lastKnownLocation (fst (parseGGA decimalBuiltins 1000 sentence initialState))
              = Some l /\
            atLeastFair (lk_signalStrength l) = true /\ lk_timestamp l = 1000.
Proof.
  cbn zeta. split; [vm_compute; left; reflexivity|].
  apply promoted_location_signal_at_least_fair. vm_compute. left. reflexivity.
Defined.

Lemma parseRMC_keeps_position (js : Builtins) (sentence : string) (s : State) :
  let s' := parseRMC js sentence s in
  lastKnownLocation s' = lastKnownLocation s /\
  latitude (currentData s') = latitude (currentData s) /\
  longitude (currentData s') = longitude (currentData s).
Proof.
  cbn zeta. unfold parseRMC. destruct (_ <? _)%nat; [repeat split|].
  destruct (String.eqb _ _); repeat split.
Qed.

Lemma parseGSA_keeps_position (js : Builtins) (sentence : string) (s : State) :
  let s' := parseGSA js sentence s in
  lastKnownLocation s' = lastKnownLocation s /\
  latitude (currentData s') = latitude (currentData s) /\
  longitude (currentData s') = longitude (currentData s).
Proof.
  cbn zeta. unfold parseGSA. destruct (_ <? _)%nat; repeat split.
Qed.

Lemma parseGSV_keeps_position (js : Builtins) (sentence : string) (s : State) :
  let s' := parseGSV js sentence s in
  lastKnownLocation s' = lastKnownLocation s /\
  latitude (currentData s') = latitude (currentData s) /\
  longitude (currentData s') = longitude (currentData s).
Proof.
  cbn zeta. unfold parseGSV. destruct (_ <=? _)%nat; [|repeat split].
  cbv zeta. destruct (_ <? _); repeat split.
Qed.

(** Only GGA sentences move the position: any other sentence leaves the
    coordinates and the last-known location as they were and schedules no
    write of the file, while still being recorded as received and passed
    on. *)
Theorem only_gga_moves_position
    (js : Builtins) (now : Z) (sentence : string) (s : State) :
  isPositionSentence sentence = false ->
  let r := processNMEASentence js now sentence s in
  lastKnownLocation (fst r) = lastKnownLocation s /\
  latitude (currentData (fst r)) = latitude (currentData s) /\
  longitude (currentData (fst r)) = longitude (currentData s) /\
  ~ In SaveScheduled (snd r) /\
  lastNMEATime (fst r) = Some now /\
  snd r = [EmitNmea sentence].
Proof.
  unfold isPositionSentence. intros Hnot. cbn zeta.
  unfold processNMEASentence. rewrite Hnot.
  set (s0 := set_lastNMEATime (Some now) s).
  assert (Hnmea :
    lastNMEATime (parseRMC js sentence s0) = Some now /\
    lastNMEATime (parseGSA js sentence s0) = Some now /\
    lastNMEATime (parseGSV js sentence s0) = Some now).
  { split; [|split].
    - unfold parseRMC. cbv zeta. destruct (_ <? _)%nat; [reflexivity|].
      destruct (String.eqb _ _); reflexivity.
    - unfold parseGSA. cbv zeta. destruct (_ <? _)%nat; reflexivity.
    - unfold parseGSV. cbv zeta. destruct (_ <=? _)%nat; [|reflexivity].
      destruct (_ <? _); reflexivity. }
  destruct Hnmea as (N1 & N2 & N3).
  destruct (startsWith "$GPRMC" sentence || startsWith "$GNRMC" sentence).
  { destruct (parseRMC_keeps_position js sentence s0) as (H1 & H2 & H3).
    cbn [fst snd app]. rewrite H1, H2, H3.
    repeat split; try assumption. intros [Hin|[]]; discriminate Hin. }
  destruct (startsWith "$GPGSA" sentence || startsWith "$GNGSA" sentence).
  { destruct (parseGSA_keeps_position js sentence s0) as (H1 & H2 & H3).
    cbn [fst snd app]. rewrite H1, H2, H3.
    repeat split; try assumption. intros [Hin|[]]; discriminate Hin. }
  destruct (startsWith "$GPGSV" sentence || startsWith "$GNGSV" sentence).
  { destruct (parseGSV_keeps_position js sentence s0) as (H1 & H2 & H3).
    cbn [fst snd app]. rewrite H1, H2, H3.
    repeat split; try assumption. intros [Hin|[]]; discriminate Hin. }
  cbn [fst snd app]. repeat split. intros [Hin|[]]; discriminate Hin.
Qed.

Lemma only_gga_moves_position_witness :
  let sentence :=
    "$GPRMC,123519,A,4807.038,N,01131.000,E,022.4,084.4,230394,003.1,W*6A"%string in
  let r := processNMEASentence decimalBuiltins 1000 sentence initialState in
  speed (currentData (fst r)) = Some ((224 # 10) * (1852 # 1000))%Q /\
  lastKnownLocation (fst r) = None /\
  latitude (currentData (fst r)) = None /\
  snd r = [EmitNmea sentence].
Proof.
  cbn zeta.
  destruct (only_gga_moves_position decimalBuiltins 1000
              "$GPRMC,123519,A,4807.038,N,01131.000,E,022.4,084.4,230394,003.1,W*6A"
              initialState) as (H1 & H2 & _ & _ & _ & H6); [vm_compute; reflexivity|].
  split; [vm_compute; reflexivity|].
  split; [exact H1|]. split; [exact H2|exact H6].
Defined.

(** The device loop connects to the first candidate, in list order, that
    is accessible and opens; it fails exactly when no candidate does. *)
Theorem tryDevices_first_that_connects
    (pr : Probe) (devices : list string) (current : option string) :
  match tryDevices pr devices current with
  | (p, true) =>
      exists before device after,
        devices = before ++ device :: after /\ p = Some device /\
        connects pr device = true /\
        Forall (fun x => connects pr x = false) before
  | (_, false) => Forall (fun x => connects pr x = false) devices
  end.
Proof.
  revert current. induction devices as [|d ds IH]; intros current; cbn [tryDevices].
  { constructor. }
  destruct (accessible pr d) eqn:Ha.
  - destruct (opens pr d) eqn:Ho.
    + exists [], d, ds. repeat split.
      * unfold connects. rewrite Ha, Ho. reflexivity.
      * constructor.
    + specialize (IH (Some d)).
      destruct (tryDevices pr ds (Some d)) as [p [|]].
      * destruct IH as (before & dev & after & -> & -> & Hc & Hb).
        exists (d :: before), dev, after. repeat split; [exact Hc|].
        constructor; [unfold connects; rewrite Ha, Ho; reflexivity|exact Hb].
      * constructor; [unfold connects; rewrite Ha, Ho; reflexivity|exact IH].
  - specialize (IH current).
    destruct (tryDevices pr ds current) as [p [|]].
    + destruct IH as (before & dev & after & -> & -> & Hc & Hb).
      exists (d :: before), dev, after. repeat split; [exact Hc|].
      constructor; [unfold connects; rewrite Ha; reflexivity|exact Hb].
    + constructor; [unfold connects; rewrite Ha; reflexivity|exact IH].
Qed.

Lemma connStep_attemptsBounded (s s' : State) (e : ConnEvent) (out : list Effect) :
  attemptsBounded s = true -> connStep s e = Some (s', out) ->
  attemptsBounded s' = true.
Proof.
  destruct s as [ini down prt cur lkl con att tmr sig acq ttf nmea].
  unfold attemptsBounded, maxConnectionAttempts.
  cbn [connectionAttempts reconnectTimer]. intros Hb.
  apply andb_prop in Hb as [Hle Ht]. apply Z.leb_le in Hle.
  destruct e as [now|now|now pr]; cbn [connStep reconnectTimer].
  1,2: intros H; injection H as H; apply (f_equal fst) in H; cbn [fst] in H;
       subst s';
       unfold handleDisconnect, scheduleReconnect, maxConnectionAttempts, set_disconnected;
       cbn [isShuttingDown reconnectTimer connectionAttempts];
       destruct down, tmr as [due|], (Z.leb_spec 10 att);
       cbn; rewrite ?andb_true_r;
       try (apply Z.ltb_lt in Ht); rewrite ?andb_true_iff, ?Z.leb_le, ?Z.ltb_lt; lia.
  destruct tmr as [due|]; [|discriminate].
  apply Z.ltb_lt in Ht.
  destruct (due <=? now); [|discriminate].
  intros H; injection H as H; apply (f_equal fst) in H; cbn [fst] in H; subst s'.
  unfold startAsyncConnection, connectToGPS.
  destruct (tryDevices _ _ _) as [[dev|] [|]]; cbn; try reflexivity;
    unfold scheduleReconnect, maxConnectionAttempts; cbn;
    destruct down, (Z.leb_spec 10 (att + 1));
    cbn; rewrite ?andb_true_r, ?andb_true_iff, ?Z.leb_le, ?Z.ltb_lt; lia.
Qed.

(** Along any sequence of port errors, closes and reconnect timers, the
    attempt counter never exceeds the maximum of 10, and a reconnect is
    pending only while it is below 10. *)
Theorem connection_attempts_bounded
    (s s' : State) (es : list ConnEvent) (out : list Effect) :
  attemptsBounded s = true -> connRun s es = Some (s', out) ->
  connectionAttempts s' <= 10 /\
  (reconnectTimer s' <> None -> connectionAttempts s' < 10).
Proof.
  intros Hb Hrun.
  assert (Hb' : attemptsBounded s' = true).
  { revert s out Hb Hrun. induction es as [|e es IH]; intros s out Hb Hrun; cbn in Hrun.
    - injection Hrun as <- _. exact Hb.
    - destruct (connStep s e) as [[s1 o1]|] eqn:Hs; [|discriminate].
      destruct (connRun s1 es) as [[s2 o2]|] eqn:Hr; [|discriminate].
      injection Hrun as <- _.
      exact (IH _ _ (connStep_attemptsBounded _ _ _ _ Hb Hs) Hr). }
  unfold attemptsBounded, maxConnectionAttempts in Hb'.
  apply andb_prop in Hb' as [Hle Ht]. apply Z.leb_le in Hle.
  split; [exact Hle|]. intros Hne.
  destruct (reconnectTimer s'); [apply Z.ltb_lt; exact Ht|contradiction].
Qed.

Lemma connection_attempts_bounded_witness :
  exists s' out,
    connRun connectedState tenFailures = Some (s', out) /\
    connectionAttempts s' = 10 /\
    connectionAttempts s' <= 10 /\
    (reconnectTimer s' <> None -> connectionAttempts s' < 10).
Proof.
  eexists. eexists. split; [vm_compute; reflexivity|].
  split; [vm_compute; reflexivity|].
  match goal with
  | |- connectionAttempts ?s <= _ /\ _ =>
      eapply (connection_attempts_bounded connectedState s tenFailures);
        vm_compute; reflexivity
  end.
Defined.

(** The age shown for a cached position is the elapsed time rounded down
    in its unit: it never overstates the age, is less than one unit short,
    and the unit is not one in which the age would read zero (seconds
    apart). *)
Theorem location_age_rounds_down (now : Z) (l : LastKnown) :
  lk_timestamp l <= now ->
  let age := getLocationAge now l in
  let elapsed := now - lk_timestamp l in
  ageValue age * ageUnit age <= elapsed < (ageValue age + 1) * ageUnit age /\
  (ageUnit age = 1000 \/ 0 < ageValue age).
Proof.
  intros Hnow. cbn zeta. unfold getLocationAge. cbv zeta.
  set (ms := now - lk_timestamp l). assert (Hms : 0 <= ms) by (unfold ms; lia).
  rewrite !Z.div_div by lia.
  change (1000 * (60 * (60 * 24))) with 86400000.
  change (1000 * (60 * 60)) with 3600000. change (1000 * 60) with 60000.
  destruct (Z.ltb_spec 0 (ms / 86400000)).
  { cbn [ageValue ageUnit]. split; [|right; assumption].
    pose proof (Z.mul_div_le ms 86400000). pose proof (Z.mul_succ_div_gt ms 86400000). lia. }
  destruct (Z.ltb_spec 0 (ms / 3600000)).
  { cbn [ageValue ageUnit]. split; [|right; assumption].
    pose proof (Z.mul_div_le ms 3600000). pose proof (Z.mul_succ_div_gt ms 3600000). lia. }
  destruct (Z.ltb_spec 0 (ms / 60000)).
  { cbn [ageValue ageUnit]. split; [|right; assumption].
    pose proof (Z.mul_div_le ms 60000). pose proof (Z.mul_succ_div_gt ms 60000). lia. }
  cbn [ageValue ageUnit]. split; [|left; reflexivity].
  pose proof (Z.mul_div_le ms 1000). pose proof (Z.mul_succ_div_gt ms 1000). lia.
Qed.

Lemma location_age_rounds_down_witness :
  let l := mkLastKnown (Some (Num (48 # 1)%Q)) (Some (Num (11 # 1)%Q)) None (Some 2) 8
             (Some (9 # 10)%Q) sig_excellent 1000 in
  getLocationAge 7501000 l = Hours 2 /\
  (2 * 3600000 <= 7500000 < 3 * 3600000 /\ (3600000 = 1000 \/ 0 < 2)).
Proof.
  cbn zeta. split; [reflexivity|].
  apply (location_age_rounds_down 7501000
           (mkLastKnown (Some (Num (48 # 1)%Q)) (Some (Num (11 # 1)%Q)) None (Some 2) 8
              (Some (9 # 10)%Q) sig_excellent 1000)).
  cbn. lia.
Defined.

(** A good fix taken at 48 N 11 E is promoted, written, and served again
    as the cached position by a service restarted a minute later. *)
Lemma persist_reload_nonzero_witness :
  let sentence :=
    "$GPGGA,123519,4807.038,N,01131.000,E,1,08,0.9,545.4,M,46.9,M,,*47"%string in
  let s := fst (parseGGA decimalBuiltins 1000 sentence initialState) in
  let file := savePersistedLocation true s None in
  let restarted := fst (loadPersistedLocation file initialState) in
  exists l, lastKnownLocation s = Some l /\
            lastKnownLocation restarted = Some l /\
            exists age, getCurrentLocation 61000 restarted = Cached l age /\
                        0 <= ageValue age.
Proof.
  cbn zeta.
  set (s := fst (parseGGA decimalBuiltins 1000 _ initialState)).
  destruct (lastKnownLocation s) as [l|] eqn:Hl; [|vm_compute in Hl; discriminate Hl].
  exists l. split; [reflexivity|].
  apply (persist_reload_nonzero s initialState l
           (2887038 # 60000) (691000 # 60000) 61000 Hl).
  - vm_compute in Hl. injection Hl as <-. reflexivity.
  - vm_compute in Hl. injection Hl as <-. reflexivity.
  - intros H. vm_compute in H. discriminate H.
  - intros H. vm_compute in H. discriminate H.
  - reflexivity.
  - vm_compute in Hl. injection Hl as <-. cbn. lia.
Defined.

End GPSAsyncMore.
